(** * chezmoi [init]: repository-URL guessing and the clone bootstrap

    A shallow embedding of [pkg/cmd/initcmd.go]:
    - [Regexp]: the part of Go's [regexp] package that the guess table uses
      (leftmost-first backtracking match, submatches, [$n] templates);
    - [repoGuesses] and [guessRepoURL];
    - [builtinGitClone], its retry loop and the redacting log marshaler;
      the clone options are the caller's variable, which go-git's
      [PlainClone] gets by pointer and fills in;
    - [builtinGitInit] and [runInitCmd]: the one-shot overrides, the
      bootstrap of the working tree, and the steps that follow it, whose
      own code lies in other files and which are taken by their
      results. *)

From Stdlib Require Import String Ascii List Bool Arith NArith ZArith Lia.
From Stdlib Require Import DecimalString Sorted.
Import ListNotations.
Open Scope string_scope.

(** ** Strings as Go byte strings *)

Module Str.

Fixpoint all_in (p : ascii -> bool) (s : string) : bool :=
  match s with
  | EmptyString => true
  | String c s' => p c && all_in p s'
  end.

Fixpoint any_in (p : ascii -> bool) (s : string) : bool :=
  match s with
  | EmptyString => false
  | String c s' => p c || any_in p s'
  end.

(** [strings.HasPrefix]-style test that also hands back the remainder. *)
Fixpoint strip_prefix (p s : string) : option string :=
  match p, s with
  | EmptyString, _ => Some s
  | String a p', String b s' => if Ascii.eqb a b then strip_prefix p' s' else None
  | String _ _, EmptyString => None
  end.

Definition HasPrefix (s p : string) : bool :=
  match strip_prefix p s with Some _ => true | None => false end.

(** [s[i:]] *)
Fixpoint drop (i : nat) (s : string) : string :=
  match i, s with
  | 0, _ => s
  | S i', String _ s' => drop i' s'
  | S _, EmptyString => EmptyString
  end.

(** [s[i:j]] *)
Definition slice (i j : nat) (s : string) : string := substring i (j - i) s.

(** [strings.Cut(s, sep)] for a one-byte separator. *)
Fixpoint cut (sep : ascii) (s : string) : option (string * string) :=
  match s with
  | EmptyString => None
  | String c s' =>
      if Ascii.eqb c sep then Some (EmptyString, s')
      else match cut sep s' with
           | Some (before, after) => Some (String c before, after)
           | None => None
           end
  end.

(** The longest prefix whose bytes satisfy [p], and what follows it. *)
Fixpoint span (p : ascii -> bool) (s : string) : string * string :=
  match s with
  | EmptyString => (EmptyString, EmptyString)
  | String c s' =>
      if p c then let (x, y) := span p s' in (String c x, y)
      else (EmptyString, s)
  end.

(** The string is empty or its first byte fails [p]. *)
Definition stops (p : ascii -> bool) (s : string) : bool :=
  match s with
  | EmptyString => true
  | String c _ => negb (p c)
  end.

Definition is_empty (s : string) : bool :=
  match s with EmptyString => true | String _ _ => false end.

End Str.

(** ** Go's [regexp], as far as the guess table exercises it *)

Module Regexp.

(** A bracket expression is a list of inclusive byte ranges; a single
    byte [c] is the range [(c, c)]. *)
Definition class := list (ascii * ascii).

Definition in_range (lo hi c : ascii) : bool :=
  (N_of_ascii lo <=? N_of_ascii c)%N && (N_of_ascii c <=? N_of_ascii hi)%N.

Definition in_class (cls : class) (c : ascii) : bool :=
  existsb (fun r => in_range (fst r) (snd r) c) cls.

(** The syntax used by the table: [\A], [\z], literal text, [[...]],
    [[...]+], concatenation, [r?] and capturing groups.  [+] is only ever
    applied to a bracket expression. *)
Inductive regex : Type :=
| BeginText
| EndText
| Lit (lit : string)
| Class (cls : class)
| Plus (cls : class)
| Cat (r1 r2 : regex)
| Opt (r : regex)
| Group (n : nat) (r : regex).

(** Submatch [n] is the text of group [n], [None] while the group has not
    taken part in the match (Go's index [-1]). *)
Definition captures := list (option string).

Fixpoint set_cap (n : nat) (v : string) (caps : captures) : captures :=
  match n, caps with
  | _, [] => []
  | 0, _ :: t => Some v :: t
  | S n', h :: t => h :: set_cap n' v t
  end.

Definition cap_text (n : nat) (caps : captures) : string :=
  match nth_error caps n with
  | Some (Some t) => t
  | _ => EmptyString
  end.

Section Matcher.

Context {R : Type}.

(** Greedy [[cls]+]: take a byte, prefer taking more, and only then try
    the continuation on what is left. *)
Fixpoint plus_class (cls : class) (s : string) (k : string -> option R) : option R :=
  match s with
  | EmptyString => None
  | String c s' =>
      if in_class cls c then
        match plus_class cls s' k with
        | Some r => Some r
        | None => k s'
        end
      else None
  end.

(** Backtracking match of [r] at the front of [s], the rest of the pattern
    being the continuation [k].  [n] is the length of the whole input, so
    that the current offset is [n - length s]; alternatives are tried in
    priority order, which is the leftmost-first match Go returns. *)
Fixpoint match_re (r : regex) (n : nat) (s : string) (caps : captures)
    (k : string -> captures -> option R) : option R :=
  match r with
  | BeginText => if (String.length s =? n)%nat then k s caps else None
  | EndText => if Str.is_empty s then k s caps else None
  | Lit lit =>
      match Str.strip_prefix lit s with
      | Some s' => k s' caps
      | None => None
      end
  | Class cls =>
      match s with
      | String c s' => if in_class cls c then k s' caps else None
      | EmptyString => None
      end
  | Plus cls => plus_class cls s (fun s' => k s' caps)
  | Cat r1 r2 => match_re r1 n s caps (fun s' caps' => match_re r2 n s' caps' k)
  | Opt r' =>
      match match_re r' n s caps k with
      | Some res => Some res
      | None => k s caps
      end
  | Group g r' =>
      match_re r' n s caps
        (fun s' caps' => k s' (set_cap g (substring 0 (String.length s - String.length s') s) caps'))
  end.

End Matcher.

(** A compiled pattern: its syntax tree and its number of groups. *)
Record Regexp : Type := { re : regex; NumSubexp : nat }.

(** One match: start offset, end offset, submatches (0 is the whole match). *)
Definition found := (nat * nat * captures)%type.

(** A match that starts exactly at the front of [s]: its end offset and
    the submatches of its groups. *)
Definition match_here (rx : Regexp) (n : nat) (s : string) : option (nat * captures) :=
  match_re (re rx) n s (repeat None (S (NumSubexp rx)))
    (fun s' caps => Some (n - String.length s', caps)).

(** The leftmost match in [s], a suffix of an input of length [n]. *)
Fixpoint find_from (rx : Regexp) (n : nat) (s : string) : option found :=
  match match_here rx n s with
  | Some (a1, caps) =>
      let a0 := n - String.length s in
      Some (a0, a1, set_cap 0 (substring 0 (a1 - a0) s) caps)
  | None =>
      match s with
      | EmptyString => None
      | String _ s' => find_from rx n s'
      end
  end.

Definition MatchString (rx : Regexp) (s : string) : bool :=
  match find_from rx (String.length s) s with Some _ => true | None => false end.

(** *** Templates: [Regexp.expand] and its helper [extract] *)

Definition is_name_byte : ascii -> bool :=
  in_class [("0", "9"); ("A", "Z"); ("a", "z"); ("_", "_")]%char.

Definition is_digit : ascii -> bool := in_class [("0", "9")]%char.

(** The decimal value of [name], [None] (Go's [-1]) when it is not a
    number, has a leading zero or grows past [1e8]. *)
Fixpoint parse_num (name : string) (acc : N) : option N :=
  match name with
  | EmptyString => Some acc
  | String c name' =>
      if negb (is_digit c) || (100000000 <=? acc)%N then None
      else parse_num name' (acc * 10 + (N_of_ascii c - 48))%N
  end.

Definition name_num (name : string) : option N :=
  match name with
  | String "0" (String _ _) => None
  | _ => parse_num name 0%N
  end.

(** [extract]: the name after a [$], with or without braces; [None] is
    Go's [ok = false]. *)
Definition extract (str : string) : option (string * option N * string) :=
  match str with
  | EmptyString => None
  | String c str' =>
      let brace := Ascii.eqb c "{" in
      let body := if brace then str' else str in
      let (name, rest) := Str.span is_name_byte body in
      if Str.is_empty name then None
      else if brace then
        match rest with
        | String "}" rest' => Some (name, name_num name, rest')
        | _ => None
        end
      else Some (name, name_num name, rest)
  end.

(** [expand]: copy the template, replacing [$n] and [${n}] by submatch [n]
    and [$$] by a dollar.  No pattern of the table names a group, so a
    reference by name expands to nothing. *)
Fixpoint expand_loop (fuel : nat) (template : string) (caps : captures) : string :=
  match fuel with
  | 0 => template
  | S fuel' =>
      match Str.cut "$" template with
      | None => template
      | Some (before, after) =>
          before ++
          match after with
          | String "$" after' => "$" ++ expand_loop fuel' after' caps
          | _ =>
              match extract after with
              | None => "$" ++ expand_loop fuel' after caps
              | Some (_, num, rest) =>
                  match num with
                  | Some i => cap_text (N.to_nat i) caps
                  | None => EmptyString
                  end ++ expand_loop fuel' rest caps
              end
          end
      end
  end.

Definition expand (template : string) (caps : captures) : string :=
  expand_loop (S (String.length template)) template caps.

(** *** [ReplaceAllString] *)

(** Where the search resumes after a match ending at [a1]: past the match,
    and always at least one step further than [searchPos].  Go steps by
    the width of the rune at [searchPos]; strings are bytes here and the
    step is one byte. *)
Definition next_search (len searchPos a1 : nat) : nat :=
  let width := if (searchPos <? len)%nat then 1 else 0 in
  if (a1 <? searchPos + width)%nat then searchPos + width
  else if (a1 <? searchPos + 1)%nat then searchPos + 1
  else a1.

(** The loop of [Regexp.replaceAll]: copy what lies between matches and
    put the expanded template in place of each match. *)
Fixpoint replace_loop (fuel : nat) (rx : Regexp) (src repl : string)
    (searchPos lastMatchEnd : nat) : string :=
  let tail := Str.drop lastMatchEnd src in
  match fuel with
  | 0 => tail
  | S fuel' =>
      if (String.length src <? searchPos)%nat then tail
      else
        match find_from rx (String.length src) (Str.drop searchPos src) with
        | None => tail
        | Some (a0, a1, caps) =>
            Str.slice lastMatchEnd a0 src ++
            (if (lastMatchEnd <? a1)%nat || (a0 =? 0)%nat then expand repl caps
             else EmptyString) ++
            replace_loop fuel' rx src repl (next_search (String.length src) searchPos a1) a1
        end
  end.

Definition ReplaceAllString (rx : Regexp) (src repl : string) : string :=
  replace_loop (S (S (String.length src))) rx src repl 0 0.

(** *** Reading a pattern

    The pattern syntax that the table is written in: [\A], [\z], an
    escaped byte, [(...)], [[...]] with ranges, and the postfix [+] (on a
    bracket expression) and [?]. *)

(** The inside of [[...]], up to the closing bracket.  A [-] that does not
    stand between two bytes is a byte of the class. *)
Fixpoint parse_class (fuel : nat) (s : string) (acc : class) : option (class * string) :=
  match fuel with
  | 0 => None
  | S fuel' =>
      match s with
      | EmptyString => None
      | String "]" rest => Some (rev acc, rest)
      | String lo (String "-" (String hi rest as after)) =>
          if Ascii.eqb hi "]" then parse_class fuel' (String "-" after) ((lo, lo) :: acc)
          else parse_class fuel' rest ((lo, hi) :: acc)
      | String c rest => parse_class fuel' rest ((c, c) :: acc)
      end
  end.

(** Adjacent literals read as one literal. *)
Fixpoint merge_lits (items : list regex) : list regex :=
  match items with
  | Lit a :: rest =>
      match merge_lits rest with
      | Lit b :: rest' => Lit (a ++ b) :: rest'
      | rest' => Lit a :: rest'
      end
  | r :: rest => r :: merge_lits rest
  | [] => []
  end.

Fixpoint cat_all (items : list regex) : regex :=
  match items with
  | [] => Lit ""
  | [r] => r
  | r :: rest => Cat r (cat_all rest)
  end.

(** A sequence of items up to a closing parenthesis or the end; [n] counts
    the groups opened so far. *)
Fixpoint parse_seq (fuel : nat) (s : string) (n : nat) (acc : list regex)
    : option (list regex * string * nat) :=
  match fuel with
  | 0 => None
  | S fuel' =>
      let postfix (a : regex) (rest : string) (n' : nat) :=
        match rest with
        | String "+" rest' =>
            match a with
            | Class cls => parse_seq fuel' rest' n' (Plus cls :: acc)
            | _ => None
            end
        | String "?" rest' => parse_seq fuel' rest' n' (Opt a :: acc)
        | _ => parse_seq fuel' rest n' (a :: acc)
        end in
      match s with
      | EmptyString => Some (rev acc, s, n)
      | String ")" _ => Some (rev acc, s, n)
      | String "(" rest =>
          match parse_seq fuel' rest (S n) [] with
          | Some (items, String ")" rest', n') =>
              postfix (Group (S n) (cat_all (merge_lits items))) rest' n'
          | _ => None
          end
      | String "[" rest =>
          match parse_class fuel' rest [] with
          | Some (cls, rest') => postfix (Class cls) rest' n
          | None => None
          end
      | String "\" (String "A" rest) => postfix BeginText rest n
      | String "\" (String "z" rest) => postfix EndText rest n
      | String "\" (String c rest) => postfix (Lit (String c "")) rest n
      | String c rest => postfix (Lit (String c "")) rest n
      end
  end.

(** [regexp.MustCompile]; a pattern that does not parse makes Go panic and
    is read here as the pattern that matches nothing. *)
Definition MustCompile (pattern : string) : Regexp :=
  match parse_seq (S (String.length pattern)) pattern 0 [] with
  | Some (items, EmptyString, n) => {| re := cat_all (merge_lits items); NumSubexp := n |}
  | _ => {| re := Class []; NumSubexp := 0 |}
  end.

End Regexp.

(** ** The guess table *)

Import Regexp.

(** [[-0-9A-Za-z]] *)
Definition word : class := [("-", "-"); ("0", "9"); ("A", "Z"); ("a", "z")]%char.

(** [[-.0-9A-Za-z]] *)
Definition dotted : class := [("-", "-"); (".", "."); ("0", "9"); ("A", "Z"); ("a", "z")]%char.

(** [[a-z_]] *)
Definition srht_first : class := [("a", "z"); ("_", "_")]%char.

(** [[a-z0-9_-]] *)
Definition srht_rest : class := [("a", "z"); ("0", "9"); ("_", "_"); ("-", "-")]%char.

(** [\A] r1 r2 ... [\z] *)
Definition anchored (body : list regex) : regex :=
  Cat BeginText (fold_right Cat EndText body).

Record repoGuess : Type := {
  rx : Regexp;
  httpRepoGuessRepl : string;
  sshRepoGuessRepl : string;
  usernameGuessRepl : string
}.

(** [\A([-0-9A-Za-z]+)\z] *)
Definition rx1 : Regexp :=
  {| re := anchored [Group 1 (Plus word)]; NumSubexp := 1 |}.

(** [\A([-0-9A-Za-z]+)/([-0-9A-Za-z]+)(\.git)?\z] *)
Definition rx2 : Regexp :=
  {| re := anchored [Group 1 (Plus word); Lit "/"; Group 2 (Plus word);
                     Opt (Group 3 (Lit ".git"))];
     NumSubexp := 3 |}.

(** [\A([-.0-9A-Za-z]+)/([-0-9A-Za-z]+)\z] *)
Definition rx3 : Regexp :=
  {| re := anchored [Group 1 (Plus dotted); Lit "/"; Group 2 (Plus word)];
     NumSubexp := 2 |}.

(** [\A([-0-9A-Za-z]+)/([-0-9A-Za-z]+)/([-.0-9A-Za-z]+)\z] *)
Definition rx4 : Regexp :=
  {| re := anchored [Group 1 (Plus word); Lit "/"; Group 2 (Plus word); Lit "/";
                     Group 3 (Plus dotted)];
     NumSubexp := 3 |}.

(** [\A([-.0-9A-Za-z]+)/([-0-9A-Za-z]+)/([-0-9A-Za-z]+)(\.git)?\z] *)
Definition rx5 : Regexp :=
  {| re := anchored [Group 1 (Plus dotted); Lit "/"; Group 2 (Plus word); Lit "/";
                     Group 3 (Plus word); Opt (Group 4 (Lit ".git"))];
     NumSubexp := 4 |}.

(** [\A(https?://)([-.0-9A-Za-z]+)/([-0-9A-Za-z]+)/([-0-9A-Za-z]+)(\.git)?\z] *)
Definition rx6 : Regexp :=
  {| re := anchored [Group 1 (Cat (Lit "http") (Cat (Opt (Lit "s")) (Lit "://")));
                     Group 2 (Plus dotted); Lit "/"; Group 3 (Plus word); Lit "/";
                     Group 4 (Plus word); Opt (Group 5 (Lit ".git"))];
     NumSubexp := 5 |}.

(** [\Asr\.ht/~([a-z_][a-z0-9_-]+)\z] *)
Definition rx7 : Regexp :=
  {| re := anchored [Lit "sr.ht/~"; Group 1 (Cat (Class srht_first) (Plus srht_rest))];
     NumSubexp := 1 |}.

(** [\Asr\.ht/~([a-z_][a-z0-9_-]+)/([-0-9A-Za-z]+)\z] *)
Definition rx8 : Regexp :=
  {| re := anchored [Lit "sr.ht/~"; Group 1 (Cat (Class srht_first) (Plus srht_rest));
                     Lit "/"; Group 2 (Plus word)];
     NumSubexp := 2 |}.

Definition repoGuesses : list repoGuess := [
  {| rx := rx1;
     httpRepoGuessRepl := "https://github.com/$1/dotfiles.git";
     sshRepoGuessRepl := "git@github.com:$1/dotfiles.git";
     usernameGuessRepl := "$1" |};
  {| rx := rx2;
     httpRepoGuessRepl := "https://github.com/$1/$2.git";
     sshRepoGuessRepl := "git@github.com:$1/$2.git";
     usernameGuessRepl := "$1" |};
  {| rx := rx3;
     httpRepoGuessRepl := "https://$1/$2/dotfiles.git";
     sshRepoGuessRepl := "git@$1:$2/dotfiles.git";
     usernameGuessRepl := "$2" |};
  {| rx := rx4;
     httpRepoGuessRepl := "https://$1/$2/$3.git";
     sshRepoGuessRepl := "git@$1:$2/$3.git";
     usernameGuessRepl := "$2" |};
  {| rx := rx5;
     httpRepoGuessRepl := "https://$1/$2/$3.git";
     sshRepoGuessRepl := "git@$1:$2/$3.git";
     usernameGuessRepl := "$2" |};
  {| rx := rx6;
     httpRepoGuessRepl := "$1$2/$3/$4.git";
     sshRepoGuessRepl := "git@$2:$3/$4.git";
     usernameGuessRepl := "$3" |};
  {| rx := rx7;
     httpRepoGuessRepl := "https://git.sr.ht/~$1/dotfiles";
     sshRepoGuessRepl := "git@git.sr.ht:~$1/dotfiles";
     usernameGuessRepl := "$1" |};
  {| rx := rx8;
     httpRepoGuessRepl := "https://git.sr.ht/~$1/$2";
     sshRepoGuessRepl := "git@git.sr.ht:~$1/$2";
     usernameGuessRepl := "$1" |}
].

(** [guessRepoURL]: the loop over [repoGuesses], written over an arbitrary
    tail of the table.  The result is [(username, repo)]. *)
Fixpoint guessRepoURL_in (guesses : list repoGuess) (arg : string) (ssh : bool)
    : string * string :=
  match guesses with
  | [] => (EmptyString, arg)
  | repoGuess :: rest =>
      if negb (MatchString (rx repoGuess) arg) then guessRepoURL_in rest arg ssh
      else if ssh && negb (Str.is_empty (sshRepoGuessRepl repoGuess)) then
        (EmptyString, ReplaceAllString (rx repoGuess) arg (sshRepoGuessRepl repoGuess))
      else if negb ssh && negb (Str.is_empty (httpRepoGuessRepl repoGuess)) then
        (ReplaceAllString (rx repoGuess) arg (usernameGuessRepl repoGuess),
         ReplaceAllString (rx repoGuess) arg (httpRepoGuessRepl repoGuess))
      else guessRepoURL_in rest arg ssh
  end.

Definition guessRepoURL (arg : string) (ssh : bool) : string * string :=
  guessRepoURL_in repoGuesses arg ssh.

(** ** Errors

    Go's [error] values.  The two sentinels that the command compares
    against are constructors of their own; [wrapError] is an error whose
    [Unwrap] gives [err]. *)

Inductive error : Type :=
| ErrAuthenticationRequired
| ErrNotExist
| errorString (msg : string)
| wrapError (msg : string) (err : error).

(** A Go [error] result: [None] is [nil]. *)
Definition go_error := option error.

Inductive result (A : Type) : Type :=
| Ok (a : A)
| Err (err : error).
Arguments Ok {A} a.
Arguments Err {A} err.

(** [err == target] for a sentinel [target]. *)
Definition same_sentinel (err target : error) : bool :=
  match err, target with
  | ErrAuthenticationRequired, ErrAuthenticationRequired => true
  | ErrNotExist, ErrNotExist => true
  | _, _ => false
  end.

Fixpoint in_chain (err target : error) : bool :=
  same_sentinel err target ||
  match err with
  | wrapError _ inner => in_chain inner target
  | _ => false
  end.

(** [errors.Is] *)
Definition errors_Is (err : go_error) (target : error) : bool :=
  match err with
  | None => false
  | Some e => in_chain e target
  end.

(** [err.Error()] *)
Definition Error (err : error) : string :=
  match err with
  | ErrAuthenticationRequired => "authentication required"
  | ErrNotExist => "file does not exist"
  | errorString msg => msg
  | wrapError msg _ => msg
  end.

(** ** Clone options and their loggable view *)

(** go-git's [http.BasicAuth], the only [AuthMethod] the command builds. *)
Record BasicAuth : Type := { Username : string; Password : string }.

(** [BasicAuth.Name] *)
Definition BasicAuth_Name (a : BasicAuth) : string := "http-basic-auth".

(** [BasicAuth.String]: the method name, the user name and a mask
    in place of the password. *)
Definition BasicAuth_String (a : BasicAuth) : string :=
  let masked := if Str.is_empty (Password a) then "<empty>" else "*******" in
  BasicAuth_Name a ++ " - " ++ Username a ++ ":" ++ masked.

(** The fields of go-git's [CloneOptions] that the command sets or logs. *)
Record CloneOptions : Type := {
  URL : string;
  Auth : option BasicAuth;
  RemoteName : string;
  ReferenceName : string;
  SingleBranch : bool;
  NoCheckout : bool;
  Depth : Z;
  RecurseSubmodules : N;
  Tags : Z;
  InsecureSkipTLS : bool;
  CABundle : option string
}.

(** [git.DefaultSubmoduleRecursionDepth] *)
Definition DefaultSubmoduleRecursionDepth : N := 10.

(** [plumbing.NewBranchReferenceName] *)
Definition NewBranchReferenceName (name : string) : string := "refs/heads/" ++ name.

Definition with_Auth (o : CloneOptions) (a : option BasicAuth) : CloneOptions :=
  {| URL := URL o; Auth := a; RemoteName := RemoteName o;
     ReferenceName := ReferenceName o; SingleBranch := SingleBranch o;
     NoCheckout := NoCheckout o; Depth := Depth o;
     RecurseSubmodules := RecurseSubmodules o; Tags := Tags o;
     InsecureSkipTLS := InsecureSkipTLS o; CABundle := CABundle o |}.

(** go-git's [DefaultRemoteName], [plumbing.HEAD] and tag modes. *)
Definition DefaultRemoteName : string := "origin".
Definition HEAD : string := "HEAD".
Definition InvalidTagMode : Z := 0.
Definition TagFollowing : Z := 1.
Definition AllTags : Z := 2.
Definition NoTags : Z := 3.

(** go-git's [ErrMissingURL] *)
Definition ErrMissingURL : error := errorString "URL field is required".

(** go-git's [CloneOptions.Validate], a method on the pointer: it refuses
    an empty URL and otherwise writes the defaults into the options it
    was given.  The result is the error and the options as the call
    leaves them. *)
Definition CloneOptions_Validate (o : CloneOptions) : go_error * CloneOptions :=
  if Str.is_empty (URL o) then (Some ErrMissingURL, o)
  else
    (None,
     {| URL := URL o; Auth := Auth o;
        RemoteName := if Str.is_empty (RemoteName o) then DefaultRemoteName
                      else RemoteName o;
        ReferenceName := if Str.is_empty (ReferenceName o) then HEAD
                         else ReferenceName o;
        SingleBranch := SingleBranch o;
        NoCheckout := NoCheckout o; Depth := Depth o;
        RecurseSubmodules := RecurseSubmodules o;
        Tags := if (Tags o =? InvalidTagMode)%Z then AllTags else Tags o;
        InsecureSkipTLS := InsecureSkipTLS o; CABundle := CABundle o |}).

(** The options that the caller of [PlainClone] holds after the call:
    [PlainClone] is given a pointer to them, and when it gets as far as
    cloning ([validated]) it has run [Validate] on them; when it fails
    before that (the path cannot be used, the repository cannot be
    initialized) it has not touched them. *)
Definition written (validated : bool) (o : CloneOptions) : CloneOptions :=
  if validated then snd (CloneOptions_Validate o) else o.

(** A zerolog event is the list of the fields added to it, in order. *)
#[warnings="-register-all"]
Inductive log_value : Type :=
| LStr (s : string)
| LBool (b : bool)
| LInt (z : Z)
| LUint (n : N)
| LBytes (s : string)
| LError (err : error)
| LObject (fields : list (string * log_value)).

Definition log_fields := list (string * log_value).

Definition field_if (cond : bool) (key : string) (v : log_value) : log_fields :=
  if cond then [(key, v)] else [].

(** [loggableGitCloneOptions.MarshalZerologObject]: each field is added
    when it is not the zero value; [Auth] goes through its [String]
    method. *)
Definition MarshalZerologObject (o : CloneOptions) : log_fields :=
  (field_if (negb (Str.is_empty (URL o))) "URL" (LStr (URL o)) ++
   match Auth o with
   | Some a => [("Auth", LStr (BasicAuth_String a))]
   | None => []
   end ++
   field_if (negb (Str.is_empty (RemoteName o))) "RemoteName" (LStr (RemoteName o)) ++
   field_if (negb (Str.is_empty (ReferenceName o))) "ReferenceName" (LStr (ReferenceName o)) ++
   field_if (SingleBranch o) "SingleBranch" (LBool (SingleBranch o)) ++
   field_if (NoCheckout o) "NoCheckout" (LBool (NoCheckout o)) ++
   field_if (negb (Depth o =? 0)%Z) "Depth" (LInt (Depth o)) ++
   field_if (negb (RecurseSubmodules o =? 0)%N) "RecurseSubmodules"
     (LUint (RecurseSubmodules o)) ++
   field_if (negb (Tags o =? 0)%Z) "Tags" (LInt (Tags o)) ++
   field_if (InsecureSkipTLS o) "InsecureSkipTLS" (LBool (InsecureSkipTLS o)) ++
   match CABundle o with
   | Some b => [("CABundle", LBytes b)]
   | None => []
   end)%list.

Inductive log_level : Type := InfoLevel | ErrorLevel.

Record LogEntry : Type := {
  level : log_level;
  fields : log_fields;
  message : string
}.

(** [logger.Err(err)]: an error-level event carrying the error, or an
    info-level event when [err] is [nil]. *)
Definition logger_Err (err : go_error) : log_level * log_fields :=
  match err with
  | Some e => (ErrorLevel, [("error", LError e)])
  | None => (InfoLevel, [])
  end.

(** ** Configuration *)

(** A [*chezmoi.EntryTypeFilter]: the command passes the pointer on and
    never looks behind it, so it is kept as an address; [None] is [nil]. *)
Definition EntryTypeFilter_ptr : Type := option N.

Record initCmdConfig : Type := {
  apply : bool;
  branch : string;
  data : bool;
  depth : Z;
  filter : EntryTypeFilter_ptr;
  guessRepoURL_enabled : bool;   (* Go field [guessRepoURL] *)
  oneShot : bool;
  forcePromptOnce : bool;
  purge : bool;
  purgeBinary : bool;
  recurseSubmodules : bool;
  ssh : bool
}.

(** The part of [Config] that [init] reads or writes: its own options,
    [force], the source, destination and working-tree directories, the
    umask, the git command and the resolved value of [UseBuiltinGit]. *)
Record Config : Type := {
  init : initCmdConfig;
  force : bool;
  SourceDirAbsPath : string;
  DestDirAbsPath : string;
  WorkingTreeAbsPath : string;
  Umask : N;
  Git_Command : string;
  useBuiltinGit : bool
}.

(** The assignments under [if c.init.oneShot]. *)
Definition oneShot_overrides (c : Config) : Config :=
  if oneShot (init c) then
    {| init := {| apply := true; branch := branch (init c); data := data (init c);
                  depth := 1; filter := filter (init c);
                  guessRepoURL_enabled := guessRepoURL_enabled (init c);
                  oneShot := oneShot (init c);
                  forcePromptOnce := forcePromptOnce (init c);
                  purge := true; purgeBinary := true;
                  recurseSubmodules := recurseSubmodules (init c);
                  ssh := ssh (init c) |};
       force := true;
       SourceDirAbsPath := SourceDirAbsPath c;
       DestDirAbsPath := DestDirAbsPath c;
       WorkingTreeAbsPath := WorkingTreeAbsPath c;
       Umask := Umask c;
       Git_Command := Git_Command c;
       useBuiltinGit := useBuiltinGit c |}
  else c.

(** The assignment [c.SourceDirAbsPath = ...]. *)
Definition with_SourceDirAbsPath (c : Config) (sourceDirAbsPath : string) : Config :=
  {| init := init c;
     force := force c;
     SourceDirAbsPath := sourceDirAbsPath;
     DestDirAbsPath := DestDirAbsPath c;
     WorkingTreeAbsPath := WorkingTreeAbsPath c;
     Umask := Umask c;
     Git_Command := Git_Command c;
     useBuiltinGit := useBuiltinGit c |}.

(** The option structs of the steps that follow the bootstrap, with the
    fields that [init] sets. *)
Record getSourceDirAbsPathOptions : Type := { refresh : bool }.

(** The command's systems: [Stat] and [RawPath] are asked of the base
    system, the apply step is given the destination system. *)
Inductive System : Type := baseSystem | destSystem.

(** The hook that [init] passes as [preApplyFunc]. *)
Inductive PreApplyFunc : Type := defaultPreApplyFunc.

Record applyArgsOptions : Type := {
  applyArgs_filter : EntryTypeFilter_ptr;      (* Go field [filter] *)
  applyArgs_recursive : bool;                  (* Go field [recursive] *)
  applyArgs_umask : N;                         (* Go field [umask] *)
  applyArgs_preApplyFunc : PreApplyFunc        (* Go field [preApplyFunc] *)
}.

Record purgeOptions : Type := { binary : bool }.

(** ** The command's surroundings

    Everything the command does to the outside is recorded as an event;
    what the outside answers is scripted.  For the calls of the
    bootstrap the answer to the k-th call of a kind is the script's value
    at k.  The steps that follow the bootstrap are methods of [Config]
    defined in other files: their events record the configuration they
    are called on and their arguments, and their answers, which may
    depend on both, are their results together with the configuration as
    the call leaves it. *)

Inductive event : Type :=
| EvPlainClone (path : string) (isBare : bool) (o : CloneOptions)
| EvPlainInit (path : string) (isBare : bool)
| EvLog (entry : LogEntry)
| EvStdout (text : string)
| EvReadString (prompt : string) (defaultValue : option string)
| EvReadPassword (prompt : string)
| EvRun (dir : string) (command : string) (args : list string)
| EvCheckVersion (c : Config)
| EvGetSourceDirAbsPath (c : Config) (options : getSourceDirAbsPathOptions)
| EvCreateAndReloadConfigFile (c : Config)
| EvApplyArgs (c : Config) (targetSystem : System) (targetDirAbsPath : string)
    (args : list string) (options : applyArgsOptions)
| EvDoPurge (c : Config) (options : purgeOptions).

Inductive FileInfo : Type := { IsDir : bool }.

Record Env : Type := {
  statResult : string -> result FileInfo;
  rawPathResult : string -> result string;
  plainCloneResult : nat -> go_error;
  plainCloneValidated : nat -> bool;
  plainInitResult : nat -> go_error;
  stdoutResult : nat -> go_error;
  readStringResult : nat -> result string;
  readPasswordResult : nat -> result string;
  runResult : nat -> go_error;
  GOOS : string;
  noArgs : list string;
  checkVersionResult : Config -> go_error * Config;
  getSourceDirAbsPathResult :
    Config -> getSourceDirAbsPathOptions -> string * go_error * Config;
  createAndReloadConfigFileResult : Config -> go_error * Config;
  applyArgsResult :
    Config -> System -> string -> list string -> applyArgsOptions -> go_error * Config;
  doPurgeResult : Config -> purgeOptions -> go_error * Config
}.

Definition is_clone (e : event) : bool :=
  match e with EvPlainClone _ _ _ => true | _ => false end.
Definition is_init (e : event) : bool :=
  match e with EvPlainInit _ _ => true | _ => false end.
Definition is_log (e : event) : bool :=
  match e with EvLog _ => true | _ => false end.
Definition is_stdout (e : event) : bool :=
  match e with EvStdout _ => true | _ => false end.
Definition is_readString (e : event) : bool :=
  match e with EvReadString _ _ => true | _ => false end.
Definition is_readPassword (e : event) : bool :=
  match e with EvReadPassword _ => true | _ => false end.
Definition is_run (e : event) : bool :=
  match e with EvRun _ _ _ => true | _ => false end.

(** The events of the bootstrap: what [init] does itself to get a working
    tree, as opposed to the steps it hands on to. *)
Definition is_bootstrap (e : event) : bool :=
  is_clone e || is_init e || is_log e || is_stdout e || is_readString e ||
  is_readPassword e || is_run e.

Definition count (p : event -> bool) (tr : list event) : nat :=
  List.length (List.filter p tr).

(** A computation reads the scripts and extends the history. *)
Definition M (A : Type) : Type := Env -> list event -> A * list event.

Definition ret {A : Type} (a : A) : M A := fun _ tr => (a, tr).

Definition bind {A B : Type} (m : M A) (f : A -> M B) : M B :=
  fun env tr => let (a, tr') := m env tr in f a env tr'.

Declare Scope go_scope.
Delimit Scope go_scope with go.
Notation "x <- m ;; k" := (bind m (fun x => k))
  (at level 61, m at next level, right associativity) : go_scope.
Notation "m ;;; k" := (bind m (fun _ => k))
  (at level 61, right associativity) : go_scope.
Open Scope go_scope.

(** Perform a call of kind [p]: look its answer up, then record it. *)
Definition call {A : Type} (p : event -> bool) (answer : Env -> nat -> A) (e : event) : M A :=
  fun env tr => (answer env (count p tr), (tr ++ [e])%list).

(** [git.PlainClone path isBare &o]: the event records the options as
    they are passed; the answer is the error and the options as the call
    leaves them. *)
Definition PlainClone (path : string) (isBare : bool) (o : CloneOptions)
    : M (go_error * CloneOptions) :=
  call is_clone
    (fun env k => (plainCloneResult env k, written (plainCloneValidated env k) o))
    (EvPlainClone path isBare o).

Definition PlainInit (path : string) (isBare : bool) : M go_error :=
  call is_init plainInitResult (EvPlainInit path isBare).

Definition Msg (ev : log_level * log_fields) (more : log_fields) (msg : string) : M unit :=
  call is_log (fun _ _ => tt)
    (EvLog {| level := fst ev; fields := (snd ev ++ more)%list; message := msg |}).

Definition Fprintf_stdout (text : string) : M go_error :=
  call is_stdout stdoutResult (EvStdout text).

Definition readString (prompt : string) (defaultValue : option string) : M (result string) :=
  call is_readString readStringResult (EvReadString prompt defaultValue).

Definition readPassword (prompt : string) : M (result string) :=
  call is_readPassword readPasswordResult (EvReadPassword prompt).

Definition run (dir command : string) (args : list string) : M go_error :=
  call is_run runResult (EvRun dir command args).

(** The steps that follow the bootstrap are methods of [Config] whose
    code lies outside this file.  Each is given the configuration as it
    stands (they have the pointer) and answers with its results and with
    the configuration as the call leaves it. *)
Definition method {A : Type} (answer : Env -> A) (e : event) : M A :=
  fun env tr => (answer env, (tr ++ [e])%list).

Definition checkVersion (c : Config) : M (go_error * Config) :=
  method (fun env => checkVersionResult env c) (EvCheckVersion c).

Definition getSourceDirAbsPath (c : Config) (options : getSourceDirAbsPathOptions)
    : M (string * go_error * Config) :=
  method (fun env => getSourceDirAbsPathResult env c options)
    (EvGetSourceDirAbsPath c options).

Definition createAndReloadConfigFile (c : Config) : M (go_error * Config) :=
  method (fun env => createAndReloadConfigFileResult env c)
    (EvCreateAndReloadConfigFile c).

(** The context of the cobra command, the first argument of [applyArgs]
    in the source, is not part of the model. *)
Definition applyArgs (c : Config) (targetSystem : System) (targetDirAbsPath : string)
    (args : list string) (options : applyArgsOptions) : M (go_error * Config) :=
  method (fun env => applyArgsResult env c targetSystem targetDirAbsPath args options)
    (EvApplyArgs c targetSystem targetDirAbsPath args options).

Definition doPurge (c : Config) (options : purgeOptions) : M (go_error * Config) :=
  method (fun env => doPurgeResult env c options) (EvDoPurge c options).

(** [runtime.GOOS], and the package-level variable [noArgs], which is
    declared in another file. *)
Definition runtime_GOOS : M string := fun env tr => (GOOS env, tr).
Definition package_noArgs : M (list string) := fun env tr => (noArgs env, tr).

(** A [for { ... }] loop: the body either goes round again with a new
    loop state or returns.  [None] means the fuel ran out before the body
    returned. *)
Inductive loop_ctl (S R : Type) : Type :=
| Continue (s : S)
| Return (r : R).
Arguments Continue {S R} s.
Arguments Return {S R} r.

Fixpoint for_loop {S R : Type} (fuel : nat) (body : S -> M (loop_ctl S R)) (s : S)
    : M (option R) :=
  match fuel with
  | 0 => ret None
  | Datatypes.S fuel' =>
      c <- body s ;;
      match c with
      | Continue s' => for_loop fuel' body s'
      | Return r => ret (Some r)
      end
  end.

(** ** Library types that cross the command's boundary *)

(** go-git's [transport.Endpoint]. *)
Record Endpoint : Type := {
  Protocol : string;
  EndpointUser : string;
  EndpointPassword : string;
  EndpointHost : string;
  EndpointPort : Z;
  EndpointPath : string
}.

(** [net/url]'s [Userinfo] and [URL]. *)
Record Userinfo : Type := {
  username : string;
  password : string;
  passwordSet : bool
}.

Record url_URL : Type := {
  Scheme : string;
  User : option Userinfo;
  Host : string;
  Path : string;
  RawQuery : string;
  Fragment : string
}.

(** [url.User] *)
Definition url_User (name : string) : Userinfo :=
  {| username := name; password := ""; passwordSet := false |}.

Definition with_User (u : url_URL) (ui : option Userinfo) : url_URL :=
  {| Scheme := Scheme u; User := ui; Host := Host u; Path := Path u;
     RawQuery := RawQuery u; Fragment := Fragment u |}.

Definition newline : string := String (ascii_of_nat 10) "".

(** [strconv.Itoa] *)
Definition Itoa (z : Z) : string := DecimalString.NilZero.string_of_int (Z.to_int z).

Section InitCmd.

(** The parsers of go-git and of [net/url] are taken as given. *)
Variable NewEndpoint : string -> result Endpoint.
Variable url_Parse : string -> result url_URL.
Variable URL_String : url_URL -> string.

(** The options of the first clone attempt. *)
Definition initial_cloneOptions (c : Config) (repoURLStr : string) : CloneOptions :=
  let referenceName :=
    if negb (Str.is_empty (branch (init c)))
    then NewBranchReferenceName (branch (init c))
    else "" in
  {| URL := repoURLStr;
     Auth := None;
     RemoteName := "";
     ReferenceName := referenceName;
     SingleBranch := false;
     NoCheckout := false;
     Depth := depth (init c);
     RecurseSubmodules := DefaultSubmoduleRecursionDepth;
     Tags := 0;
     InsecureSkipTLS := false;
     CABundle := None |}.

(** One round of the [for] loop of [builtinGitClone].  The loop state is
    the [cloneOptions] variable, which [PlainClone] gets by pointer: what
    is logged, and what the next round starts from, is the variable as
    the call left it. *)
Definition cloneAttempt (username repoURLStr workingTreeRawPath : string)
    (cloneOptions0 : CloneOptions) : M (loop_ctl CloneOptions go_error) :=
  let isBare := false in
  r <- PlainClone workingTreeRawPath isBare cloneOptions0 ;;
  let err := fst r in
  let cloneOptions := snd r in
  Msg (logger_Err err)
      [("path", LStr workingTreeRawPath);
       ("isBare", LBool isBare);
       ("o", LObject (MarshalZerologObject cloneOptions))]
      "PlainClone" ;;;
  if negb (errors_Is err ErrAuthenticationRequired) then ret (Return err)
  else
    werr <- Fprintf_stdout
              ("chezmoi: " ++ repoURLStr ++ ": " ++
               match err with Some e => Error e | None => "<nil>" end ++ newline) ;;
    match werr with
    | Some e => ret (Return (Some e))
    | None =>
        u <- readString "Username? " (Some username) ;;
        match u with
        | Err e => ret (Return (Some e))
        | Ok name =>
            let name' := if Str.is_empty name then username else name in
            pw <- readPassword "Password? " ;;
            match pw with
            | Err e => ret (Return (Some e))
            | Ok secret =>
                ret (Continue
                       (with_Auth cloneOptions
                          (Some {| Username := name'; Password := secret |})))
            end
        end
    end.

(** [builtinGitClone]: [None] when [fuel] rounds did not suffice,
    [Some err] when the function returned [err]. *)
Definition builtinGitClone (fuel : nat) (c : Config)
    (username repoURLStr workingTreeRawPath : string) : M (option go_error) :=
  match NewEndpoint repoURLStr with
  | Err err => ret (Some (Some err))
  | Ok endpoint =>
      if ssh (init c) || (Protocol endpoint =? "ssh")%string then
        ret (Some (Some (errorString
          "builtin git does not support cloning repos over ssh, please install git")))
      else
        for_loop fuel (cloneAttempt username repoURLStr workingTreeRawPath)
          (initial_cloneOptions c repoURLStr)
  end.

(** [builtinGitInit] *)
Definition builtinGitInit (workingTreeRawPath : string) : M go_error :=
  let isBare := false in
  err <- PlainInit workingTreeRawPath isBare ;;
  Msg (logger_Err err)
      [("path", LStr workingTreeRawPath); ("isBare", LBool isBare)]
      "PlainInit" ;;;
  ret err.

(** The URL handed to the external git: under [--guess-repo-url], an
    http(s) URL without a user component gets [username] as its user. *)
Definition clone_repoURLStr (c : Config) (username repoURLStr : string) : result string :=
  if guessRepoURL_enabled (init c) &&
     (Str.HasPrefix repoURLStr "http://" || Str.HasPrefix repoURLStr "https://")
  then
    match url_Parse repoURLStr with
    | Err err => Err err
    | Ok repoURL =>
        match User repoURL with
        | None => Ok (URL_String (with_User repoURL (Some (url_User username))))
        | Some _ => Ok repoURLStr
        end
    end
  else Ok repoURLStr.

(** The options that precede the URL on the external git's command line. *)
Definition clone_flags (c : Config) : list string :=
  (["clone"] ++
   (if recurseSubmodules (init c) then ["--recurse-submodules"] else []) ++
   (if negb (Str.is_empty (branch (init c))) then ["--branch"; branch (init c)] else []) ++
   (if negb (depth (init c) =? 0)%Z then ["--depth"; Itoa (depth (init c))] else []))%list.

(** The clone branch of [runInitCmd]: a repo argument was given. *)
Definition cloneRepo (fuel : nat) (c : Config) (arg workingTreeRawPath : string)
    : M (option go_error) :=
  let (username, repoURLStr) :=
    if guessRepoURL_enabled (init c) then guessRepoURL arg (ssh (init c))
    else (EmptyString, arg) in
  if useBuiltinGit c then
    builtinGitClone fuel c username repoURLStr workingTreeRawPath
  else
    match clone_repoURLStr c username repoURLStr with
    | Err err => ret (Some (Some err))
    | Ok repoURLStr' =>
        err <- run "" (Git_Command c)
                 (clone_flags c ++ [repoURLStr'; workingTreeRawPath])%list ;;
        ret (Some err)
    end.

(** [git.GitDirName] joined to the working tree. *)
Definition gitDirAbsPath (c : Config) : string := WorkingTreeAbsPath c ++ "/.git".

(** The [switch] of [runInitCmd] on the state of the git directory:
    "if we're not in a working tree then init it or clone it".  Every
    [return] inside the switch returns an error; [Some None] stands for
    control leaving the switch, [None] for fuel that ran out in the clone
    loop. *)
Definition ensureWorkingTree (fuel : nat) (c : Config) (args : list string)
    : M (option go_error) :=
  fun env =>
  match statResult env (gitDirAbsPath c) with
  | Ok fileInfo =>
      if IsDir fileInfo then ret (Some None) env
      else ret (Some (Some (errorString (gitDirAbsPath c ++ ": not a directory")))) env
  | Err err =>
      if errors_Is (Some err) ErrNotExist then
        match rawPathResult env (WorkingTreeAbsPath c) with
        | Err err' => ret (Some (Some err')) env
        | Ok workingTreeRawPath =>
            match args with
            | [] =>
                if useBuiltinGit c then
                  (err' <- builtinGitInit workingTreeRawPath ;; ret (Some err')) env
                else
                  (err' <- run (WorkingTreeAbsPath c) (Git_Command c) ["init"; "--quiet"] ;;
                   ret (Some err')) env
            | arg :: _ => cloneRepo fuel c arg workingTreeRawPath env
            end
        end
      else ret (Some (Some err)) env
  end.

(** What [runInitCmd] does once the working tree is there: the version
    check, the source directory, the config file, and the apply and the
    purge that the options ask for.  The first error ends it. *)
Definition finishInit (c0 : Config) : M go_error :=
  r <- checkVersion c0 ;;
  let c1 := snd r in
  match fst r with
  | Some err => ret (Some err)
  | None =>
      r <- getSourceDirAbsPath c1 {| refresh := true |} ;;
      let c2 := with_SourceDirAbsPath (snd r) (fst (fst r)) in
      match snd (fst r) with
      | Some err => ret (Some err)
      | None =>
          r <- createAndReloadConfigFile c2 ;;
          let c3 := snd r in
          match fst r with
          | Some err => ret (Some err)
          | None =>
              r <- (if apply (init c3) then
                      noArgs <- package_noArgs ;;
                      applyArgs c3 destSystem (DestDirAbsPath c3) noArgs
                        {| applyArgs_filter := filter (init c3);
                           applyArgs_recursive := false;
                           applyArgs_umask := Umask c3;
                           applyArgs_preApplyFunc := defaultPreApplyFunc |}
                    else ret (None, c3)) ;;
              let c4 := snd r in
              match fst r with
              | Some err => ret (Some err)
              | None =>
                  if purge (init c4) then
                    goos <- runtime_GOOS ;;
                    r <- doPurge c4
                           {| binary := negb (goos =? "windows")%string &&
                                        purgeBinary (init c4) |} ;;
                    ret (fst r)
                  else ret None
              end
          end
      end
  end.

(** [runInitCmd]: the one-shot overrides, the bootstrap of the working
    tree, and the steps that follow it. *)
Definition runInitCmd (fuel : nat) (c0 : Config) (args : list string)
    : M (option go_error) :=
  let c := oneShot_overrides c0 in
  r <- ensureWorkingTree fuel c args ;;
  match r with
  | Some None => err <- finishInit c ;; ret (Some err)
  | _ => ret r
  end.

End InitCmd.

(** ** Stand-ins for the library parsers

    Small parsers that cover the URL shapes of the examples below; the
    general statements do not depend on them. *)

(** The protocol of a repository URL: an explicit scheme, or the
    scp-like [user@host:path] form, which is ssh. *)
Definition sample_NewEndpoint (s : string) : result Endpoint :=
  let proto :=
    if Str.HasPrefix s "https://" then "https"
    else if Str.HasPrefix s "http://" then "http"
    else if Str.HasPrefix s "ssh://" then "ssh"
    else if Str.any_in (Ascii.eqb "@") (fst (Str.span (fun c => negb (Ascii.eqb c ":")) s))
    then "ssh"
    else "file" in
  if Str.is_empty s then Err (errorString "empty endpoint")
  else Ok {| Protocol := proto; EndpointUser := ""; EndpointPassword := "";
             EndpointHost := ""; EndpointPort := 0; EndpointPath := s |}.

(** Split at the last occurrence of [sep]. *)
Fixpoint cut_last (sep : ascii) (s : string) : option (string * string) :=
  match s with
  | EmptyString => None
  | String c s' =>
      match cut_last sep s' with
      | Some (before, after) => Some (String c before, after)
      | None => if Ascii.eqb c sep then Some (EmptyString, s') else None
      end
  end.

Definition sample_parse_userinfo (s : string) : Userinfo :=
  match Str.cut ":" s with
  | Some (name, pw) => {| username := name; password := pw; passwordSet := true |}
  | None => url_User s
  end.

(** [scheme://[userinfo@]host[/path]] for the two http schemes. *)
Definition sample_url_Parse (s : string) : result url_URL :=
  let parse_rest (scheme rest : string) :=
    let (authority, path) := Str.span (fun c => negb (Ascii.eqb c "/")) rest in
    match cut_last "@" authority with
    | Some (ui, host) =>
        Ok {| Scheme := scheme; User := Some (sample_parse_userinfo ui); Host := host;
              Path := path; RawQuery := ""; Fragment := "" |}
    | None =>
        Ok {| Scheme := scheme; User := None; Host := authority;
              Path := path; RawQuery := ""; Fragment := "" |}
    end in
  match Str.strip_prefix "https://" s, Str.strip_prefix "http://" s with
  | Some rest, _ => parse_rest "https" rest
  | None, Some rest => parse_rest "http" rest
  | None, None => Err (errorString "unsupported scheme")
  end.

Definition sample_Userinfo_String (ui : Userinfo) : string :=
  username ui ++ (if passwordSet ui then ":" ++ password ui else "").

Definition sample_URL_String (u : url_URL) : string :=
  Scheme u ++ "://" ++
  match User u with
  | Some ui => sample_Userinfo_String ui ++ "@"
  | None => ""
  end ++ Host u ++ Path u.

(** Scripts built from lists; past the end of a list the answer is [dflt]. *)
Definition script {A : Type} (l : list A) (dflt : A) : nat -> A :=
  fun k => nth k l dflt.

Definition sample_Config (builtin guess sshFlag recurse : bool) : Config :=
  {| init := {| apply := false; branch := ""; data := false; depth := 0;
                filter := None;
                guessRepoURL_enabled := guess; oneShot := false;
                forcePromptOnce := false; purge := false; purgeBinary := false;
                recurseSubmodules := recurse; ssh := sshFlag |};
     force := false;
     SourceDirAbsPath := "/home/user/.local/share/chezmoi";
     DestDirAbsPath := "/home/user";
     WorkingTreeAbsPath := "/home/user/.local/share/chezmoi";
     Umask := 18;
     Git_Command := "git";
     useBuiltinGit := builtin |}.

(** The log entries of a history, oldest first. *)
Definition log_of (tr : list event) : list LogEntry :=
  flat_map (fun e => match e with EvLog entry => [entry] | _ => [] end) tr.

(** The clone options of the attempts of a history, oldest first. *)
Definition attempts_of (tr : list event) : list CloneOptions :=
  flat_map (fun e => match e with EvPlainClone _ _ o => [o] | _ => [] end) tr.

(** ** Notions used in the statements and proofs *)

(** *** Patterns *)

(** The continuation [k] fails on every input whose first byte is in
    [cls]. *)
Definition rejects {R : Type} (cls : class) (k : string -> option R) : Prop :=
  forall c s', in_class cls c = true -> k (String c s') = None.

(** [kb] says whether the continuation is known to fail; the result says
    whether [r] followed by that continuation is sure to fail on an input
    whose first byte is in [cls]. *)
Fixpoint blocked (cls : class) (r : regex) (kb : bool) : bool :=
  match r with
  | BeginText => kb
  | EndText => true
  | Lit EmptyString => kb
  | Lit (String d _) => negb (in_class cls d)
  | Class _ => false
  | Plus _ => false
  | Cat r1 r2 => blocked cls r1 (blocked cls r2 kb)
  | Opt r' => blocked cls r' kb && kb
  | Group _ r' => blocked cls r' kb
  end.

(** *** One round of the retry loop *)

(** The log entry of a clone attempt with options [o] that ended in
    [err]. *)
Definition round_log (path : string) (o : CloneOptions) (err : go_error) : LogEntry :=
  {| level := fst (logger_Err err);
     fields := (snd (logger_Err err) ++
                [("path", LStr path); ("isBare", LBool false);
                 ("o", LObject (MarshalZerologObject o))])%list;
     message := "PlainClone" |}.

(** The line written to stdout before the prompts. *)
Definition notice (url : string) (err : go_error) : string :=
  "chezmoi: " ++ url ++ ": " ++
  match err with Some e => Error e | None => "<nil>" end ++ newline.

(** The notice and both prompts of the round that starts at [tr] succeed. *)
Definition prompts_succeed (env : Env) (tr : list event) : Prop :=
  stdoutResult env (count is_stdout tr) = None /\
  (exists name, readStringResult env (count is_readString tr) = Ok name) /\
  (exists secret, readPasswordResult env (count is_readPassword tr) = Ok secret).

(** Round [i] after [tr] fails for want of authentication and its
    notice and prompts succeed. *)
Definition retry_round (env : Env) (tr : list event) (i : nat) : Prop :=
  errors_Is (plainCloneResult env (count is_clone tr + i)) ErrAuthenticationRequired = true /\
  stdoutResult env (count is_stdout tr + i) = None /\
  (exists name, readStringResult env (count is_readString tr + i) = Ok name) /\
  (exists secret, readPasswordResult env (count is_readPassword tr + i) = Ok secret).

(** How many clone attempts, log entries, notices, username prompts and
    password prompts a history holds. *)
Definition counts (tr : list event) : list nat :=
  [count is_clone tr; count is_log tr; count is_stdout tr;
   count is_readString tr; count is_readPassword tr].

(** *** Histories that differ in the passwords only *)

(** Two credentials that a log cannot tell apart: the same user name and
    passwords that are both empty or both not. *)
Definition auth_sim (a1 a2 : option BasicAuth) : Prop :=
  match a1, a2 with
  | None, None => True
  | Some x, Some y =>
      Username x = Username y /\
      Str.is_empty (Password x) = Str.is_empty (Password y)
  | _, _ => False
  end.

(** Clone options that agree on everything but the text of the password. *)
Definition opts_sim (o1 o2 : CloneOptions) : Prop :=
  with_Auth o1 None = with_Auth o2 None /\ auth_sim (Auth o1) (Auth o2).

(** Events that agree on everything but the text of a password. *)
Definition event_sim (e1 e2 : event) : Prop :=
  match e1, e2 with
  | EvPlainClone p1 b1 o1, EvPlainClone p2 b2 o2 => p1 = p2 /\ b1 = b2 /\ opts_sim o1 o2
  | EvPlainClone _ _ _, _ => False
  | _, EvPlainClone _ _ _ => False
  | _, _ => e1 = e2
  end.

(** Two answers to a password prompt that differ at most in the text of
    a non-empty password. *)
Definition password_sim (r1 r2 : result string) : Prop :=
  match r1, r2 with
  | Ok p1, Ok p2 => Str.is_empty p1 = Str.is_empty p2
  | Err e1, Err e2 => e1 = e2
  | _, _ => False
  end.

(** Two scripts that differ at most in the text of the passwords typed. *)
Definition same_but_passwords (env1 env2 : Env) : Prop :=
  (forall k, plainCloneResult env1 k = plainCloneResult env2 k) /\
  (forall k, plainCloneValidated env1 k = plainCloneValidated env2 k) /\
  (forall k, stdoutResult env1 k = stdoutResult env2 k) /\
  (forall k, readStringResult env1 k = readStringResult env2 k) /\
  (forall k, password_sim (readPasswordResult env1 k) (readPasswordResult env2 k)).

(** Two rounds end alike: both return the same error, or both go round
    again with options that differ in the password only. *)
Definition ctl_sim (c1 c2 : loop_ctl CloneOptions go_error) : Prop :=
  match c1, c2 with
  | Continue o1, Continue o2 => opts_sim o1 o2
  | Return e1, Return e2 => e1 = e2
  | _, _ => False
  end.

(** [p] does not look at passwords. *)
Definition respects (p : event -> bool) : Prop :=
  forall e1 e2, event_sim e1 e2 -> p e1 = p e2.

(** *** Configurations and scripts of the examples *)

(** [c] with the recurse-submodules option set to [b]. *)
Definition with_recurseSubmodules (c : Config) (b : bool) : Config :=
  {| init := {| apply := apply (init c); branch := branch (init c);
                data := data (init c); depth := depth (init c);
                filter := filter (init c);
                guessRepoURL_enabled := guessRepoURL_enabled (init c);
                oneShot := oneShot (init c);
                forcePromptOnce := forcePromptOnce (init c);
                purge := purge (init c); purgeBinary := purgeBinary (init c);
                recurseSubmodules := b; ssh := ssh (init c) |};
     force := force c;
     SourceDirAbsPath := SourceDirAbsPath c;
     DestDirAbsPath := DestDirAbsPath c;
     WorkingTreeAbsPath := WorkingTreeAbsPath c;
     Umask := Umask c;
     Git_Command := Git_Command c;
     useBuiltinGit := useBuiltinGit c |}.

(** Scripts for the examples: the clone fails twice for want of
    authentication and then succeeds; the user types a name and a
    password at every prompt. *)
Definition env_two_failures (secret : string) : Env :=
  {| statResult := fun _ => Err ErrNotExist;
     rawPathResult := fun p => Ok p;
     plainCloneResult :=
       script [Some ErrAuthenticationRequired; Some ErrAuthenticationRequired] None;
     plainCloneValidated := fun _ => true;
     plainInitResult := fun _ => None;
     stdoutResult := fun _ => None;
     readStringResult := fun _ => Ok "alice";
     readPasswordResult := fun _ => Ok secret;
     runResult := fun _ => None;
     GOOS := "linux";
     noArgs := [];
     checkVersionResult := fun c => (None, c);
     getSourceDirAbsPathResult := fun c _ => (WorkingTreeAbsPath c, None, c);
     createAndReloadConfigFileResult := fun c => (None, c);
     applyArgsResult := fun c _ _ _ _ => (None, c);
     doPurgeResult := fun c _ => (None, c) |}.

(** The clone wants authentication and the terminal is closed. *)
Definition env_no_terminal : Env :=
  {| statResult := fun _ => Err ErrNotExist;
     rawPathResult := fun p => Ok p;
     plainCloneResult := fun _ => Some ErrAuthenticationRequired;
     plainCloneValidated := fun _ => true;
     plainInitResult := fun _ => None;
     stdoutResult := fun _ => None;
     readStringResult := fun _ => Err (errorString "EOF");
     readPasswordResult := fun _ => Err (errorString "EOF");
     runResult := fun _ => None;
     GOOS := "linux";
     noArgs := [];
     checkVersionResult := fun c => (None, c);
     getSourceDirAbsPathResult := fun c _ => (WorkingTreeAbsPath c, None, c);
     createAndReloadConfigFileResult := fun c => (None, c);
     applyArgsResult := fun c _ _ _ _ => (None, c);
     doPurgeResult := fun c _ => (None, c) |}.

(** *** Notions of the further properties *)

(** The rule's pattern starts with [\A] and its ssh template is not
    empty and renders to something that starts with [git@]. *)
Definition ssh_template_ok (g : repoGuess) : Prop :=
  (exists body, re (rx g) = Cat BeginText body) /\
  Str.is_empty (sshRepoGuessRepl g) = false /\
  forall caps, exists rest, expand (sshRepoGuessRepl g) caps = "git@" ++ rest.

(** The rule's https template renders to a URL on git.sr.ht. *)
Definition srht_http_template_ok (g : repoGuess) : Prop :=
  forall caps, exists rest, expand (httpRepoGuessRepl g) caps = "https://git.sr.ht/~" ++ rest.

(** What the prompts of the retry loop look like: the username prompt
    offers the guessed username, the password prompt offers nothing. *)
Definition prompt_ok (username : string) (e : event) : Prop :=
  match e with
  | EvReadString prompt defaultValue =>
      prompt = "Username? " /\ defaultValue = Some username
  | EvReadPassword prompt => prompt = "Password? "
  | _ => True
  end.

(** [o'] is [o] but for the credentials and for the defaults that
    [PlainClone] may have written into the options. *)
Definition same_request (o o' : CloneOptions) : Prop :=
  with_Auth o' None = with_Auth o None \/
  with_Auth o' None = with_Auth (snd (CloneOptions_Validate o)) None.

(** What holds of the events that the retry loop adds when it starts
    with the options [o]. *)
Definition loop_events_ok (username : string) (o : CloneOptions) (new : list event) : Prop :=
  count is_log new = count is_clone new /\
  count is_readPassword new <= count is_readString new /\
  count is_readString new <= count is_stdout new /\
  count is_stdout new <= count is_clone new /\
  count is_run new = 0 /\
  count is_init new = 0 /\
  Forall (same_request o) (attempts_of new) /\
  (new = [] \/ hd_error (attempts_of new) = Some o) /\
  Forall (prompt_ok username) new.

(** The clone wants authentication every time and the user answers every
    prompt. *)
Definition env_always_auth : Env :=
  {| statResult := fun _ => Err ErrNotExist;
     rawPathResult := fun p => Ok p;
     plainCloneResult := fun _ => Some ErrAuthenticationRequired;
     plainCloneValidated := fun _ => true;
     plainInitResult := fun _ => None;
     stdoutResult := fun _ => None;
     readStringResult := fun _ => Ok "alice";
     readPasswordResult := fun _ => Ok "hunter2";
     runResult := fun _ => None;
     GOOS := "linux";
     noArgs := [];
     checkVersionResult := fun c => (None, c);
     getSourceDirAbsPathResult := fun c _ => (WorkingTreeAbsPath c, None, c);
     createAndReloadConfigFileResult := fun c => (None, c);
     applyArgsResult := fun c _ _ _ _ => (None, c);
     doPurgeResult := fun c _ => (None, c) |}.

(** The error that a step after the bootstrap answered with, read off
    its event; [None] for the events of the bootstrap. *)
Definition step_error (env : Env) (e : event) : go_error :=
  match e with
  | EvCheckVersion c => fst (checkVersionResult env c)
  | EvGetSourceDirAbsPath c options => snd (fst (getSourceDirAbsPathResult env c options))
  | EvCreateAndReloadConfigFile c => fst (createAndReloadConfigFileResult env c)
  | EvApplyArgs c targetSystem dir args options =>
      fst (applyArgsResult env c targetSystem dir args options)
  | EvDoPurge c options => fst (doPurgeResult env c options)
  | _ => None
  end.

(** The place of a step in the order of the source; 0 for the events of
    the bootstrap. *)
Definition step_rank (e : event) : nat :=
  match e with
  | EvCheckVersion _ => 1
  | EvGetSourceDirAbsPath _ _ => 2
  | EvCreateAndReloadConfigFile _ => 3
  | EvApplyArgs _ _ _ _ _ => 4
  | EvDoPurge _ _ => 5
  | _ => 0
  end.

(** The steps after the bootstrap leave the options of [init] as they
    found them. *)
Definition keeps_options (env : Env) : Prop :=
  forall c,
    init (snd (checkVersionResult env c)) = init c /\
    (forall options, init (snd (getSourceDirAbsPathResult env c options)) = init c) /\
    init (snd (createAndReloadConfigFileResult env c)) = init c /\
    (forall targetSystem dir args options,
       init (snd (applyArgsResult env c targetSystem dir args options)) = init c).

(** The working tree is already there; every later step succeeds. *)
Definition env_existing_tree : Env :=
  {| statResult := fun _ => Ok {| IsDir := true |};
     rawPathResult := fun p => Ok p;
     plainCloneResult := fun _ => None;
     plainCloneValidated := fun _ => true;
     plainInitResult := fun _ => None;
     stdoutResult := fun _ => None;
     readStringResult := fun _ => Ok "alice";
     readPasswordResult := fun _ => Ok "hunter2";
     runResult := fun _ => None;
     GOOS := "linux";
     noArgs := [];
     checkVersionResult := fun c => (None, c);
     getSourceDirAbsPathResult := fun c _ => (WorkingTreeAbsPath c, None, c);
     createAndReloadConfigFileResult := fun c => (None, c);
     applyArgsResult := fun c _ _ _ _ => (None, c);
     doPurgeResult := fun c _ => (None, c) |}.

(** A one-shot configuration with a depth and a branch of its own. *)
Definition one_shot_Config (builtin : bool) : Config :=
  {| init := {| apply := false; branch := "main"; data := false; depth := 5;
                filter := None;
                guessRepoURL_enabled := true; oneShot := true;
                forcePromptOnce := false; purge := false; purgeBinary := false;
                recurseSubmodules := false; ssh := false |};
     force := false;
     SourceDirAbsPath := "/home/user/.local/share/chezmoi";
     DestDirAbsPath := "/home/user";
     WorkingTreeAbsPath := "/home/user/.local/share/chezmoi";
     Umask := 18;
     Git_Command := "git";
     useBuiltinGit := builtin |}.

(** ** Reasoning about anchored patterns *)

Lemma append_nil_r (s : string) : s ++ "" = s.
Proof. induction s; simpl; congruence. Qed.

Lemma length_append (a b : string) :
  String.length (a ++ b) = String.length a + String.length b.
Proof. induction a; simpl; congruence. Qed.

Lemma substring_prefix (x r : string) :
  substring 0 (String.length x) (x ++ r) = x.
Proof.
  induction x as [|c x IH]; simpl.
  - destruct r; reflexivity.
  - now rewrite IH.
Qed.

Lemma consumed_prefix (x r : string) :
  substring 0 (String.length (x ++ r) - String.length r) (x ++ r) = x.
Proof.
  rewrite length_append, Nat.add_sub. apply substring_prefix.
Qed.

Lemma drop_all (s : string) : Str.drop (String.length s) s = "".
Proof. induction s; simpl; auto. Qed.

Lemma length_drop (i : nat) (s : string) :
  String.length (Str.drop i s) = String.length s - i.
Proof.
  revert s; induction i as [|i IH]; intros s; simpl.
  - lia.
  - destruct s; simpl; auto.
Qed.

(** A byte of a class differs from every byte outside it. *)
Lemma class_excludes (cls : class) (c d : ascii) :
  in_class cls c = true -> in_class cls d = false -> Ascii.eqb d c = false.
Proof.
  intros Hc Hd. destruct (Ascii.eqb_spec d c) as [->|]; congruence.
Qed.

(** When the rest of the pattern cannot start with a byte of the class,
    [[cls]+] has one way to match only: the whole run of class bytes. *)
Lemma plus_class_run {R : Type} (cls : class) (x rest : string) (k : string -> option R) :
  Str.all_in (in_class cls) x = true ->
  Str.stops (in_class cls) rest = true ->
  rejects cls k ->
  plus_class cls (x ++ rest) k = if Str.is_empty x then None else k rest.
Proof.
  intros Hx Hrest Hk.
  induction x as [|c x IH]; simpl in *.
  - destruct rest as [|d rest]; simpl in *; [reflexivity|].
    now destruct (in_class cls d).
  - apply andb_prop in Hx as [Hc Hx]. rewrite Hc, (IH Hx).
    destruct x as [|c' x]; simpl.
    + reflexivity.
    + simpl in Hx. apply andb_prop in Hx as [Hc' _].
      destruct (k rest) eqn:E; [reflexivity|].
      now apply Hk.
Qed.

Lemma find_from_short (rx : Regexp) (body : regex) (n : nat) (s : string) :
  re rx = Cat BeginText body ->
  String.length s < n ->
  find_from rx n s = None.
Proof.
  intros Hre. induction s as [|c s IH]; intros Hlen.
  - simpl. unfold match_here. rewrite Hre. simpl.
    destruct n; [inversion Hlen|reflexivity].
  - simpl. unfold match_here at 1. rewrite Hre. cbn [match_re].
    replace (String.length (String c s) =? n)%nat with false
      by (symmetry; apply Nat.eqb_neq; lia).
    apply IH. simpl in Hlen. lia.
Qed.

(** For a pattern that starts with [\A], the search is the attempt at
    offset 0. *)
Lemma find_from_anchored (rx : Regexp) (body : regex) (s : string) :
  re rx = Cat BeginText body ->
  find_from rx (String.length s) s =
  match match_here rx (String.length s) s with
  | Some (a1, caps) => Some (0, a1, set_cap 0 (substring 0 a1 s) caps)
  | None => None
  end.
Proof.
  intros Hre. destruct s as [|c s].
  - cbn [find_from String.length].
    destruct (match_here rx 0 "") as [[a1 caps]|]; [|reflexivity].
    now rewrite !Nat.sub_0_r.
  - cbn [find_from].
    destruct (match_here rx (String.length (String c s)) (String c s)) as [[a1 caps]|].
    + now rewrite Nat.sub_diag, Nat.sub_0_r.
    + apply (find_from_short rx body); [assumption|simpl; lia].
Qed.

Lemma MatchString_anchored (rx : Regexp) (body : regex) (s : string) :
  re rx = Cat BeginText body ->
  MatchString rx s =
  match match_here rx (String.length s) s with Some _ => true | None => false end.
Proof.
  intros Hre. unfold MatchString. rewrite (find_from_anchored rx body s Hre).
  destruct (match_here rx (String.length s) s) as [[a1 caps]|]; reflexivity.
Qed.

Lemma ReplaceAllString_anchored (rx : Regexp) (body : regex) (src repl : string) :
  re rx = Cat BeginText body ->
  ReplaceAllString rx src repl =
  match match_here rx (String.length src) src with
  | Some (a1, caps) =>
      expand repl (set_cap 0 (substring 0 a1 src) caps) ++ Str.drop a1 src
  | None => src
  end.
Proof.
  intros Hre. unfold ReplaceAllString.
  cbn [replace_loop Str.drop].
  replace (String.length src <? 0)%nat with false by (symmetry; apply Nat.ltb_ge; lia).
  rewrite (find_from_anchored rx body src Hre).
  destruct (match_here rx (String.length src) src) as [[a1 caps]|]; [|reflexivity].
  unfold Str.slice. cbn [Nat.sub substring].
  replace (substring 0 0 src) with "" by (destruct src; reflexivity).
  rewrite Nat.eqb_refl, orb_true_r. cbn [append]. f_equal.
  set (sp := next_search (String.length src) 0 a1).
  assert (Hsp : 1 <= sp).
  { unfold sp, next_search.
    destruct (0 <? String.length src)%nat;
      repeat match goal with |- context [(?a <? ?b)%nat] =>
        destruct (Nat.ltb_spec a b) end; lia. }
  destruct (Nat.ltb_spec (String.length src) sp) as [E|E]; [reflexivity|].
  rewrite (find_from_short rx body); [reflexivity|assumption|].
  rewrite length_drop. lia.
Qed.

(** *** Stepping through the patterns of the table *)

Lemma blocked_sound {R : Type} (cls : class) (c : ascii) (s' : string) (r : regex) :
  in_class cls c = true ->
  forall (kb : bool) (n : nat) (caps : captures) (k : string -> captures -> option R),
  blocked cls r kb = true ->
  (kb = true -> forall caps', k (String c s') caps' = None) ->
  match_re r n (String c s') caps k = None.
Proof.
  intros Hc. induction r as [ | |lit|cls'|cls'|r1 IH1 r2 IH2|r IH|g r IH];
    intros kb n caps k Hb Hk; cbn [match_re blocked] in *.
  - destruct (_ =? _)%nat; auto.
  - reflexivity.
  - destruct lit as [|d lit]; cbn [Str.strip_prefix].
    + auto.
    + apply negb_true_iff in Hb. now rewrite (class_excludes cls c d Hc Hb).
  - discriminate.
  - discriminate.
  - apply (IH1 (blocked cls r2 kb)); [assumption|].
    intros Hb2 caps'. now apply (IH2 kb).
  - apply andb_prop in Hb as [Hb ->].
    rewrite (IH true n caps k Hb Hk). now apply Hk.
  - apply (IH kb); [assumption|]. intros Hkb caps'. now apply Hk.
Qed.

Lemma match_BeginText {R : Type} (r : regex) (s : string) (caps : captures)
    (k : string -> captures -> option R) :
  match_re (Cat BeginText r) (String.length s) s caps k =
  match_re r (String.length s) s caps k.
Proof. cbn [match_re]. now rewrite Nat.eqb_refl. Qed.

(** A group [([cls]+)] in front of a rest that cannot start inside [cls]
    takes the whole run [x] of class bytes. *)
Lemma match_Group_Plus {R : Type} (g : nat) (cls : class) (r : regex) (n : nat)
    (x rest : string) (caps : captures) (k : string -> captures -> option R) :
  Str.all_in (in_class cls) x = true ->
  Str.stops (in_class cls) rest = true ->
  blocked cls r false = true ->
  match_re (Cat (Group g (Plus cls)) r) n (x ++ rest) caps k =
  if Str.is_empty x then None else match_re r n rest (set_cap g x caps) k.
Proof.
  intros Hx Hrest Hb. cbn [match_re].
  rewrite (plus_class_run cls x rest); [| assumption | assumption | ].
  - now rewrite consumed_prefix.
  - intros c s' Hc. apply (blocked_sound cls c s' r Hc false); [assumption|discriminate].
Qed.

Lemma match_Lit {R : Type} (lit : string) (r : regex) (n : nat) (s : string)
    (caps : captures) (k : string -> captures -> option R) :
  match_re (Cat (Lit lit) r) n s caps k =
  match Str.strip_prefix lit s with
  | Some s' => match_re r n s' caps k
  | None => None
  end.
Proof. reflexivity. Qed.

Lemma all_in_nonempty_dot (h : string) :
  Str.any_in (Ascii.eqb ".") h = true -> Str.is_empty h = false.
Proof. destruct h; [discriminate|reflexivity]. Qed.

Lemma dotted_word (c : ascii) :
  in_class dotted c = true -> Ascii.eqb "." c = false -> in_class word c = true.
Proof.
  unfold in_class, dotted, word. cbn [existsb fst snd].
  intros H Hdot.
  assert (E : in_range "." "." c = false).
  { unfold in_range. destruct (Ascii.eqb_spec "." c) as [->|Hne]; [discriminate|].
    apply andb_false_iff.
    destruct (N.leb_spec (N_of_ascii ".") (N_of_ascii c)) as [H1|H1]; [right|now left].
    apply N.leb_gt. destruct (N.eq_dec (N_of_ascii c) (N_of_ascii ".")) as [E|E].
    - exfalso. apply Hne. rewrite <- (ascii_N_embedding c), E. reflexivity.
    - lia. }
  rewrite E in H. exact H.
Qed.

(** A dotted host splits at its first dot; what precedes is dot-free. *)
Lemma first_dot (h : string) :
  Str.all_in (in_class dotted) h = true ->
  Str.any_in (Ascii.eqb ".") h = true ->
  exists h1 h2, h = h1 ++ "." ++ h2 /\ Str.all_in (in_class word) h1 = true.
Proof.
  induction h as [|c h IH]; cbn [Str.all_in Str.any_in]; [discriminate|].
  intros Hall Hany. apply andb_prop in Hall as [Hc Hall].
  destruct (Ascii.eqb "." c) eqn:E.
  - apply Ascii.eqb_eq in E as <-. exists "", h. split; reflexivity.
  - cbn [orb] in Hany. destruct (IH Hall Hany) as (h1 & h2 & -> & H1).
    exists (String c h1), h2. split; [reflexivity|].
    cbn [Str.all_in]. now rewrite (dotted_word c Hc E), H1.
Qed.

Lemma append_assoc (a b c : string) : (a ++ b) ++ c = a ++ b ++ c.
Proof. induction a; simpl; congruence. Qed.

Lemma substring_all (s : string) : substring 0 (String.length s) s = s.
Proof. rewrite <- (append_nil_r s) at 2. rewrite substring_prefix. reflexivity. Qed.

Lemma anchored_miss (rx : Regexp) (body : regex) (s : string) :
  re rx = Cat BeginText body ->
  match_here rx (String.length s) s = None ->
  MatchString rx s = false.
Proof. intros Hre H. now rewrite (MatchString_anchored rx body s Hre), H. Qed.

Lemma anchored_hit (rx : Regexp) (body : regex) (s : string) (caps : captures) :
  re rx = Cat BeginText body ->
  match_here rx (String.length s) s = Some (String.length s, caps) ->
  MatchString rx s = true /\
  forall repl, ReplaceAllString rx s repl = expand repl (set_cap 0 s caps).
Proof.
  intros Hre H. split.
  - now rewrite (MatchString_anchored rx body s Hre), H.
  - intros repl. rewrite (ReplaceAllString_anchored rx body s repl Hre), H.
    now rewrite substring_all, drop_all, append_nil_r.
Qed.

Lemma match_Group_Plus_end {R : Type} (g : nat) (cls : class) (r : regex) (n : nat)
    (x : string) (caps : captures) (k : string -> captures -> option R) :
  Str.all_in (in_class cls) x = true ->
  blocked cls r false = true ->
  match_re (Cat (Group g (Plus cls)) r) n x caps k =
  if Str.is_empty x then None else match_re r n "" (set_cap g x caps) k.
Proof.
  intros Hx Hb. rewrite <- (append_nil_r x) at 1.
  now apply match_Group_Plus.
Qed.

Ltac rx_side :=
  first
    [ assumption
    | reflexivity
    | cbn [Str.stops];
      match goal with H : in_class _ _ = false |- _ => rewrite H end; reflexivity ].

Ltac rx_step :=
  first
    [ rewrite match_BeginText
    | rewrite match_Group_Plus by rx_side
    | rewrite match_Group_Plus_end by rx_side
    | rewrite match_Lit; cbn [Str.strip_prefix append Ascii.eqb Bool.eqb]
    | match goal with
      | H : Str.is_empty ?x = false |- context [Str.is_empty ?x] => rewrite H
      end ].

Ltac rx_eval rx :=
  unfold match_here, rx, anchored; cbn [re NumSubexp fold_right repeat];
  repeat rx_step.

Ltac rx_done := cbn; rewrite ?Nat.sub_0_r; reflexivity.

Section Families.

Variables o nm h : string.
Hypothesis Ho : Str.all_in (in_class word) o = true.
Hypothesis Ho' : Str.is_empty o = false.
Hypothesis Hn : Str.all_in (in_class word) nm = true.
Hypothesis Hn' : Str.is_empty nm = false.
Hypothesis Hh : Str.all_in (in_class dotted) h = true.
Hypothesis Hh' : Str.is_empty h = false.

Lemma rx1_miss (x rest : string) (c : ascii) :
  Str.all_in (in_class word) x = true ->
  in_class word c = false ->
  match_here rx1 (String.length (x ++ String c rest)) (x ++ String c rest) = None.
Proof.
  intros Hx Hc. rx_eval rx1. destruct (Str.is_empty x); reflexivity.
Qed.

Lemma rx2_hit (sfx : string) (g : option string) :
  (sfx = "" /\ g = None) \/ (sfx = ".git" /\ g = Some ".git") ->
  match_here rx2 (String.length (o ++ "/" ++ nm ++ sfx)) (o ++ "/" ++ nm ++ sfx) =
  Some (String.length (o ++ "/" ++ nm ++ sfx), [None; Some o; Some nm; g]).
Proof.
  intros [[-> ->]|[-> ->]]; rx_eval rx2; rx_done.
Qed.

Lemma rx2_miss_dot (x rest : string) :
  Str.all_in (in_class word) x = true ->
  match_here rx2 (String.length (x ++ "." ++ rest)) (x ++ "." ++ rest) = None.
Proof.
  intros Hx. rx_eval rx2. destruct (Str.is_empty x); reflexivity.
Qed.

Lemma rx3_hit :
  match_here rx3 (String.length (h ++ "/" ++ o)) (h ++ "/" ++ o) =
  Some (String.length (h ++ "/" ++ o), [None; Some h; Some o]).
Proof.
  rx_eval rx3. rx_done.
Qed.

Lemma rx3_miss_3seg (rest : string) :
  match_here rx3 (String.length (h ++ "/" ++ o ++ "/" ++ rest)) (h ++ "/" ++ o ++ "/" ++ rest)
  = None.
Proof. rx_eval rx3. reflexivity. Qed.

Lemma rx4_miss_dot (x rest : string) :
  Str.all_in (in_class word) x = true ->
  match_here rx4 (String.length (x ++ "." ++ rest)) (x ++ "." ++ rest) = None.
Proof.
  intros Hx. rx_eval rx4. destruct (Str.is_empty x); reflexivity.
Qed.

Lemma rx5_hit (sfx : string) (g : option string) :
  (sfx = "" /\ g = None) \/ (sfx = ".git" /\ g = Some ".git") ->
  match_here rx5 (String.length (h ++ "/" ++ o ++ "/" ++ nm ++ sfx))
    (h ++ "/" ++ o ++ "/" ++ nm ++ sfx) =
  Some (String.length (h ++ "/" ++ o ++ "/" ++ nm ++ sfx),
        [None; Some h; Some o; Some nm; g]).
Proof.
  intros [[-> ->]|[-> ->]]; rx_eval rx5; rx_done.
Qed.

End Families.

(** *** The loop of [guessRepoURL] *)

Lemma guess_miss (g : repoGuess) (rest : list repoGuess) (arg : string) (ssh : bool) :
  MatchString (rx g) arg = false ->
  guessRepoURL_in (g :: rest) arg ssh = guessRepoURL_in rest arg ssh.
Proof. intros H. cbn [guessRepoURL_in]. now rewrite H. Qed.

Lemma guess_hit_ssh (g : repoGuess) (rest : list repoGuess) (arg : string) :
  MatchString (rx g) arg = true ->
  Str.is_empty (sshRepoGuessRepl g) = false ->
  guessRepoURL_in (g :: rest) arg true =
  ("", ReplaceAllString (rx g) arg (sshRepoGuessRepl g)).
Proof. intros H E. cbn [guessRepoURL_in]. now rewrite H, E. Qed.

Lemma guess_hit_http (g : repoGuess) (rest : list repoGuess) (arg : string) :
  MatchString (rx g) arg = true ->
  Str.is_empty (httpRepoGuessRepl g) = false ->
  guessRepoURL_in (g :: rest) arg false =
  (ReplaceAllString (rx g) arg (usernameGuessRepl g),
   ReplaceAllString (rx g) arg (httpRepoGuessRepl g)).
Proof. intros H E. cbn [guessRepoURL_in]. now rewrite H, E. Qed.

Lemma guess_ssh_no_username (l : list repoGuess) (arg : string) :
  fst (guessRepoURL_in l arg true) = "".
Proof.
  induction l as [|g l IH]; cbn [guessRepoURL_in]; [reflexivity|].
  destruct (MatchString (rx g) arg); cbn [negb]; [|exact IH].
  destruct (Str.is_empty (sshRepoGuessRepl g)); cbn [andb negb fst]; [exact IH|reflexivity].
Qed.

Lemma is_empty_false (s : string) : s <> "" -> Str.is_empty s = false.
Proof. destruct s; [congruence|reflexivity]. Qed.

(** [owner/name] and [owner/name.git] under rule 2. *)
Lemma guess_owner_name (owner name sfx : string) (ssh : bool) :
  owner <> "" -> name <> "" ->
  Str.all_in (in_class word) owner = true ->
  Str.all_in (in_class word) name = true ->
  sfx = "" \/ sfx = ".git" ->
  guessRepoURL (owner ++ "/" ++ name ++ sfx) ssh =
  if ssh then ("", "git@github.com:" ++ owner ++ "/" ++ name ++ ".git")
  else (owner, "https://github.com/" ++ owner ++ "/" ++ name ++ ".git").
Proof.
  intros Ho' Hn' Ho Hn Hsfx.
  apply is_empty_false in Ho', Hn'.
  unfold guessRepoURL, repoGuesses.
  rewrite guess_miss.
  2:{ apply (anchored_miss rx1 _ _ eq_refl).
      cbn [append]. now apply rx1_miss. }
  destruct (anchored_hit rx2 _ (owner ++ "/" ++ name ++ sfx)
              [None; Some owner; Some name; if Str.is_empty sfx then None else Some ".git"]
              eq_refl) as [Hm Hr].
  { apply rx2_hit; try assumption. destruct Hsfx as [-> | ->]; [left|right]; split; reflexivity. }
  destruct ssh.
  - rewrite guess_hit_ssh by first [exact Hm | reflexivity].
    cbn [rx sshRepoGuessRepl]. rewrite Hr. reflexivity.
  - rewrite guess_hit_http by first [exact Hm | reflexivity].
    cbn [rx httpRepoGuessRepl usernameGuessRepl]. rewrite !Hr.
    f_equal. apply append_nil_r.
Qed.

(** [host/owner/repo] and [host/owner/repo.git] under rule 5, for a host
    with a dot in it. *)
Lemma guess_host_owner_repo (host owner repo sfx : string) (ssh : bool) :
  Str.all_in (in_class dotted) host = true ->
  Str.any_in (Ascii.eqb ".") host = true ->
  owner <> "" -> repo <> "" ->
  Str.all_in (in_class word) owner = true ->
  Str.all_in (in_class word) repo = true ->
  sfx = "" \/ sfx = ".git" ->
  guessRepoURL (host ++ "/" ++ owner ++ "/" ++ repo ++ sfx) ssh =
  if ssh then ("", "git@" ++ host ++ ":" ++ owner ++ "/" ++ repo ++ ".git")
  else (owner, "https://" ++ host ++ "/" ++ owner ++ "/" ++ repo ++ ".git").
Proof.
  intros Hh Hdot Ho' Hr' Ho Hr Hsfx.
  apply is_empty_false in Ho', Hr'.
  pose proof (all_in_nonempty_dot host Hdot) as Hh'.
  set (arg := host ++ "/" ++ owner ++ "/" ++ repo ++ sfx).
  assert (M3 : MatchString rx3 arg = false).
  { apply (anchored_miss rx3 _ _ eq_refl). now apply rx3_miss_3seg. }
  destruct (anchored_hit rx5 _ arg
              [None; Some host; Some owner; Some repo;
               if Str.is_empty sfx then None else Some ".git"] eq_refl) as [M5 R5].
  { apply rx5_hit; try assumption.
    destruct Hsfx as [-> | ->]; [left|right]; split; reflexivity. }
  assert (M124 : MatchString rx1 arg = false /\ MatchString rx2 arg = false /\
                 MatchString rx4 arg = false).
  { destruct (first_dot host Hh Hdot) as (h1 & h2 & E & H1).
    unfold arg. rewrite E, !append_assoc. repeat split.
    - apply (anchored_miss rx1 _ _ eq_refl). cbn [append]. now apply rx1_miss.
    - apply (anchored_miss rx2 _ _ eq_refl). now apply rx2_miss_dot.
    - apply (anchored_miss rx4 _ _ eq_refl). now apply rx4_miss_dot. }
  destruct M124 as (M1 & M2 & M4).
  unfold guessRepoURL, repoGuesses.
  rewrite !guess_miss by assumption.
  destruct ssh.
  - rewrite guess_hit_ssh by first [exact M5 | reflexivity].
    cbn [rx sshRepoGuessRepl]. rewrite R5. reflexivity.
  - rewrite guess_hit_http by first [exact M5 | reflexivity].
    cbn [rx httpRepoGuessRepl usernameGuessRepl]. rewrite !R5.
    f_equal. apply append_nil_r.
Qed.

(** [host/owner] under rule 3, for a host with a dot in it. *)
Lemma guess_host_owner (host owner : string) (ssh : bool) :
  Str.all_in (in_class dotted) host = true ->
  Str.any_in (Ascii.eqb ".") host = true ->
  owner <> "" ->
  Str.all_in (in_class word) owner = true ->
  MatchString rx1 (host ++ "/" ++ owner) = false /\
  MatchString rx2 (host ++ "/" ++ owner) = false /\
  MatchString rx3 (host ++ "/" ++ owner) = true /\
  guessRepoURL (host ++ "/" ++ owner) ssh =
  if ssh then ("", "git@" ++ host ++ ":" ++ owner ++ "/dotfiles.git")
  else (owner, "https://" ++ host ++ "/" ++ owner ++ "/dotfiles.git").
Proof.
  intros Hh Hdot Ho' Ho.
  apply is_empty_false in Ho'.
  pose proof (all_in_nonempty_dot host Hdot) as Hh'.
  set (arg := host ++ "/" ++ owner).
  destruct (anchored_hit rx3 _ arg [None; Some host; Some owner] eq_refl) as [M3 R3].
  { now apply rx3_hit. }
  assert (M12 : MatchString rx1 arg = false /\ MatchString rx2 arg = false).
  { destruct (first_dot host Hh Hdot) as (h1 & h2 & E & H1).
    unfold arg. rewrite E, !append_assoc. split.
    - apply (anchored_miss rx1 _ _ eq_refl). cbn [append]. now apply rx1_miss.
    - apply (anchored_miss rx2 _ _ eq_refl). now apply rx2_miss_dot. }
  destruct M12 as (M1 & M2). repeat split; try assumption.
  unfold guessRepoURL, repoGuesses.
  rewrite !guess_miss by assumption.
  destruct ssh.
  - rewrite guess_hit_ssh by first [exact M3 | reflexivity].
    cbn [rx sshRepoGuessRepl]. rewrite R3. reflexivity.
  - rewrite guess_hit_http by first [exact M3 | reflexivity].
    cbn [rx httpRepoGuessRepl usernameGuessRepl]. rewrite !R3.
    f_equal. apply append_nil_r.
Qed.

(** *** From a match back to the shape of the input *)

Lemma plus_class_inv {R : Type} (cls : class) (s : string) (k : string -> option R) (res : R) :
  plus_class cls s k = Some res ->
  exists x s', s = x ++ s' /\ Str.all_in (in_class cls) x = true /\
               Str.is_empty x = false /\ k s' = Some res.
Proof.
  induction s as [|c s IH]; cbn [plus_class]; [discriminate|].
  destruct (in_class cls c) eqn:Hc; [|discriminate].
  destruct (plus_class cls s k) as [r|] eqn:E.
  - intros [= <-]. destruct (IH eq_refl) as (x & s' & -> & Hx & _ & Hk).
    exists (String c x), s'. cbn [Str.all_in Str.is_empty append].
    rewrite Hc, Hx. auto.
  - intros Hk. exists (String c ""), s. cbn [Str.all_in Str.is_empty append].
    rewrite Hc. auto.
Qed.

Lemma strip_prefix_inv (p s s' : string) :
  Str.strip_prefix p s = Some s' -> s = p ++ s'.
Proof.
  revert s; induction p as [|a p IH]; intros s; cbn [Str.strip_prefix append].
  - now intros [= ->].
  - destruct s as [|b s]; [discriminate|].
    destruct (Ascii.eqb_spec a b) as [->|]; [|discriminate].
    intros H. now rewrite (IH s H).
Qed.

Lemma is_empty_inv (s : string) : Str.is_empty s = true -> s = "".
Proof. destruct s; [reflexivity|discriminate]. Qed.

Lemma is_empty_true_neq (s : string) : Str.is_empty s = false -> s <> "".
Proof. destruct s; [discriminate|congruence]. Qed.

(** What rule 3 matches is [host/owner]. *)
Lemma rx3_inv (arg : string) :
  MatchString rx3 arg = true ->
  exists host owner,
    arg = host ++ "/" ++ owner /\
    Str.all_in (in_class dotted) host = true /\ host <> "" /\
    Str.all_in (in_class word) owner = true /\ owner <> "".
Proof.
  rewrite (MatchString_anchored rx3 _ arg eq_refl).
  destruct (match_here rx3 (String.length arg) arg) as [res|] eqn:E; [intros _|discriminate].
  unfold match_here, rx3, anchored in E.
  cbn [re NumSubexp fold_right repeat] in E.
  rewrite match_BeginText in E. cbn [match_re] in E.
  apply plus_class_inv in E as (host & s1 & -> & Hh & Hh' & E).
  destruct (Str.strip_prefix "/" s1) as [s2|] eqn:E1; [|discriminate].
  apply strip_prefix_inv in E1 as ->.
  apply plus_class_inv in E as (owner & s3 & -> & Ho & Ho' & E).
  destruct (Str.is_empty s3) eqn:E3; [|discriminate].
  apply is_empty_inv in E3 as ->.
  exists host, owner. rewrite append_nil_r.
  repeat split; auto using is_empty_true_neq.
Qed.

Lemma dotted_without_dot (h : string) :
  Str.all_in (in_class dotted) h = true ->
  Str.any_in (Ascii.eqb ".") h = false ->
  Str.all_in (in_class word) h = true.
Proof.
  induction h as [|c h IH]; cbn [Str.all_in Str.any_in]; [reflexivity|].
  intros Hall Hany. apply andb_prop in Hall as [Hc Hall].
  apply orb_false_iff in Hany as [Hdot Hany].
  now rewrite (dotted_word c Hc Hdot), IH.
Qed.

(** The scheme group of rule 6 takes [http://] or [https://]. *)
Lemma match_scheme {R : Type} (r : regex) (n : nat) (s rest : string) (sch : string)
    (caps : captures) (k : string -> captures -> option R) :
  sch = "http://" \/ sch = "https://" ->
  match_re (Cat (Group 1 (Cat (Lit "http") (Cat (Opt (Lit "s")) (Lit "://")))) r) n
    (sch ++ rest) caps k =
  match_re r n rest (set_cap 1 sch caps) k.
Proof.
  intros [-> | ->].
  - cbn [match_re Str.strip_prefix append Ascii.eqb Bool.eqb].
    replace (String.length _ - String.length rest) with 7 by (cbn [String.length]; lia).
    cbn [substring].
    replace (substring 0 0 rest) with "" by (destruct rest; reflexivity).
    reflexivity.
  - cbn [match_re Str.strip_prefix append Ascii.eqb Bool.eqb].
    replace (String.length _ - String.length rest) with 8 by (cbn [String.length]; lia).
    cbn [substring].
    replace (substring 0 0 rest) with "" by (destruct rest; reflexivity).
    now destruct (match_re r n rest _ k).
Qed.

Section Rule6.

Variables sch host o nm : string.
Hypothesis Hsch : sch = "http://" \/ sch = "https://".
Hypothesis Hh : Str.all_in (in_class dotted) host = true.
Hypothesis Hh' : Str.is_empty host = false.
Hypothesis Ho : Str.all_in (in_class word) o = true.
Hypothesis Ho' : Str.is_empty o = false.
Hypothesis Hn : Str.all_in (in_class word) nm = true.
Hypothesis Hn' : Str.is_empty nm = false.

Lemma rx6_hit (sfx : string) (g : option string) :
  (sfx = "" /\ g = None) \/ (sfx = ".git" /\ g = Some ".git") ->
  match_here rx6 (String.length (sch ++ host ++ "/" ++ o ++ "/" ++ nm ++ sfx))
    (sch ++ host ++ "/" ++ o ++ "/" ++ nm ++ sfx) =
  Some (String.length (sch ++ host ++ "/" ++ o ++ "/" ++ nm ++ sfx),
        [None; Some sch; Some host; Some o; Some nm; g]).
Proof.
  intros [[-> ->]|[-> ->]]; unfold match_here, rx6, anchored;
    cbn [re NumSubexp fold_right repeat];
    rewrite match_BeginText, (match_scheme _ _ sch _ sch) by exact Hsch;
    repeat rx_step; rx_done.
Qed.

(** No earlier rule matches a string that starts with a scheme. *)
Lemma scheme_split : exists x, sch = x ++ "://" /\ Str.all_in (in_class word) x = true.
Proof.
  destruct Hsch as [-> | ->]; [exists "http" | exists "https"]; split; reflexivity.
Qed.

Lemma rx12345_miss_scheme (rest : string) :
  MatchString rx1 (sch ++ rest) = false /\
  MatchString rx2 (sch ++ rest) = false /\
  MatchString rx3 (sch ++ rest) = false /\
  MatchString rx4 (sch ++ rest) = false /\
  MatchString rx5 (sch ++ rest) = false.
Proof.
  destruct scheme_split as (x & -> & Hx).
  assert (Hd : Str.all_in (in_class dotted) x = true).
  { clear Hsch. induction x as [|c x' IH]; [reflexivity|].
    cbn [Str.all_in] in *. apply andb_prop in Hx as [Hc Hx'].
    rewrite (IH Hx'), andb_true_r.
    unfold in_class, dotted, word in *. cbn [existsb fst snd] in *.
    destruct (in_range "-" "-" c); [reflexivity|]. cbn [orb] in *.
    rewrite Hc. apply orb_true_r. }
  rewrite append_assoc.
  repeat split.
  - apply (anchored_miss rx1 _ _ eq_refl). cbn [append]. now apply rx1_miss.
  - apply (anchored_miss rx2 _ _ eq_refl). rx_eval rx2. destruct (Str.is_empty x); reflexivity.
  - apply (anchored_miss rx3 _ _ eq_refl). rx_eval rx3. destruct (Str.is_empty x); reflexivity.
  - apply (anchored_miss rx4 _ _ eq_refl). rx_eval rx4. destruct (Str.is_empty x); reflexivity.
  - apply (anchored_miss rx5 _ _ eq_refl). rx_eval rx5. destruct (Str.is_empty x); reflexivity.
Qed.

End Rule6.

(** A full http(s) URL [scheme host/owner/repo[.git]] under rule 6. *)
Lemma guess_full_url (sch host owner repo sfx : string) :
  sch = "http://" \/ sch = "https://" ->
  Str.all_in (in_class dotted) host = true -> host <> "" ->
  Str.all_in (in_class word) owner = true -> owner <> "" ->
  Str.all_in (in_class word) repo = true -> repo <> "" ->
  sfx = "" \/ sfx = ".git" ->
  guessRepoURL (sch ++ host ++ "/" ++ owner ++ "/" ++ repo ++ sfx) false =
  (owner, sch ++ host ++ "/" ++ owner ++ "/" ++ repo ++ ".git").
Proof.
  intros Hsch Hh Hh' Ho Ho' Hr Hr' Hsfx.
  apply is_empty_false in Hh', Ho', Hr'.
  set (rest := host ++ "/" ++ owner ++ "/" ++ repo ++ sfx).
  destruct (rx12345_miss_scheme sch Hsch rest) as (M1 & M2 & M3 & M4 & M5).
  destruct (anchored_hit rx6 _ (sch ++ rest)
              [None; Some sch; Some host; Some owner; Some repo;
               if Str.is_empty sfx then None else Some ".git"] eq_refl) as [M6 R6].
  { apply rx6_hit; try assumption.
    destruct Hsfx as [-> | ->]; [left|right]; split; reflexivity. }
  unfold guessRepoURL, repoGuesses.
  rewrite !guess_miss by assumption.
  rewrite guess_hit_http by first [exact M6 | reflexivity].
  cbn [rx httpRepoGuessRepl usernameGuessRepl]. rewrite !R6.
  f_equal. apply append_nil_r.
Qed.

(** ** The claims about [guessRepoURL] *)

(** The syntax trees of the table are what the patterns of the source
    read as. *)
Lemma repoGuesses_as_written :
  map rx repoGuesses =
  map MustCompile
    ["\A([-0-9A-Za-z]+)\z";
     "\A([-0-9A-Za-z]+)/([-0-9A-Za-z]+)(\.git)?\z";
     "\A([-.0-9A-Za-z]+)/([-0-9A-Za-z]+)\z";
     "\A([-0-9A-Za-z]+)/([-0-9A-Za-z]+)/([-.0-9A-Za-z]+)\z";
     "\A([-.0-9A-Za-z]+)/([-0-9A-Za-z]+)/([-0-9A-Za-z]+)(\.git)?\z";
     "\A(https?://)([-.0-9A-Za-z]+)/([-0-9A-Za-z]+)/([-0-9A-Za-z]+)(\.git)?\z";
     "\Asr\.ht/~([a-z_][a-z0-9_-]+)\z";
     "\Asr\.ht/~([a-z_][a-z0-9_-]+)/([-0-9A-Za-z]+)\z"].
Proof. vm_compute. reflexivity. Qed.

(** C2: an argument that no pattern of the table matches comes back
    verbatim as the URL, with an empty username, whether ssh is preferred
    or not. *)
Theorem C2_unmatched_is_identity (raw : string) (preferSsh : bool) :
  (forall g, In g repoGuesses -> MatchString (rx g) raw = false) ->
  guessRepoURL raw preferSsh = ("", raw).
Proof.
  unfold guessRepoURL. generalize repoGuesses.
  induction l as [|g l IH]; intros H; [reflexivity|].
  rewrite guess_miss by (apply H; now left).
  apply IH. intros g' Hin. apply H. now right.
Qed.

Lemma C2_unmatched_is_identity_witness :
  (forall g, In g repoGuesses -> MatchString (rx g) "my dotfiles" = false) /\
  guessRepoURL "my dotfiles" true = ("", "my dotfiles").
Proof.
  assert (H : forall g, In g repoGuesses -> MatchString (rx g) "my dotfiles" = false).
  { intros g Hin. cbn [In repoGuesses] in Hin.
    repeat (destruct Hin as [<- | Hin]; [vm_compute; reflexivity|]).
    contradiction. }
  split; [exact H|].
  exact (C2_unmatched_is_identity "my dotfiles" true H).
Defined.

(** C3: ["alice"] resolves to the https URL of alice's dotfiles with
    username ["alice"], and under ssh to the scp-like URL with no
    username; no argument ever yields a username under ssh. *)
Theorem C3_bare_identifier :
  guessRepoURL "alice" false = ("alice", "https://github.com/alice/dotfiles.git") /\
  guessRepoURL "alice" true = ("", "git@github.com:alice/dotfiles.git") /\
  forall arg, fst (guessRepoURL arg true) = "".
Proof.
  split; [vm_compute; reflexivity|].
  split; [vm_compute; reflexivity|].
  intros arg. apply guess_ssh_no_username.
Qed.

(** C4, as the claim has it, fails: ["example.com/bob"] matches rule 3 and
    no earlier rule, rule 3 does have an ssh template, and the result is
    not the raw argument. *)
Lemma C4_rule3_ssh_counterexample :
  MatchString rx1 "example.com/bob" = false /\
  MatchString rx2 "example.com/bob" = false /\
  MatchString rx3 "example.com/bob" = true /\
  guessRepoURL "example.com/bob" true = ("", "git@example.com:bob/dotfiles.git") /\
  guessRepoURL "example.com/bob" true <> ("", "example.com/bob").
Proof.
  split; [vm_compute; reflexivity|].
  split; [vm_compute; reflexivity|].
  split; [vm_compute; reflexivity|].
  split; [vm_compute; reflexivity|].
  vm_compute. discriminate.
Qed.

(** C4, amended: under ssh, an input that matches rule 3 and no earlier
    rule is [host/owner] and resolves to rule 3's ssh rendering
    [git@host:owner/dotfiles.git], with an empty username. *)
Theorem C4_rule3_ssh_rendering (arg : string) :
  MatchString rx1 arg = false ->
  MatchString rx2 arg = false ->
  MatchString rx3 arg = true ->
  exists host owner,
    arg = host ++ "/" ++ owner /\
    guessRepoURL arg true = ("", "git@" ++ host ++ ":" ++ owner ++ "/dotfiles.git").
Proof.
  intros M1 M2 M3.
  destruct (rx3_inv arg M3) as (host & owner & -> & Hh & Hh' & Ho & Ho').
  exists host, owner. split; [reflexivity|].
  destruct (Str.any_in (Ascii.eqb ".") host) eqn:Hdot.
  - now destruct (guess_host_owner host owner true Hh Hdot Ho' Ho) as (_ & _ & _ & ->).
  - exfalso.
    pose proof (dotted_without_dot host Hh Hdot) as Hw.
    destruct (anchored_hit rx2 _ (host ++ "/" ++ owner ++ "")
                [None; Some host; Some owner; None] eq_refl) as [M2' _].
    { apply rx2_hit; auto using is_empty_false. }
    rewrite append_nil_r in M2'. congruence.
Qed.

Lemma C4_rule3_ssh_rendering_witness :
  exists host owner,
    "example.com/bob" = host ++ "/" ++ owner /\
    guessRepoURL "example.com/bob" true =
    ("", "git@" ++ host ++ ":" ++ owner ++ "/dotfiles.git").
Proof.
  apply (C4_rule3_ssh_rendering "example.com/bob"); vm_compute; reflexivity.
Defined.

(** C5: a full https URL with host, owner and repo keeps its scheme and
    gets the [.git] suffix, the owner being the username; so does every
    http or https URL of that shape, with or without the suffix. *)
Theorem C5_full_url_canonical :
  guessRepoURL "https://example.com/o/r" false = ("o", "https://example.com/o/r.git") /\
  forall sch host owner repo sfx,
    sch = "http://" \/ sch = "https://" ->
    Str.all_in (in_class dotted) host = true -> host <> "" ->
    Str.all_in (in_class word) owner = true -> owner <> "" ->
    Str.all_in (in_class word) repo = true -> repo <> "" ->
    sfx = "" \/ sfx = ".git" ->
    guessRepoURL (sch ++ host ++ "/" ++ owner ++ "/" ++ repo ++ sfx) false =
    (owner, sch ++ host ++ "/" ++ owner ++ "/" ++ repo ++ ".git").
Proof.
  split; [vm_compute; reflexivity|].
  intros. now apply guess_full_url.
Qed.

Lemma C5_full_url_canonical_witness :
  guessRepoURL ("http://" ++ "example.com" ++ "/" ++ "o" ++ "/" ++ "r" ++ ".git") false =
  ("o", "http://" ++ "example.com" ++ "/" ++ "o" ++ "/" ++ "r" ++ ".git").
Proof.
  refine (proj2 C5_full_url_canonical "http://" "example.com" "o" "r" ".git" _ _ _ _ _ _ _ _);
    first [reflexivity | discriminate | (left; reflexivity) | (right; reflexivity)].
Defined.

(** C9, as the claim has it, fails for an empty owner: the empty string
    has no byte outside [[-0-9A-Za-z]], yet ["/x"] and ["/x.git"] match
    no rule and come back as they are. *)
Lemma C9_empty_owner_counterexample :
  Str.all_in (in_class word) "" = true /\
  Str.all_in (in_class word) "x" = true /\
  guessRepoURL ("" ++ "/" ++ "x") false <> guessRepoURL ("" ++ "/" ++ "x" ++ ".git") false.
Proof.
  repeat split. vm_compute. discriminate.
Qed.

(** C9, amended: for a non-empty owner and a non-empty name over
    [[-0-9A-Za-z]], [owner/name] and [owner/name.git] resolve alike, to a
    URL that ends in exactly one [.git]; the same holds behind a host
    over [[-.0-9A-Za-z]] that has a dot in it. *)
Theorem C9_git_suffix_normalized (owner name : string) (ssh : bool) :
  owner <> "" -> name <> "" ->
  Str.all_in (in_class word) owner = true ->
  Str.all_in (in_class word) name = true ->
  (guessRepoURL (owner ++ "/" ++ name) ssh =
   guessRepoURL (owner ++ "/" ++ name ++ ".git") ssh /\
   snd (guessRepoURL (owner ++ "/" ++ name ++ ".git") ssh) =
   (if ssh then "git@github.com:" else "https://github.com/") ++
   owner ++ "/" ++ name ++ ".git") /\
  forall host,
    Str.all_in (in_class dotted) host = true ->
    Str.any_in (Ascii.eqb ".") host = true ->
    guessRepoURL (host ++ "/" ++ owner ++ "/" ++ name) ssh =
    guessRepoURL (host ++ "/" ++ owner ++ "/" ++ name ++ ".git") ssh /\
    snd (guessRepoURL (host ++ "/" ++ owner ++ "/" ++ name ++ ".git") ssh) =
    (if ssh then "git@" ++ host ++ ":" else "https://" ++ host ++ "/") ++
    owner ++ "/" ++ name ++ ".git".
Proof.
  intros Ho' Hn' Ho Hn. split; [split|].
  - rewrite <- (append_nil_r name) at 1.
    rewrite (guess_owner_name owner name "" ssh), (guess_owner_name owner name ".git" ssh);
      auto.
  - rewrite (guess_owner_name owner name ".git" ssh) by auto.
    destruct ssh; reflexivity.
  - intros host Hh Hdot. split.
    + rewrite <- (append_nil_r name) at 1.
      rewrite (guess_host_owner_repo host owner name "" ssh),
              (guess_host_owner_repo host owner name ".git" ssh); auto.
    + rewrite (guess_host_owner_repo host owner name ".git" ssh) by auto.
      destruct ssh; cbn [snd append]; rewrite ?append_assoc; reflexivity.
Qed.

Lemma C9_git_suffix_normalized_witness :
  guessRepoURL ("alice" ++ "/" ++ "conf") false =
  guessRepoURL ("alice" ++ "/" ++ "conf" ++ ".git") false /\
  snd (guessRepoURL ("alice" ++ "/" ++ "conf" ++ ".git") false) =
  "https://github.com/alice/conf.git".
Proof.
  refine (proj1 (C9_git_suffix_normalized "alice" "conf" false _ _ _ _));
    first [discriminate | reflexivity].
Defined.

(** ** The retry loop of [builtinGitClone] *)

Lemma count_snoc (p : event -> bool) (tr : list event) (e : event) :
  count p (tr ++ [e])%list = count p tr + (if p e then 1 else 0).
Proof.
  unfold count. rewrite filter_app, length_app. cbn [List.filter].
  destruct (p e); reflexivity.
Qed.

Lemma count_app (p : event -> bool) (tr tr' : list event) :
  count p (tr ++ tr')%list = count p tr + count p tr'.
Proof. unfold count. now rewrite filter_app, length_app. Qed.

Section Round.

Variables (env : Env) (tr : list event) (username url path : string) (o : CloneOptions).

Let err := plainCloneResult env (count is_clone tr).
Let o1 := written (plainCloneValidated env (count is_clone tr)) o.
Let attempt := [EvPlainClone path false o; EvLog (round_log path o1 err)].

Lemma round_other :
  errors_Is err ErrAuthenticationRequired = false ->
  cloneAttempt username url path o env tr = (Return err, (tr ++ attempt)%list).
Proof.
  intros H. unfold cloneAttempt, bind, PlainClone, Msg, call, ret. cbn [fst snd].
  fold err o1. rewrite H. cbn [negb]. unfold attempt, round_log.
  now rewrite <- app_assoc.
Qed.

Lemma round_auth :
  errors_Is err ErrAuthenticationRequired = true ->
  cloneAttempt username url path o env tr =
  match stdoutResult env (count is_stdout tr) with
  | Some e => (Return (Some e), (tr ++ attempt ++ [EvStdout (notice url err)])%list)
  | None =>
      match readStringResult env (count is_readString tr) with
      | Err e =>
          (Return (Some e),
           (tr ++ attempt ++ [EvStdout (notice url err);
                               EvReadString "Username? " (Some username)])%list)
      | Ok name =>
          match readPasswordResult env (count is_readPassword tr) with
          | Err e =>
              (Return (Some e),
               (tr ++ attempt ++ [EvStdout (notice url err);
                                   EvReadString "Username? " (Some username);
                                   EvReadPassword "Password? "])%list)
          | Ok secret =>
              (Continue
                 (with_Auth o1
                    (Some {| Username := if Str.is_empty name then username else name;
                             Password := secret |})),
               (tr ++ attempt ++ [EvStdout (notice url err);
                                   EvReadString "Username? " (Some username);
                                   EvReadPassword "Password? "])%list)
          end
      end
  end.
Proof.
  intros H. unfold cloneAttempt, bind, PlainClone, Msg, Fprintf_stdout, readString,
    readPassword, call, ret. cbn [fst snd].
  fold err o1. rewrite H. cbn [negb].
  rewrite !count_snoc. cbn [is_stdout is_readString is_readPassword]. rewrite !Nat.add_0_r.
  unfold attempt, round_log, notice.
  destruct (stdoutResult env (count is_stdout tr)).
  { now rewrite <- !app_assoc. }
  rewrite !count_snoc. cbn [is_stdout is_readString is_readPassword]. rewrite !Nat.add_0_r.
  destruct (readStringResult env (count is_readString tr)).
  2:{ now rewrite <- !app_assoc. }
  rewrite !count_snoc. cbn [is_stdout is_readString is_readPassword]. rewrite !Nat.add_0_r.
  destruct (readPasswordResult env (count is_readPassword tr)); now rewrite <- !app_assoc.
Qed.

End Round.

Lemma counts_app (tr tr' : list event) :
  counts (tr ++ tr') = map (fun p => fst p + snd p) (combine (counts tr) (counts tr')).
Proof. unfold counts. cbn [combine map fst snd]. now rewrite !count_app. Qed.

Lemma loop_retries (k : nat) :
  forall (fuel : nat) (env : Env) (username url path : string) (o : CloneOptions)
         (tr : list event),
  (forall i, i < k -> retry_round env tr i) ->
  errors_Is (plainCloneResult env (count is_clone tr + k)) ErrAuthenticationRequired = false ->
  k < fuel ->
  exists tr',
    for_loop fuel (cloneAttempt username url path) o env tr =
    (Some (plainCloneResult env (count is_clone tr + k)), tr') /\
    counts tr' =
    [count is_clone tr + k + 1; count is_log tr + k + 1; count is_stdout tr + k;
     count is_readString tr + k; count is_readPassword tr + k].
Proof.
  induction k as [|k IH]; intros fuel env username url path o tr Hretry Hexit Hfuel;
    (destruct fuel as [|fuel]; [lia|]); cbn [for_loop]; unfold bind at 1.
  - rewrite Nat.add_0_r in Hexit. rewrite round_other by assumption.
    unfold ret. rewrite Nat.add_0_r. eexists. split; [reflexivity|].
    rewrite counts_app. unfold counts at 1 2. cbn. repeat (f_equal; try lia).
  - destruct (Hretry 0 ltac:(lia)) as (Ha & Hw & (name & Hn) & (secret & Hp)).
    rewrite !Nat.add_0_r in *.
    rewrite round_auth by assumption. rewrite Hw, Hn, Hp. cbn [app].
    match goal with |- context [for_loop fuel _ ?o' env ?tr'] =>
      specialize (IH fuel env username url path o' tr') end.
    assert (Hc : counts (tr ++ [EvPlainClone path false o;
                   EvLog (round_log path (written (plainCloneValidated env (count is_clone tr)) o)
                            (plainCloneResult env (count is_clone tr)));
                   EvStdout (notice url (plainCloneResult env (count is_clone tr)));
                   EvReadString "Username? " (Some username);
                   EvReadPassword "Password? "]) =
                 [count is_clone tr + 1; count is_log tr + 1; count is_stdout tr + 1;
                  count is_readString tr + 1; count is_readPassword tr + 1]).
    { rewrite counts_app. reflexivity. }
    unfold counts in Hc at 1. injection Hc as Hc1 Hc2 Hc3 Hc4 Hc5.
    destruct IH as (tr' & IH1 & IH2).
    + intros i Hi. destruct (Hretry (S i) ltac:(lia)) as (A & B & C & D).
      unfold retry_round. rewrite Hc1, Hc3, Hc4, Hc5.
      replace (count is_clone tr + 1 + i) with (count is_clone tr + S i) by lia.
      replace (count is_stdout tr + 1 + i) with (count is_stdout tr + S i) by lia.
      replace (count is_readString tr + 1 + i) with (count is_readString tr + S i) by lia.
      replace (count is_readPassword tr + 1 + i) with (count is_readPassword tr + S i) by lia.
      auto.
    + rewrite Hc1. replace (count is_clone tr + 1 + k) with (count is_clone tr + S k) by lia.
      exact Hexit.
    + lia.
    + exists tr'. split.
      * rewrite IH1, Hc1. do 3 f_equal. lia.
      * rewrite IH2, Hc1, Hc2, Hc3, Hc4, Hc5. repeat (f_equal; try lia).
Qed.

(** ** What the log can tell about the password *)

Lemma marshal_sim (o1 o2 : CloneOptions) :
  opts_sim o1 o2 -> MarshalZerologObject o1 = MarshalZerologObject o2.
Proof.
  destruct o1 as [url1 a1 rn1 ref1 sb1 nc1 d1 rs1 t1 is1 ca1],
           o2 as [url2 a2 rn2 ref2 sb2 nc2 d2 rs2 t2 is2 ca2].
  unfold opts_sim, with_Auth. cbn.
  intros [[= -> -> -> -> -> -> -> -> -> ->] Ha].
  unfold MarshalZerologObject. cbn. do 2 f_equal.
  destruct a1 as [[u1 p1]|], a2 as [[u2 p2]|]; cbn in Ha; try contradiction;
    [|reflexivity].
  destruct Ha as [-> Hp]. unfold BasicAuth_String. cbn. now rewrite Hp.
Qed.

Lemma opts_sim_refl (o : CloneOptions) : opts_sim o o.
Proof. split; [reflexivity|]. destruct (Auth o); cbn; auto. Qed.

(** What [PlainClone] writes into the options does not depend on the
    credentials. *)
Lemma written_sim (v : bool) (o1 o2 : CloneOptions) :
  opts_sim o1 o2 -> opts_sim (written v o1) (written v o2).
Proof.
  destruct o1 as [url1 a1 rn1 ref1 sb1 nc1 d1 rs1 t1 is1 ca1],
           o2 as [url2 a2 rn2 ref2 sb2 nc2 d2 rs2 t2 is2 ca2].
  unfold opts_sim, with_Auth. cbn.
  intros [[= -> -> -> -> -> -> -> -> -> ->] Ha].
  destruct v; [|cbn; auto].
  unfold written, CloneOptions_Validate. cbn.
  destruct (Str.is_empty url2); cbn; auto.
Qed.

Lemma event_sim_refl (e : event) : event_sim e e.
Proof. destruct e; cbn; auto using opts_sim_refl. Qed.

Lemma Forall2_event_sim_refl (tr : list event) : Forall2 event_sim tr tr.
Proof. induction tr; constructor; auto using event_sim_refl. Qed.

Lemma count_sim (p : event -> bool) (tr1 tr2 : list event) :
  respects p -> Forall2 event_sim tr1 tr2 -> count p tr1 = count p tr2.
Proof.
  intros Hp H. unfold count. induction H as [|e1 e2 l1 l2 He _ IH]; [reflexivity|].
  cbn [List.filter]. rewrite (Hp e1 e2 He). destruct (p e2); cbn [List.length]; congruence.
Qed.

Lemma kinds_respect :
  respects is_clone /\ respects is_stdout /\ respects is_readString /\
  respects is_readPassword /\ respects is_log.
Proof.
  repeat split; intros [] [] H; cbn in *; try reflexivity; try contradiction;
    try discriminate.
Qed.

Lemma log_of_sim (tr1 tr2 : list event) :
  Forall2 event_sim tr1 tr2 -> log_of tr1 = log_of tr2.
Proof.
  unfold log_of. induction 1 as [|e1 e2 l1 l2 He _ IH]; [reflexivity|].
  cbn [flat_map]. rewrite IH. f_equal.
  destruct e1, e2; cbn in He; try contradiction; try discriminate; try reflexivity.
  now injection He as ->.
Qed.

Lemma round_sim (env1 env2 : Env) (username url path : string)
    (o1 o2 : CloneOptions) (tr1 tr2 : list event) :
  same_but_passwords env1 env2 ->
  Forall2 event_sim tr1 tr2 ->
  opts_sim o1 o2 ->
  ctl_sim (fst (cloneAttempt username url path o1 env1 tr1))
          (fst (cloneAttempt username url path o2 env2 tr2)) /\
  Forall2 event_sim (snd (cloneAttempt username url path o1 env1 tr1))
                    (snd (cloneAttempt username url path o2 env2 tr2)).
Proof.
  intros (Hc & Hv & Hw & Hs & Hp) Htr Ho.
  destruct kinds_respect as (K1 & K2 & K3 & K4 & _).
  pose proof (count_sim _ _ _ K1 Htr) as E1.
  pose proof (count_sim _ _ _ K2 Htr) as E2.
  pose proof (count_sim _ _ _ K3 Htr) as E3.
  pose proof (count_sim _ _ _ K4 Htr) as E4.
  set (v := plainCloneValidated env1 (count is_clone tr1)).
  pose proof (written_sim v o1 o2 Ho) as Ho'.
  assert (Hatt : forall err,
            Forall2 event_sim
              [EvPlainClone path false o1; EvLog (round_log path (written v o1) err)]
              [EvPlainClone path false o2; EvLog (round_log path (written v o2) err)]).
  { intros err. constructor; [cbn; auto|]. constructor; [|constructor].
    cbn [event_sim]. unfold round_log. now rewrite (marshal_sim _ _ Ho'). }
  destruct (errors_Is (plainCloneResult env1 (count is_clone tr1)) ErrAuthenticationRequired)
    eqn:Ha.
  - rewrite (round_auth env1) by assumption.
    rewrite (round_auth env2) by (rewrite <- E1, <- Hc; assumption).
    rewrite <- E1, <- E2, <- E3, <- E4, <- !Hc, <- Hv, <- Hw, <- Hs. fold v.
    specialize (Hp (count is_readPassword tr1)).
    destruct (stdoutResult env1 (count is_stdout tr1)).
    { cbn [fst snd ctl_sim]. split; [reflexivity|].
      apply Forall2_app; [assumption|]. apply Forall2_app; [apply Hatt|].
      repeat constructor. }
    destruct (readStringResult env1 (count is_readString tr1)).
    2:{ cbn [fst snd ctl_sim]. split; [reflexivity|].
        apply Forall2_app; [assumption|]. apply Forall2_app; [apply Hatt|].
        repeat constructor. }
    destruct (readPasswordResult env1 (count is_readPassword tr1)),
             (readPasswordResult env2 (count is_readPassword tr1));
      cbn in Hp; try contradiction; cbn [fst snd ctl_sim].
    + split.
      * destruct Ho' as [Ho1 Ho2]. split; [|cbn; auto].
        destruct (written v o1), (written v o2); cbn in *.
        now injection Ho1 as -> -> -> -> -> -> -> -> -> ->.
      * apply Forall2_app; [assumption|]. apply Forall2_app; [apply Hatt|].
        repeat constructor.
    + subst. split; [reflexivity|].
      apply Forall2_app; [assumption|]. apply Forall2_app; [apply Hatt|].
      repeat constructor.
  - rewrite (round_other env1) by assumption.
    rewrite (round_other env2) by (rewrite <- E1, <- Hc; assumption).
    rewrite <- E1, <- Hc, <- Hv. fold v. cbn [fst snd ctl_sim]. split; [reflexivity|].
    apply Forall2_app; [assumption|apply Hatt].
Qed.

Lemma loop_sim (fuel : nat) :
  forall (env1 env2 : Env) (username url path : string)
         (o1 o2 : CloneOptions) (tr1 tr2 : list event),
  same_but_passwords env1 env2 ->
  Forall2 event_sim tr1 tr2 ->
  opts_sim o1 o2 ->
  fst (for_loop fuel (cloneAttempt username url path) o1 env1 tr1) =
  fst (for_loop fuel (cloneAttempt username url path) o2 env2 tr2) /\
  Forall2 event_sim
    (snd (for_loop fuel (cloneAttempt username url path) o1 env1 tr1))
    (snd (for_loop fuel (cloneAttempt username url path) o2 env2 tr2)).
Proof.
  induction fuel as [|fuel IH]; intros env1 env2 username url path o1 o2 tr1 tr2 He Htr Ho.
  - cbn. auto.
  - cbn [for_loop]. unfold bind.
    destruct (round_sim env1 env2 username url path o1 o2 tr1 tr2 He Htr Ho) as [Hc Ht].
    destruct (cloneAttempt username url path o1 env1 tr1) as [[o1'|e1] tr1'],
             (cloneAttempt username url path o2 env2 tr2) as [[o2'|e2] tr2'];
      cbn [fst snd ctl_sim] in *; try contradiction.
    + now apply IH.
    + subst. unfold ret. cbn. auto.
Qed.

(** ** What every clone attempt carries *)

(** Every round extends the history by its own events, whose one clone
    attempt carries the options of the round; the next round starts from
    the options as the call left them, with credentials attached. *)
Lemma round_extends (env : Env) (username url path : string) (o : CloneOptions)
    (tr : list event) :
  exists new,
    snd (cloneAttempt username url path o env tr) = (tr ++ new)%list /\
    attempts_of new = [o] /\
    forall o', fst (cloneAttempt username url path o env tr) = Continue o' ->
               exists a,
                 o' = with_Auth (written (plainCloneValidated env (count is_clone tr)) o) a.
Proof.
  destruct (errors_Is (plainCloneResult env (count is_clone tr)) ErrAuthenticationRequired)
    eqn:Ha.
  - rewrite round_auth by assumption.
    destruct (stdoutResult env _); [|destruct (readStringResult env _);
      [destruct (readPasswordResult env _)|]];
      cbn [fst snd]; eexists; (split; [reflexivity|]); (split; [reflexivity|]);
      try discriminate.
    intros o' [= <-]. eexists. reflexivity.
  - rewrite round_other by assumption. cbn [fst snd].
    eexists; (split; [reflexivity|]); (split; [reflexivity|]). discriminate.
Qed.

Lemma attempts_of_app (tr tr' : list event) :
  attempts_of (tr ++ tr') = (attempts_of tr ++ attempts_of tr')%list.
Proof. unfold attempts_of. apply flat_map_app. Qed.

Lemma loop_attempts (P : CloneOptions -> Prop) (fuel : nat) :
  (forall o a, P o -> P (with_Auth o a)) ->
  (forall o v, P o -> P (written v o)) ->
  forall (env : Env) (username url path : string) (o : CloneOptions) (tr : list event),
  P o ->
  exists new,
    snd (for_loop fuel (cloneAttempt username url path) o env tr) = (tr ++ new)%list /\
    Forall P (attempts_of new).
Proof.
  intros HP HW. induction fuel as [|fuel IH]; intros env username url path o tr Ho.
  - exists []. cbn. now rewrite app_nil_r.
  - cbn [for_loop]. unfold bind.
    destruct (round_extends env username url path o tr) as (new & E & A & C).
    destruct (cloneAttempt username url path o env tr) as [[o'|e] tr'];
      cbn [fst snd] in *; subst tr'.
    + assert (Ho' : P o').
      { destruct (C o' eq_refl) as [a ->]. now apply HP, HW. }
      destruct (IH env username url path o' (tr ++ new)%list Ho') as (new' & E' & A').
      exists (new ++ new')%list. rewrite E', app_assoc. split; [reflexivity|].
      rewrite attempts_of_app, A. constructor; assumption.
    + exists new. unfold ret. cbn. split; [reflexivity|]. rewrite A. now constructor.
Qed.

(** ** The claims about the clone paths *)

(** C1, as the claim has it, fails: the clone fails for want of
    authentication, the username prompt fails, and [builtinGitClone]
    returns the prompt's error after that single attempt. *)
Lemma C1_prompt_failure_counterexample :
  let r := builtinGitClone sample_NewEndpoint 5 (sample_Config true true false false)
             "alice" "https://github.com/alice/dotfiles.git" "/wt" env_no_terminal [] in
  errors_Is (plainCloneResult env_no_terminal 0) ErrAuthenticationRequired = true /\
  fst r = Some (Some (errorString "EOF")) /\
  count is_clone (snd r) = 1 /\
  count is_readString (snd r) = 1 /\
  count is_readPassword (snd r) = 0.
Proof. vm_compute. repeat split. Qed.

(** C1, amended: a round of the loop goes round again exactly when the
    clone failed for want of authentication and the notice and both
    prompts succeeded, and then one username and one password were asked
    for and attached to the options as the clone call left them; every
    other clone outcome is returned as it is after the attempt and its log
    entry, with no prompt; when the notice or a prompt fails, that error
    is returned.  After [k] such rounds and a
    clone outcome of any other kind, [builtinGitClone] returns that
    outcome, having made [k + 1] attempts and asked [k] times for a
    username and [k] times for a password. *)
Theorem C1_retry_iff_auth_required_and_prompts_succeed
    (env : Env) (username url path : string) (o : CloneOptions) (tr : list event) :
  let err := plainCloneResult env (count is_clone tr) in
  let o1 := written (plainCloneValidated env (count is_clone tr)) o in
  let r := cloneAttempt username url path o env tr in
  ((exists o', fst r = Continue o') <->
   errors_Is err ErrAuthenticationRequired = true /\ prompts_succeed env tr) /\
  (forall o', fst r = Continue o' ->
     exists name secret,
       readStringResult env (count is_readString tr) = Ok name /\
       readPasswordResult env (count is_readPassword tr) = Ok secret /\
       o' = with_Auth o1 (Some {| Username := if Str.is_empty name then username else name;
                                  Password := secret |}) /\
       snd r = (tr ++ [EvPlainClone path false o; EvLog (round_log path o1 err);
                       EvStdout (notice url err);
                       EvReadString "Username? " (Some username);
                       EvReadPassword "Password? "])%list) /\
  (errors_Is err ErrAuthenticationRequired = false ->
     r = (Return err,
          (tr ++ [EvPlainClone path false o; EvLog (round_log path o1 err)])%list)) /\
  (errors_Is err ErrAuthenticationRequired = true -> ~ prompts_succeed env tr ->
     exists e, fst r = Return (Some e) /\
               (stdoutResult env (count is_stdout tr) = Some e \/
                readStringResult env (count is_readString tr) = Err e \/
                readPasswordResult env (count is_readPassword tr) = Err e)) /\
  (forall NewEndpoint c endpoint k fuel,
     NewEndpoint url = Ok endpoint ->
     ssh (init c) = false ->
     (Protocol endpoint =? "ssh") = false ->
     (forall i, i < k -> retry_round env tr i) ->
     errors_Is (plainCloneResult env (count is_clone tr + k)) ErrAuthenticationRequired = false ->
     k < fuel ->
     exists tr',
       builtinGitClone NewEndpoint fuel c username url path env tr =
       (Some (plainCloneResult env (count is_clone tr + k)), tr') /\
       counts tr' =
       [count is_clone tr + k + 1; count is_log tr + k + 1; count is_stdout tr + k;
        count is_readString tr + k; count is_readPassword tr + k]).
Proof.
  intros err o1 r.
  assert (Hauth : errors_Is err ErrAuthenticationRequired = true ->
                  r = _) by (intros H; exact (round_auth env tr username url path o H)).
  assert (Hother : errors_Is err ErrAuthenticationRequired = false ->
                   r = _) by (intros H; exact (round_other env tr username url path o H)).
  clearbody r. unfold prompts_succeed. fold err o1 in Hauth, Hother.
  split; [split|split; [|split; [|split]]].
  - intros [o' Ho']. destruct (errors_Is err ErrAuthenticationRequired) eqn:Ha.
    + rewrite (Hauth eq_refl) in Ho'.
      destruct (stdoutResult env _); [discriminate|].
      destruct (readStringResult env _); [|discriminate].
      destruct (readPasswordResult env _); [|discriminate].
      repeat split; eauto.
    + rewrite (Hother eq_refl) in Ho'. discriminate.
  - intros (Ha & Hw & (name & Hn) & (secret & Hp)).
    rewrite (Hauth Ha), Hw, Hn, Hp. eexists. reflexivity.
  - intros o' Ho'. destruct (errors_Is err ErrAuthenticationRequired) eqn:Ha.
    + rewrite (Hauth eq_refl) in Ho' |- *.
      destruct (stdoutResult env _); [discriminate|].
      destruct (readStringResult env _) as [name|]; [|discriminate].
      destruct (readPasswordResult env _) as [secret|]; [|discriminate].
      injection Ho' as <-. exists name, secret. repeat split.
    + rewrite (Hother eq_refl) in Ho'. discriminate.
  - exact Hother.
  - intros Ha Hno. rewrite (Hauth Ha).
    destruct (stdoutResult env _) as [e|]; [exists e; cbn; auto|].
    destruct (readStringResult env _) as [name|e]; [|exists e; cbn; auto].
    destruct (readPasswordResult env _) as [secret|e]; [|exists e; cbn; auto].
    exfalso. apply Hno. repeat split; eauto.
  - intros NewEndpoint c endpoint k fuel HE Hssh Hproto Hretry Hexit Hfuel.
    unfold builtinGitClone. rewrite HE, Hssh, Hproto. cbn [orb].
    now apply loop_retries.
Qed.

Lemma C1_retry_iff_auth_required_and_prompts_succeed_witness :
  exists tr',
    builtinGitClone sample_NewEndpoint 5 (sample_Config true true false false)
      "alice" "https://github.com/alice/dotfiles.git" "/wt"
      (env_two_failures "hunter2") [] = (Some None, tr') /\
    counts tr' = [3; 3; 2; 2; 2].
Proof.
  destruct (C1_retry_iff_auth_required_and_prompts_succeed
              (env_two_failures "hunter2") "alice"
              "https://github.com/alice/dotfiles.git" "/wt"
              (initial_cloneOptions (sample_Config true true false false)
                 "https://github.com/alice/dotfiles.git") [])
    as (_ & _ & _ & _ & H).
  refine (H sample_NewEndpoint (sample_Config true true false false) _ 2 5
            eq_refl eq_refl eq_refl _ eq_refl _).
  - intros i Hi. destruct i as [|[|i]]; [| |lia];
      (split; [reflexivity|]); (split; [reflexivity|]); split; eexists; reflexivity.
  - lia.
Defined.

(** The three states of the git directory, as [runInitCmd] sees them. *)
Lemma ensureWorkingTree_existing_tree
    (NewEndpoint : string -> result Endpoint)
    (url_Parse : string -> result url_URL) (URL_String : url_URL -> string)
    (fuel : nat) (c : Config) (args : list string) (env : Env) (tr : list event) :
  statResult env (gitDirAbsPath c) = Ok {| IsDir := true |} ->
  ensureWorkingTree NewEndpoint url_Parse URL_String fuel c args env tr = (Some None, tr).
Proof. intros H. unfold ensureWorkingTree. now rewrite H. Qed.

Lemma ensureWorkingTree_not_a_directory
    (NewEndpoint : string -> result Endpoint)
    (url_Parse : string -> result url_URL) (URL_String : url_URL -> string)
    (fuel : nat) (c : Config) (args : list string) (env : Env) (tr : list event) :
  statResult env (gitDirAbsPath c) = Ok {| IsDir := false |} ->
  ensureWorkingTree NewEndpoint url_Parse URL_String fuel c args env tr =
  (Some (Some (errorString (gitDirAbsPath c ++ ": not a directory"))), tr).
Proof. intros H. unfold ensureWorkingTree. now rewrite H. Qed.


(** The steps after the bootstrap start with the version check and add
    events of their own kinds only. *)
Lemma finishInit_events (c : Config) (env : Env) (tr : list event) :
  exists rest,
    snd (finishInit c env tr) = (tr ++ EvCheckVersion c :: rest)%list /\
    Forall (fun e => is_bootstrap e = false) rest.
Proof.
  unfold finishInit, bind, checkVersion, getSourceDirAbsPath, createAndReloadConfigFile,
    applyArgs, doPurge, runtime_GOOS, package_noArgs, method, ret.
  destruct (checkVersionResult env c) as [[e1|] c1]; cbn [fst snd].
  { eexists. split; [reflexivity|]. repeat constructor. }
  destruct (getSourceDirAbsPathResult env c1 _) as [[dir [e2|]] c2]; cbn [fst snd].
  { rewrite <- app_assoc. eexists. split; [reflexivity|]. repeat constructor. }
  destruct (createAndReloadConfigFileResult env _) as [[e3|] c3]; cbn [fst snd].
  { rewrite <- !app_assoc. eexists. split; [reflexivity|]. repeat constructor. }
  destruct (apply (init c3)).
  - destruct (applyArgsResult env c3 _ _ _ _) as [[e4|] c4]; cbn [fst snd].
    { rewrite <- !app_assoc. eexists. split; [reflexivity|]. repeat constructor. }
    destruct (purge (init c4)).
    + destruct (doPurgeResult env c4 _) as [e5 c5]; cbn [fst snd].
      rewrite <- !app_assoc. eexists. split; [reflexivity|]. repeat constructor.
    + rewrite <- !app_assoc. eexists. split; [reflexivity|]. repeat constructor.
  - cbn [fst snd]. destruct (purge (init c3)).
    + destruct (doPurgeResult env c3 _) as [e5 c5]; cbn [fst snd].
      rewrite <- !app_assoc. eexists. split; [reflexivity|]. repeat constructor.
    + rewrite <- !app_assoc. eexists. split; [reflexivity|]. repeat constructor.
Qed.

(** [runInitCmd] in terms of its two halves. *)
Lemma runInitCmd_halves
    (NewEndpoint : string -> result Endpoint)
    (url_Parse : string -> result url_URL) (URL_String : url_URL -> string)
    (fuel : nat) (c : Config) (args : list string) (env : Env) (tr : list event) :
  let c' := oneShot_overrides c in
  let b := ensureWorkingTree NewEndpoint url_Parse URL_String fuel c' args env tr in
  runInitCmd NewEndpoint url_Parse URL_String fuel c args env tr =
  match fst b with
  | Some None => (Some (fst (finishInit c' env (snd b))), snd (finishInit c' env (snd b)))
  | _ => b
  end.
Proof.
  intros c' b. subst b. unfold runInitCmd, bind. fold c'.
  destruct (ensureWorkingTree NewEndpoint url_Parse URL_String fuel c' args env tr)
    as [[[e|]|] tr']; cbn [fst snd]; try reflexivity.
  unfold ret. now destruct (finishInit c' env tr').
Qed.


(** C6: when the endpoint of the repository URL has protocol ssh,
    [builtinGitClone] returns the error that tells the user to install
    git, whatever the fuel, and the history is untouched: no clone attempt,
    no log entry, no prompt. *)
Theorem C6_ssh_url_refused_upfront
    (NewEndpoint : string -> result Endpoint) (fuel : nat) (c : Config)
    (username url path : string) (env : Env) (tr : list event) (endpoint : Endpoint) :
  NewEndpoint url = Ok endpoint ->
  Protocol endpoint = "ssh" ->
  builtinGitClone NewEndpoint fuel c username url path env tr =
  (Some (Some (errorString
     "builtin git does not support cloning repos over ssh, please install git")), tr).
Proof.
  intros HE Hp. unfold builtinGitClone. rewrite HE, Hp.
  cbn [String.eqb Ascii.eqb Bool.eqb]. now rewrite orb_true_r.
Qed.

Lemma C6_ssh_url_refused_upfront_witness :
  (exists endpoint,
     sample_NewEndpoint "git@github.com:alice/dotfiles.git" = Ok endpoint /\
     Protocol endpoint = "ssh") /\
  builtinGitClone sample_NewEndpoint 5 (sample_Config true true false false)
    "" "git@github.com:alice/dotfiles.git" "/wt" (env_two_failures "hunter2") [] =
  (Some (Some (errorString
     "builtin git does not support cloning repos over ssh, please install git")), []).
Proof.
  split.
  - eexists. split; reflexivity.
  - eapply C6_ssh_url_refused_upfront; reflexivity.
Defined.

(** C7, at the input where the code leaves the claim: URL guessing is on
    but found no username, the URL is http(s) and has no user component,
    and the external git is still handed the URL rewritten with an empty
    user. *)
Theorem C7_empty_username_is_injected
    (NewEndpoint : string -> result Endpoint)
    (url_Parse : string -> result url_URL) (URL_String : url_URL -> string)
    (fuel : nat) (c : Config) (arg path raw : string) (u : url_URL)
    (env : Env) (tr : list event) :
  useBuiltinGit c = false ->
  guessRepoURL_enabled (init c) = true ->
  guessRepoURL arg (ssh (init c)) = ("", raw) ->
  Str.HasPrefix raw "http://" || Str.HasPrefix raw "https://" = true ->
  url_Parse raw = Ok u ->
  User u = None ->
  cloneRepo NewEndpoint url_Parse URL_String fuel c arg path env tr =
  (Some (runResult env (count is_run tr)),
   (tr ++ [EvRun "" (Git_Command c)
             (clone_flags c ++ [URL_String (with_User u (Some (url_User ""))); path])])%list).
Proof.
  intros Hb Hg Hguess Hpre Hparse Huser.
  unfold cloneRepo, clone_repoURLStr.
  rewrite Hg, Hguess, Hb, Hpre. cbn [andb]. rewrite Hparse, Huser.
  reflexivity.
Qed.

Lemma C7_empty_username_is_injected_witness :
  guessRepoURL "https://github.com/user/my.dotfiles" false =
  ("", "https://github.com/user/my.dotfiles") /\
  cloneRepo sample_NewEndpoint sample_url_Parse sample_URL_String 5
    (sample_Config false true false false)
    "https://github.com/user/my.dotfiles" "/wt" (env_two_failures "hunter2") [] =
  (Some None,
   [EvRun "" "git" ["clone"; "https://@github.com/user/my.dotfiles"; "/wt"]]).
Proof.
  split; [vm_compute; reflexivity|].
  refine (C7_empty_username_is_injected sample_NewEndpoint sample_url_Parse
            sample_URL_String 5 (sample_Config false true false false)
            "https://github.com/user/my.dotfiles" "/wt"
            "https://github.com/user/my.dotfiles"
            {| Scheme := "https"; User := None; Host := "github.com";
               Path := "/user/my.dotfiles"; RawQuery := ""; Fragment := "" |}
            (env_two_failures "hunter2") [] _ _ _ _ _ _);
    vm_compute; reflexivity.
Defined.

Lemma In_field_if (cond : bool) (k k' : string) (v v' : log_value) :
  In (k, v) (field_if cond k' v') -> k' = k /\ v' = v.
Proof.
  unfold field_if. destruct cond; cbn [In]; [|contradiction].
  intros [[= -> ->]|[]]. auto.
Qed.

Lemma marshal_Auth_field (o : CloneOptions) (a : BasicAuth) (v : log_value) :
  Auth o = Some a ->
  In ("Auth", v) (MarshalZerologObject o) ->
  v = LStr ("http-basic-auth - " ++ Username a ++ ":" ++
            if Str.is_empty (Password a) then "<empty>" else "*******").
Proof.
  intros Ha Hin.
  change (v = LStr (BasicAuth_String a)).
  unfold MarshalZerologObject in Hin. rewrite Ha, !in_app_iff in Hin.
  repeat destruct Hin as [Hin|Hin];
    try (apply In_field_if in Hin as [E _]; discriminate E).
  all: try contradiction.
  - now injection Hin as <-.
  - destruct (CABundle o); cbn [In] in Hin; [|contradiction].
    destruct Hin as [Hin|[]]. discriminate Hin.
Qed.

(** C8: what [builtinGitClone] logs, and what it returns, is the same for
    two scripts that differ only in the text of the passwords typed at
    the prompts (an empty password staying empty); an [Auth] field of the
    logged options is the method name, the user name and a mask. *)
Theorem C8_log_hides_password
    (NewEndpoint : string -> result Endpoint) (fuel : nat) (c : Config)
    (username url path : string) (env1 env2 : Env) (tr : list event) :
  same_but_passwords env1 env2 ->
  let r1 := builtinGitClone NewEndpoint fuel c username url path env1 tr in
  let r2 := builtinGitClone NewEndpoint fuel c username url path env2 tr in
  fst r1 = fst r2 /\
  log_of (snd r1) = log_of (snd r2) /\
  forall o a v,
    Auth o = Some a ->
    In ("Auth", v) (MarshalZerologObject o) ->
    v = LStr ("http-basic-auth - " ++ Username a ++ ":" ++
              if Str.is_empty (Password a) then "<empty>" else "*******").
Proof.
  intros Henv r1 r2. subst r1 r2. unfold builtinGitClone.
  split; [|split]; [| |exact marshal_Auth_field];
    (destruct (NewEndpoint url) as [endpoint|e]; [|reflexivity]);
    (destruct (ssh (init c) || (Protocol endpoint =? "ssh")); [reflexivity|]).
  - apply loop_sim; auto using Forall2_event_sim_refl, opts_sim_refl.
  - apply log_of_sim. apply loop_sim; auto using Forall2_event_sim_refl, opts_sim_refl.
Qed.

Lemma C8_log_hides_password_witness :
  same_but_passwords (env_two_failures "hunter2") (env_two_failures "swordfish") /\
  log_of (snd (builtinGitClone sample_NewEndpoint 5 (sample_Config true true false false)
                 "alice" "https://github.com/alice/dotfiles.git" "/wt"
                 (env_two_failures "hunter2") [])) =
  log_of (snd (builtinGitClone sample_NewEndpoint 5 (sample_Config true true false false)
                 "alice" "https://github.com/alice/dotfiles.git" "/wt"
                 (env_two_failures "swordfish") [])).
Proof.
  assert (H : same_but_passwords (env_two_failures "hunter2") (env_two_failures "swordfish")).
  { repeat split. }
  split; [exact H|].
  exact (proj1 (proj2 (C8_log_hides_password sample_NewEndpoint 5
                         (sample_Config true true false false) "alice"
                         "https://github.com/alice/dotfiles.git" "/wt"
                         (env_two_failures "hunter2") (env_two_failures "swordfish") [] H))).
Defined.

(** What [PlainClone] writes into the options leaves the URL, the
    credentials, the depth and the submodule depth as they were. *)
Lemma written_keeps (v : bool) (o : CloneOptions) :
  URL (written v o) = URL o /\ Auth (written v o) = Auth o /\
  Depth (written v o) = Depth o /\
  RecurseSubmodules (written v o) = RecurseSubmodules o.
Proof.
  destruct v; cbn; [|auto]. unfold CloneOptions_Validate.
  destruct (Str.is_empty (URL o)); cbn; auto.
Qed.

(** A round starts with its clone attempt. *)
Lemma round_starts (env : Env) (username url path : string) (o : CloneOptions)
    (tr : list event) :
  exists rest,
    snd (cloneAttempt username url path o env tr) =
    (tr ++ EvPlainClone path false o :: rest)%list.
Proof.
  destruct (errors_Is (plainCloneResult env (count is_clone tr)) ErrAuthenticationRequired)
    eqn:Ha.
  - rewrite round_auth by assumption.
    destruct (stdoutResult env _); [|destruct (readStringResult env _);
      [destruct (readPasswordResult env _)|]];
      cbn [fst snd app]; eexists; reflexivity.
  - rewrite round_other by assumption. cbn [fst snd app]. eexists; reflexivity.
Qed.

(** With fuel for one round, the loop starts with a clone attempt that
    carries the options it was started with. *)
Lemma loop_starts (fuel : nat) (env : Env) (username url path : string)
    (o : CloneOptions) (tr : list event) :
  0 < fuel ->
  exists rest,
    snd (for_loop fuel (cloneAttempt username url path) o env tr) =
    (tr ++ EvPlainClone path false o :: rest)%list.
Proof.
  intros Hfuel. destruct fuel as [|fuel]; [lia|]. cbn [for_loop]. unfold bind.
  destruct (round_starts env username url path o tr) as (rest & E).
  destruct (cloneAttempt username url path o env tr) as [[o'|e] tr'];
    cbn [fst snd] in *; subst tr'.
  - destruct (loop_attempts (fun _ => True) fuel (fun _ _ _ => I) (fun _ _ _ => I)
                env username url path o' (tr ++ EvPlainClone path false o :: rest)%list I)
      as (new & E' & _).
    exists (rest ++ new)%list. rewrite E', <- app_assoc. reflexivity.
  - exists rest. reflexivity.
Qed.

(** C10: [builtinGitClone] does not read the recurse-submodules option:
    it behaves the same whatever its value; every clone attempt asks for
    [DefaultSubmoduleRecursionDepth]; and unless the URL is refused
    before the loop, an attempt is made: the first thing the function
    does is a clone with the options built from the configuration, whose
    submodule depth is that default whether or not the option is set.  On
    the command line of the external git, [--recurse-submodules] follows
    [clone] exactly when the option is set, the other arguments being
    unaffected. *)
Theorem C10_builtin_clone_always_recurses
    (NewEndpoint : string -> result Endpoint) (fuel : nat) (c : Config)
    (username url path : string) (env : Env) (tr : list event) (b : bool) :
  builtinGitClone NewEndpoint fuel (with_recurseSubmodules c b) username url path env tr =
  builtinGitClone NewEndpoint fuel c username url path env tr /\
  (exists new,
     snd (builtinGitClone NewEndpoint fuel c username url path env tr) = (tr ++ new)%list /\
     Forall (fun o => RecurseSubmodules o = DefaultSubmoduleRecursionDepth)
            (attempts_of new)) /\
  (forall endpoint,
     NewEndpoint url = Ok endpoint ->
     ssh (init c) = false ->
     (Protocol endpoint =? "ssh") = false ->
     0 < fuel ->
     exists o rest,
       snd (builtinGitClone NewEndpoint fuel (with_recurseSubmodules c b)
              username url path env tr) =
       (tr ++ EvPlainClone path false o :: rest)%list /\
       o = initial_cloneOptions c url /\
       RecurseSubmodules o = DefaultSubmoduleRecursionDepth) /\
  clone_flags c =
  ("clone" :: (if recurseSubmodules (init c) then ["--recurse-submodules"] else []) ++
   tl (clone_flags (with_recurseSubmodules c false)))%list.
Proof.
  split; [|split; [|split]].
  - reflexivity.
  - unfold builtinGitClone.
    destruct (NewEndpoint url) as [endpoint|e].
    2:{ exists []. now rewrite app_nil_r. }
    destruct (ssh (init c) || (Protocol endpoint =? "ssh")).
    { exists []. now rewrite app_nil_r. }
    apply loop_attempts; [| |reflexivity].
    + intros o a Ho. exact Ho.
    + intros o v Ho. now rewrite (proj2 (proj2 (proj2 (written_keeps v o)))).
  - intros endpoint HE Hssh Hproto Hfuel.
    unfold builtinGitClone. rewrite HE. cbn [with_recurseSubmodules init ssh].
    rewrite Hssh, Hproto. cbn [orb].
    destruct (loop_starts fuel env username url path
                (initial_cloneOptions (with_recurseSubmodules c b) url) tr Hfuel)
      as (rest & E).
    exists (initial_cloneOptions c url), rest. repeat split. exact E.
  - reflexivity.
Qed.

(** With the recurse-submodules option off, the builtin clone of a
    repository that needs no credentials is one attempt, and that attempt
    asks for the default submodule depth. *)
Lemma C10_builtin_clone_always_recurses_witness :
  recurseSubmodules (init (sample_Config true true false false)) = false /\
  exists rest,
    snd (builtinGitClone sample_NewEndpoint 5
           (with_recurseSubmodules (sample_Config true true false false) false)
           "alice" "https://github.com/alice/dotfiles.git" "/wt"
           (env_two_failures "hunter2") []) =
    EvPlainClone "/wt" false
      (initial_cloneOptions (sample_Config true true false false)
         "https://github.com/alice/dotfiles.git") :: rest /\
    RecurseSubmodules
      (initial_cloneOptions (sample_Config true true false false)
         "https://github.com/alice/dotfiles.git") = 10%N.
Proof.
  split; [reflexivity|].
  destruct (C10_builtin_clone_always_recurses sample_NewEndpoint 5
              (sample_Config true true false false) "alice"
              "https://github.com/alice/dotfiles.git" "/wt"
              (env_two_failures "hunter2") [] false) as (_ & _ & H & _).
  destruct (H _ eq_refl eq_refl eq_refl ltac:(lia)) as (o & rest & E & -> & Hr).
  exists rest. split; [exact E|exact Hr].
Defined.

(** * Further properties *)

(** *** More inputs and the rules they fall under *)

Lemma rx1_hit (u : string) :
  Str.all_in (in_class word) u = true -> Str.is_empty u = false ->
  match_here rx1 (String.length u) u = Some (String.length u, [None; Some u]).
Proof. intros Hu Hu'. rx_eval rx1. rx_done. Qed.

(** A bare identifier under rule 1. *)
Lemma guess_identifier (u : string) (ssh : bool) :
  u <> "" -> Str.all_in (in_class word) u = true ->
  guessRepoURL u ssh =
  if ssh then ("", "git@github.com:" ++ u ++ "/dotfiles.git")
  else (u, "https://github.com/" ++ u ++ "/dotfiles.git").
Proof.
  intros Hu' Hu. apply is_empty_false in Hu'.
  destruct (anchored_hit rx1 _ u [None; Some u] eq_refl) as [M1 R1].
  { now apply rx1_hit. }
  unfold guessRepoURL, repoGuesses. destruct ssh.
  - rewrite guess_hit_ssh by first [exact M1 | reflexivity].
    cbn [rx sshRepoGuessRepl]. rewrite R1. reflexivity.
  - rewrite guess_hit_http by first [exact M1 | reflexivity].
    cbn [rx httpRepoGuessRepl usernameGuessRepl]. rewrite !R1.
    f_equal. apply append_nil_r.
Qed.

Ltac inv_step E :=
  cbn beta in E;
  match type of E with
  | plus_class _ _ _ = Some _ =>
      let x := fresh "x" in let s := fresh "s" in
      let Hx := fresh "Hx" in let Hx' := fresh "Hx'" in
      apply plus_class_inv in E as (x & s & -> & Hx & Hx' & E)
  | match Str.strip_prefix ?lit ?s with _ => _ end = Some _ =>
      let s' := fresh "s" in let E' := fresh "E" in
      destruct (Str.strip_prefix lit s) as [s'|] eqn:E'; [|discriminate E];
      apply strip_prefix_inv in E' as ->
  | (if Str.is_empty ?s then _ else _) = Some _ =>
      let E' := fresh "E" in
      destruct (Str.is_empty s) eqn:E'; [|discriminate E];
      apply is_empty_inv in E' as ->
  end.

Ltac inv_start rx arg E :=
  rewrite (MatchString_anchored rx _ arg eq_refl);
  destruct (match_here rx (String.length arg) arg) as [?res|] eqn:E;
    [intros _|discriminate];
  unfold match_here, rx, anchored in E;
  cbn [re NumSubexp fold_right repeat] in E;
  rewrite match_BeginText in E; cbn [match_re] in E.

(** The optional [.git] at the end of rules 2, 5 and 6. *)
Lemma opt_git_inv {R : Type} (s : string) (f : string -> option R) (d : option R) (res : R) :
  match
    match Str.strip_prefix ".git" s with
    | Some s' => if Str.is_empty s' then f s' else None
    | None => None
    end
  with
  | Some r => Some r
  | None => if Str.is_empty s then d else None
  end = Some res ->
  s = "" \/ s = ".git".
Proof.
  intros E.
  destruct (Str.strip_prefix ".git" s) as [s'|] eqn:E1.
  - apply strip_prefix_inv in E1 as ->.
    destruct (Str.is_empty s') eqn:E2.
    + apply is_empty_inv in E2 as ->. now right.
    + cbn [Str.is_empty append] in E. discriminate E.
  - destruct (Str.is_empty s) eqn:E2; [|discriminate E].
    apply is_empty_inv in E2. now left.
Qed.

Lemma rx1_inv (arg : string) :
  MatchString rx1 arg = true ->
  Str.all_in (in_class word) arg = true /\ arg <> "".
Proof.
  inv_start rx1 arg E. repeat inv_step E.
  rewrite append_nil_r. auto using is_empty_true_neq.
Qed.

Lemma rx2_inv (arg : string) :
  MatchString rx2 arg = true ->
  exists owner name sfx,
    arg = owner ++ "/" ++ name ++ sfx /\
    Str.all_in (in_class word) owner = true /\ owner <> "" /\
    Str.all_in (in_class word) name = true /\ name <> "" /\
    (sfx = "" \/ sfx = ".git").
Proof.
  inv_start rx2 arg E. do 3 inv_step E.
  cbn beta in E. apply opt_git_inv in E.
  eexists _, _, _. repeat split; eauto using is_empty_true_neq.
Qed.

Lemma rx4_inv (arg : string) :
  MatchString rx4 arg = true ->
  exists host owner repo,
    arg = host ++ "/" ++ owner ++ "/" ++ repo /\
    Str.all_in (in_class word) host = true /\ host <> "" /\
    Str.all_in (in_class word) owner = true /\ owner <> "" /\
    Str.all_in (in_class dotted) repo = true /\ repo <> "".
Proof.
  inv_start rx4 arg E. repeat inv_step E.
  rewrite append_nil_r. eexists _, _, _. repeat split; eauto using is_empty_true_neq.
Qed.

Lemma rx5_inv (arg : string) :
  MatchString rx5 arg = true ->
  exists host owner repo sfx,
    arg = host ++ "/" ++ owner ++ "/" ++ repo ++ sfx /\
    Str.all_in (in_class dotted) host = true /\ host <> "" /\
    Str.all_in (in_class word) owner = true /\ owner <> "" /\
    Str.all_in (in_class word) repo = true /\ repo <> "" /\
    (sfx = "" \/ sfx = ".git").
Proof.
  inv_start rx5 arg E. do 5 inv_step E.
  cbn beta in E. apply opt_git_inv in E.
  eexists _, _, _, _. repeat split; eauto using is_empty_true_neq.
Qed.

Lemma scheme_inv {R : Type} (r : regex) (n : nat) (s : string) (caps : captures)
    (k : string -> captures -> option R) (res : R) :
  match_re (Cat (Group 1 (Cat (Lit "http") (Cat (Opt (Lit "s")) (Lit "://")))) r)
    n s caps k = Some res ->
  exists sch rest caps',
    (sch = "http://" \/ sch = "https://") /\ s = sch ++ rest /\
    match_re r n rest caps' k = Some res.
Proof.
  cbn [match_re]. intros E.
  destruct (Str.strip_prefix "http" s) as [s1|] eqn:E1; [|discriminate E].
  apply strip_prefix_inv in E1 as ->.
  destruct (Str.strip_prefix "s" s1) as [s2|] eqn:E2.
  - destruct (Str.strip_prefix "://" s2) as [s3|] eqn:E3.
    + match type of E with
      | match ?m with _ => _ end = _ => destruct m as [r0|] eqn:E4
      end.
      * injection E as <-. apply strip_prefix_inv in E2 as ->.
        apply strip_prefix_inv in E3 as ->.
        exists "https://", s3. eexists. split; [now right|]. split; [reflexivity|exact E4].
      * apply strip_prefix_inv in E2 as ->. apply strip_prefix_inv in E3 as ->.
        cbn [Str.strip_prefix Ascii.eqb Bool.eqb] in E. discriminate E.
    + destruct (Str.strip_prefix "://" s1) as [s3|] eqn:E4; [|discriminate E].
      apply strip_prefix_inv in E4 as ->.
      exists "http://", s3. eexists. split; [now left|]. split; [reflexivity|exact E].
  - destruct (Str.strip_prefix "://" s1) as [s3|] eqn:E4; [|discriminate E].
    apply strip_prefix_inv in E4 as ->.
    exists "http://", s3. eexists. split; [now left|]. split; [reflexivity|exact E].
Qed.

Lemma rx6_inv (arg : string) :
  MatchString rx6 arg = true ->
  exists sch host owner repo sfx,
    arg = sch ++ host ++ "/" ++ owner ++ "/" ++ repo ++ sfx /\
    (sch = "http://" \/ sch = "https://") /\
    Str.all_in (in_class dotted) host = true /\ host <> "" /\
    Str.all_in (in_class word) owner = true /\ owner <> "" /\
    Str.all_in (in_class word) repo = true /\ repo <> "" /\
    (sfx = "" \/ sfx = ".git").
Proof.
  rewrite (MatchString_anchored rx6 _ arg eq_refl).
  destruct (match_here rx6 (String.length arg) arg) as [res|] eqn:E;
    [intros _|discriminate].
  unfold match_here, rx6, anchored in E.
  cbn [re NumSubexp fold_right repeat] in E.
  rewrite match_BeginText in E.
  apply scheme_inv in E as (sch & rest & caps' & Hsch & -> & E).
  cbn [match_re] in E. do 5 inv_step E.
  cbn beta in E. apply opt_git_inv in E.
  exists sch. eexists _, _, _, _. repeat split; eauto using is_empty_true_neq.
Qed.

Lemma word_dotted (c : ascii) : in_class word c = true -> in_class dotted c = true.
Proof.
  unfold in_class, dotted, word. cbn [existsb fst snd].
  destruct (in_range "-" "-" c); [reflexivity|]. cbn [orb]. intros ->. apply orb_true_r.
Qed.

Lemma all_in_word_dotted (s : string) :
  Str.all_in (in_class word) s = true -> Str.all_in (in_class dotted) s = true.
Proof.
  induction s as [|c s IH]; [reflexivity|]. cbn [Str.all_in].
  intros H. apply andb_prop in H as [Hc Hs]. now rewrite (word_dotted c Hc), IH.
Qed.

Lemma all_in_app (p : ascii -> bool) (a b : string) :
  Str.all_in p (a ++ b) = Str.all_in p a && Str.all_in p b.
Proof. induction a as [|c a IH]; [reflexivity|]. cbn. now rewrite IH, andb_assoc. Qed.

Lemma is_empty_app (a b : string) :
  Str.is_empty a = false -> Str.is_empty (a ++ b) = false.
Proof. now destruct a. Qed.

(** A group [([cls]+)] cannot start on a byte outside [cls]. *)
Lemma match_Group_Plus_stop {R : Type} (g : nat) (cls : class) (r : regex) (n : nat)
    (s : string) (caps : captures) (k : string -> captures -> option R) :
  Str.stops (in_class cls) s = true ->
  match_re (Cat (Group g (Plus cls)) r) n s caps k = None.
Proof.
  intros H. cbn [match_re]. destruct s as [|c s]; [reflexivity|].
  cbn [Str.stops] in H. apply negb_true_iff in H. cbn [plus_class]. now rewrite H.
Qed.

Lemma opt_git_miss {R : Type} (g : nat) (n : nat) (s : string) (caps : captures)
    (k : string -> captures -> option R) :
  s <> "" -> s <> ".git" ->
  match_re (Cat (Opt (Group g (Lit ".git"))) EndText) n s caps k = None.
Proof.
  intros H1 H2.
  destruct (match_re (Cat (Opt (Group g (Lit ".git"))) EndText) n s caps k) as [res|] eqn:E;
    [|reflexivity].
  cbn [match_re] in E. apply opt_git_inv in E. tauto.
Qed.

Section PlainHost.

Variables host owner repo : string.
Hypothesis Hh : Str.all_in (in_class word) host = true.
Hypothesis Hh' : Str.is_empty host = false.
Hypothesis Ho : Str.all_in (in_class word) owner = true.
Hypothesis Ho' : Str.is_empty owner = false.
Hypothesis Hr : Str.all_in (in_class dotted) repo = true.
Hypothesis Hr' : Str.is_empty repo = false.

Lemma rx2_miss_3seg (rest : string) :
  match_here rx2 (String.length (host ++ "/" ++ owner ++ "/" ++ rest))
    (host ++ "/" ++ owner ++ "/" ++ rest) = None.
Proof. rx_eval rx2. reflexivity. Qed.

Lemma rx4_hit :
  match_here rx4 (String.length (host ++ "/" ++ owner ++ "/" ++ repo))
    (host ++ "/" ++ owner ++ "/" ++ repo) =
  Some (String.length (host ++ "/" ++ owner ++ "/" ++ repo),
        [None; Some host; Some owner; Some repo]).
Proof. rx_eval rx4. rx_done. Qed.

End PlainHost.

(** [host/owner/repo] under rule 4, for a host without a dot; the repo
    segment may hold dots. *)
Lemma guess_plain_host (host owner repo : string) (ssh : bool) :
  host <> "" -> owner <> "" -> repo <> "" ->
  Str.all_in (in_class word) host = true ->
  Str.all_in (in_class word) owner = true ->
  Str.all_in (in_class dotted) repo = true ->
  guessRepoURL (host ++ "/" ++ owner ++ "/" ++ repo) ssh =
  if ssh then ("", "git@" ++ host ++ ":" ++ owner ++ "/" ++ repo ++ ".git")
  else (owner, "https://" ++ host ++ "/" ++ owner ++ "/" ++ repo ++ ".git").
Proof.
  intros Hh' Ho' Hr' Hh Ho Hr.
  apply is_empty_false in Hh', Ho', Hr'.
  set (arg := host ++ "/" ++ owner ++ "/" ++ repo).
  assert (M1 : MatchString rx1 arg = false).
  { apply (anchored_miss rx1 _ _ eq_refl). unfold arg. cbn [append]. now apply rx1_miss. }
  assert (M2 : MatchString rx2 arg = false).
  { apply (anchored_miss rx2 _ _ eq_refl). now apply rx2_miss_3seg. }
  assert (M3 : MatchString rx3 arg = false).
  { apply (anchored_miss rx3 _ _ eq_refl).
    apply rx3_miss_3seg; auto using all_in_word_dotted. }
  destruct (anchored_hit rx4 _ arg [None; Some host; Some owner; Some repo] eq_refl)
    as [M4 R4].
  { now apply rx4_hit. }
  unfold guessRepoURL, repoGuesses.
  rewrite !guess_miss by assumption.
  destruct ssh.
  - rewrite guess_hit_ssh by first [exact M4 | reflexivity].
    cbn [rx sshRepoGuessRepl]. rewrite R4. reflexivity.
  - rewrite guess_hit_http by first [exact M4 | reflexivity].
    cbn [rx httpRepoGuessRepl usernameGuessRepl]. rewrite !R4.
    f_equal. apply append_nil_r.
Qed.

(** A group [([a][b]+)]: one byte of [a], then the whole run of [b]. *)
Lemma match_Group_Class_Plus {R : Type} (g : nat) (a b : class) (r : regex) (n : nat)
    (c : ascii) (x rest : string) (caps : captures) (k : string -> captures -> option R) :
  Str.all_in (in_class b) x = true ->
  Str.stops (in_class b) rest = true ->
  blocked b r false = true ->
  match_re (Cat (Group g (Cat (Class a) (Plus b))) r) n (String c (x ++ rest)) caps k =
  if in_class a c then
    if Str.is_empty x then None else match_re r n rest (set_cap g (String c x) caps) k
  else None.
Proof.
  intros Hx Hrest Hb. cbn [match_re]. destruct (in_class a c); [|reflexivity].
  rewrite (plus_class_run b x rest); [| assumption | assumption | ].
  - destruct (Str.is_empty x); [reflexivity|].
    replace (String.length (String c (x ++ rest)) - String.length rest)
      with (S (String.length x)) by (cbn [String.length]; rewrite length_append; lia).
    cbn [substring]. now rewrite substring_prefix.
  - intros c' s' Hc'.
    apply (blocked_sound b c' s' r Hc' false); [assumption|discriminate].
Qed.

Ltac rx_lit := rewrite match_Lit; cbn [Str.strip_prefix append Ascii.eqb Bool.eqb].

(** No rule before the sr.ht ones matches what starts with [sr.ht/~]. *)
Lemma srht_miss_earlier (rest : string) :
  MatchString rx1 ("sr.ht/~" ++ rest) = false /\
  MatchString rx2 ("sr.ht/~" ++ rest) = false /\
  MatchString rx3 ("sr.ht/~" ++ rest) = false /\
  MatchString rx4 ("sr.ht/~" ++ rest) = false /\
  MatchString rx5 ("sr.ht/~" ++ rest) = false /\
  MatchString rx6 ("sr.ht/~" ++ rest) = false.
Proof.
  repeat split.
  - apply (anchored_miss rx1 _ _ eq_refl).
    change ("sr.ht/~" ++ rest) with ("sr" ++ String "." ("ht/~" ++ rest)).
    now apply rx1_miss.
  - apply (anchored_miss rx2 _ _ eq_refl).
    change ("sr.ht/~" ++ rest) with ("sr" ++ "." ++ ("ht/~" ++ rest)).
    now apply rx2_miss_dot.
  - apply (anchored_miss rx3 _ _ eq_refl).
    change ("sr.ht/~" ++ rest) with ("sr.ht" ++ "/" ++ "~" ++ rest).
    rx_eval rx3. now apply match_Group_Plus_stop.
  - apply (anchored_miss rx4 _ _ eq_refl).
    change ("sr.ht/~" ++ rest) with ("sr" ++ "." ++ ("ht/~" ++ rest)).
    now apply rx4_miss_dot.
  - apply (anchored_miss rx5 _ _ eq_refl).
    change ("sr.ht/~" ++ rest) with ("sr.ht" ++ "/" ++ "~" ++ rest).
    rx_eval rx5. now apply match_Group_Plus_stop.
  - apply (anchored_miss rx6 _ _ eq_refl).
    unfold match_here, rx6, anchored. cbn [re NumSubexp fold_right repeat].
    rewrite match_BeginText. reflexivity.
Qed.

Section SrHt.

Variables (c : ascii) (x : string).
Hypothesis Hc : in_class srht_first c = true.
Hypothesis Hx : Str.all_in (in_class srht_rest) x = true.
Hypothesis Hx' : Str.is_empty x = false.

Lemma rx7_hit :
  match_here rx7 (String.length ("sr.ht/~" ++ String c x)) ("sr.ht/~" ++ String c x) =
  Some (String.length ("sr.ht/~" ++ String c x), [None; Some (String c x)]).
Proof.
  unfold match_here, rx7, anchored. cbn [re NumSubexp fold_right repeat].
  rewrite match_BeginText. rx_lit.
  rewrite <- (append_nil_r x) at 2.
  rewrite match_Group_Class_Plus by first [assumption | reflexivity].
  rewrite Hc, Hx'. rx_done.
Qed.

Lemma rx7_miss_repo (r : string) :
  match_here rx7 (String.length ("sr.ht/~" ++ String c x ++ "/" ++ r))
    ("sr.ht/~" ++ String c x ++ "/" ++ r) = None.
Proof.
  unfold match_here, rx7, anchored. cbn [re NumSubexp fold_right repeat].
  rewrite match_BeginText. rx_lit.
  rewrite match_Group_Class_Plus by first [assumption | reflexivity].
  rewrite Hc, Hx'. reflexivity.
Qed.

Lemma rx8_hit (r : string) :
  Str.all_in (in_class word) r = true -> Str.is_empty r = false ->
  match_here rx8 (String.length ("sr.ht/~" ++ String c x ++ "/" ++ r))
    ("sr.ht/~" ++ String c x ++ "/" ++ r) =
  Some (String.length ("sr.ht/~" ++ String c x ++ "/" ++ r),
        [None; Some (String c x); Some r]).
Proof.
  intros Hr Hr'.
  unfold match_here, rx8, anchored. cbn [re NumSubexp fold_right repeat].
  rewrite match_BeginText. rx_lit.
  rewrite match_Group_Class_Plus by first [assumption | reflexivity].
  rewrite Hc, Hx'. repeat rx_step. rx_done.
Qed.

End SrHt.

(** [sr.ht/~user] under rule 7 and [sr.ht/~user/repo] under rule 8. *)
Lemma guess_srht_user (c : ascii) (x : string) (ssh : bool) :
  in_class srht_first c = true ->
  Str.all_in (in_class srht_rest) x = true -> x <> "" ->
  guessRepoURL ("sr.ht/~" ++ String c x) ssh =
  if ssh then ("", "git@git.sr.ht:~" ++ String c x ++ "/dotfiles")
  else (String c x, "https://git.sr.ht/~" ++ String c x ++ "/dotfiles").
Proof.
  intros Hc Hx Hx'. apply is_empty_false in Hx'.
  destruct (srht_miss_earlier (String c x)) as (M1 & M2 & M3 & M4 & M5 & M6).
  destruct (anchored_hit rx7 _ ("sr.ht/~" ++ String c x) [None; Some (String c x)] eq_refl)
    as [M7 R7].
  { now apply rx7_hit. }
  unfold guessRepoURL, repoGuesses.
  rewrite !guess_miss by assumption.
  destruct ssh.
  - rewrite guess_hit_ssh by first [exact M7 | reflexivity].
    cbn [rx sshRepoGuessRepl]. rewrite R7. reflexivity.
  - rewrite guess_hit_http by first [exact M7 | reflexivity].
    cbn [rx httpRepoGuessRepl usernameGuessRepl]. rewrite !R7.
    f_equal. apply append_nil_r.
Qed.

Lemma guess_srht_repo (c : ascii) (x r : string) (ssh : bool) :
  in_class srht_first c = true ->
  Str.all_in (in_class srht_rest) x = true -> x <> "" ->
  Str.all_in (in_class word) r = true -> r <> "" ->
  guessRepoURL ("sr.ht/~" ++ String c x ++ "/" ++ r) ssh =
  if ssh then ("", "git@git.sr.ht:~" ++ String c x ++ "/" ++ r)
  else (String c x, "https://git.sr.ht/~" ++ String c x ++ "/" ++ r).
Proof.
  intros Hc Hx Hx' Hr Hr'. apply is_empty_false in Hx', Hr'.
  set (arg := "sr.ht/~" ++ String c x ++ "/" ++ r).
  destruct (srht_miss_earlier (String c x ++ "/" ++ r)) as (M1 & M2 & M3 & M4 & M5 & M6).
  assert (M7 : MatchString rx7 arg = false).
  { apply (anchored_miss rx7 _ _ eq_refl). now apply rx7_miss_repo. }
  destruct (anchored_hit rx8 _ arg [None; Some (String c x); Some r] eq_refl) as [M8 R8].
  { now apply rx8_hit. }
  unfold guessRepoURL, repoGuesses.
  rewrite !guess_miss by assumption.
  destruct ssh.
  - rewrite guess_hit_ssh by first [exact M8 | reflexivity].
    cbn [rx sshRepoGuessRepl]. rewrite R8. cbn. now rewrite append_nil_r.
  - rewrite guess_hit_http by first [exact M8 | reflexivity].
    cbn [rx httpRepoGuessRepl usernameGuessRepl]. rewrite !R8.
    cbn. now rewrite !append_nil_r.
Qed.

Lemma guess_unmatched (arg : string) (ssh : bool) :
  MatchString rx1 arg = false -> MatchString rx2 arg = false ->
  MatchString rx3 arg = false -> MatchString rx4 arg = false ->
  MatchString rx5 arg = false -> MatchString rx6 arg = false ->
  MatchString rx7 arg = false -> MatchString rx8 arg = false ->
  guessRepoURL arg ssh = ("", arg).
Proof.
  intros. unfold guessRepoURL, repoGuesses. now rewrite !guess_miss by assumption.
Qed.

(** A one-byte sr.ht user is too short for rules 7 and 8. *)
Lemma srht_short_miss (c : ascii) (rest : string) :
  Str.stops (in_class srht_rest) rest = true ->
  MatchString rx7 ("sr.ht/~" ++ String c rest) = false /\
  MatchString rx8 ("sr.ht/~" ++ String c rest) = false.
Proof.
  intros Hrest. split.
  - apply (anchored_miss rx7 _ _ eq_refl).
    unfold match_here, rx7, anchored. cbn [re NumSubexp fold_right repeat].
    rewrite match_BeginText. rx_lit.
    change (String c rest) with (String c ("" ++ rest)).
    rewrite match_Group_Class_Plus by first [assumption | reflexivity].
    now destruct (in_class srht_first c).
  - apply (anchored_miss rx8 _ _ eq_refl).
    unfold match_here, rx8, anchored. cbn [re NumSubexp fold_right repeat].
    rewrite match_BeginText. rx_lit.
    change (String c rest) with (String c ("" ++ rest)).
    rewrite match_Group_Class_Plus by first [assumption | reflexivity].
    now destruct (in_class srht_first c).
Qed.

(** No rule matches what starts with [git@]. *)
Lemma guess_git_at (rest : string) (ssh : bool) :
  guessRepoURL ("git@" ++ rest) ssh = ("", "git@" ++ rest).
Proof.
  apply guess_unmatched.
  - apply (anchored_miss rx1 _ _ eq_refl).
    change ("git@" ++ rest) with ("git" ++ String "@" rest). now apply rx1_miss.
  - apply (anchored_miss rx2 _ _ eq_refl).
    change ("git@" ++ rest) with ("git" ++ "@" ++ rest). rx_eval rx2. reflexivity.
  - apply (anchored_miss rx3 _ _ eq_refl).
    change ("git@" ++ rest) with ("git" ++ "@" ++ rest). rx_eval rx3. reflexivity.
  - apply (anchored_miss rx4 _ _ eq_refl).
    change ("git@" ++ rest) with ("git" ++ "@" ++ rest). rx_eval rx4. reflexivity.
  - apply (anchored_miss rx5 _ _ eq_refl).
    change ("git@" ++ rest) with ("git" ++ "@" ++ rest). rx_eval rx5. reflexivity.
  - apply (anchored_miss rx6 _ _ eq_refl).
    unfold match_here, rx6, anchored. cbn [re NumSubexp fold_right repeat].
    rewrite match_BeginText. reflexivity.
  - apply (anchored_miss rx7 _ _ eq_refl).
    unfold match_here, rx7, anchored. cbn [re NumSubexp fold_right repeat].
    rewrite match_BeginText. reflexivity.
  - apply (anchored_miss rx8 _ _ eq_refl).
    unfold match_here, rx8, anchored. cbn [re NumSubexp fold_right repeat].
    rewrite match_BeginText. reflexivity.
Qed.

(** What a matching rule puts in place of the argument starts with the
    literal head of its template. *)
Lemma replace_hit (rx0 : Regexp) (body : regex) (arg repl : string) :
  re rx0 = Cat BeginText body ->
  MatchString rx0 arg = true ->
  exists caps tail, ReplaceAllString rx0 arg repl = expand repl caps ++ tail.
Proof.
  intros Hre. rewrite (MatchString_anchored rx0 body arg Hre),
    (ReplaceAllString_anchored rx0 body arg repl Hre).
  destruct (match_here rx0 (String.length arg) arg) as [[a1 caps]|]; [|discriminate].
  intros _. eauto.
Qed.

(** Under ssh a matched argument becomes a [git@] URL. *)
Lemma repoGuesses_ssh_templates : Forall ssh_template_ok repoGuesses.
Proof.
  unfold repoGuesses.
  repeat (constructor;
          [split; [eexists; reflexivity|]; split; [reflexivity|];
           intros caps; eexists; cbn; reflexivity|]).
  constructor.
Qed.

Lemma guess_ssh_shape_in (l : list repoGuess) (arg : string) :
  Forall ssh_template_ok l ->
  guessRepoURL_in l arg true = ("", arg) \/
  exists rest, guessRepoURL_in l arg true = ("", "git@" ++ rest).
Proof.
  induction 1 as [|g l Hg _ IH]; [now left|].
  destruct Hg as ([body Hre] & Hne & Hexp).
  destruct (MatchString (rx g) arg) eqn:M.
  - right. rewrite (guess_hit_ssh g l arg M Hne).
    destruct (replace_hit (rx g) body arg (sshRepoGuessRepl g) Hre M) as (caps & tail & ->).
    destruct (Hexp caps) as [rest ->]. exists (rest ++ tail). now rewrite append_assoc.
  - now rewrite (guess_miss g l arg true M).
Qed.

Lemma srht_miss_scheme (sch rest : string) :
  sch = "http://" \/ sch = "https://" ->
  MatchString rx7 (sch ++ rest) = false /\ MatchString rx8 (sch ++ rest) = false.
Proof.
  intros [-> | ->]; split;
    first [apply (anchored_miss rx7 _ _ eq_refl) | apply (anchored_miss rx8 _ _ eq_refl)];
    unfold match_here, rx7, rx8, anchored; cbn [re NumSubexp fold_right repeat];
    rewrite match_BeginText; reflexivity.
Qed.

(** The https URLs of the sr.ht rules match no rule. *)
Lemma guess_srht_out (rest : string) :
  guessRepoURL ("https://git.sr.ht/~" ++ rest) false = ("", "https://git.sr.ht/~" ++ rest).
Proof.
  change ("https://git.sr.ht/~" ++ rest) with ("https://" ++ "git.sr.ht/~" ++ rest).
  destruct (rx12345_miss_scheme "https://" (or_intror eq_refl) ("git.sr.ht/~" ++ rest))
    as (M1 & M2 & M3 & M4 & M5).
  destruct (srht_miss_scheme "https://" ("git.sr.ht/~" ++ rest) (or_intror eq_refl))
    as (M7 & M8).
  apply guess_unmatched; try assumption.
  apply (anchored_miss rx6 _ _ eq_refl).
  unfold match_here, rx6, anchored. cbn [re NumSubexp fold_right repeat].
  rewrite match_BeginText, (match_scheme _ _ "https://" _ "https://") by (now right).
  change ("git.sr.ht/~" ++ rest) with ("git.sr.ht" ++ "/" ++ "~" ++ rest).
  repeat rx_step. now apply match_Group_Plus_stop.
Qed.

(** The https URL that rule 4 makes of a repo segment with a dot in it
    matches no rule. *)
Lemma guess_rule4_out (host owner repo : string) :
  Str.all_in (in_class word) host = true ->
  Str.all_in (in_class word) owner = true ->
  Str.all_in (in_class dotted) repo = true ->
  Str.any_in (Ascii.eqb ".") repo = true ->
  guessRepoURL ("https://" ++ host ++ "/" ++ owner ++ "/" ++ repo ++ ".git") false =
  ("", "https://" ++ host ++ "/" ++ owner ++ "/" ++ repo ++ ".git").
Proof.
  intros Hh Ho Hr Hdot.
  set (rest := host ++ "/" ++ owner ++ "/" ++ repo ++ ".git").
  destruct (rx12345_miss_scheme "https://" (or_intror eq_refl) rest)
    as (M1 & M2 & M3 & M4 & M5).
  destruct (srht_miss_scheme "https://" rest (or_intror eq_refl)) as (M7 & M8).
  apply guess_unmatched; try assumption.
  apply (anchored_miss rx6 _ _ eq_refl).
  destruct (first_dot repo Hr Hdot) as (r1 & r2 & -> & H1).
  apply all_in_word_dotted in Hh.
  unfold match_here, rx6, anchored. cbn [re NumSubexp fold_right repeat].
  rewrite match_BeginText, (match_scheme _ _ "https://" _ "https://") by (now right).
  unfold rest. rewrite !append_assoc.
  rewrite match_Group_Plus by rx_side.
  destruct (Str.is_empty host); [reflexivity|].
  rx_lit. rewrite match_Group_Plus by rx_side.
  destruct (Str.is_empty owner); [reflexivity|].
  rx_lit. rewrite match_Group_Plus by rx_side.
  destruct (Str.is_empty r1); [reflexivity|].
  apply opt_git_miss; [discriminate|].
  intros E. apply (f_equal String.length) in E.
  cbn [append String.length] in E. rewrite length_append in E. cbn in E. lia.
Qed.

Lemma srht_out (g : repoGuess) (body : regex) (arg : string) :
  re (rx g) = Cat BeginText body ->
  srht_http_template_ok g ->
  MatchString (rx g) arg = true ->
  exists rest, ReplaceAllString (rx g) arg (httpRepoGuessRepl g) = "https://git.sr.ht/~" ++ rest.
Proof.
  intros Hre Hexp M.
  destruct (replace_hit (rx g) body arg (httpRepoGuessRepl g) Hre M) as (caps & tail & ->).
  destruct (Hexp caps) as [rest ->]. exists (rest ++ tail). now rewrite append_assoc.
Qed.

Ltac feed_back F :=
  let H := fresh "H" in
  pose proof F as H; cbn [append] in H |- *; rewrite H; reflexivity.

(** The URL that [guessRepoURL] returns is one it returns unchanged. *)
Lemma guess_http_url_idempotent (arg : string) :
  snd (guessRepoURL (snd (guessRepoURL arg false)) false) = snd (guessRepoURL arg false).
Proof.
  destruct (MatchString rx1 arg) eqn:M1.
  { destruct (rx1_inv arg M1) as [Hu Hu'].
    rewrite (guess_identifier arg false Hu' Hu). cbn [snd].
    feed_back (guess_full_url "https://" "github.com" arg "dotfiles" ".git"
                 (or_intror eq_refl) eq_refl ltac:(discriminate) Hu Hu' eq_refl
                 ltac:(discriminate) (or_intror eq_refl)). }
  destruct (MatchString rx2 arg) eqn:M2.
  { destruct (rx2_inv arg M2) as (o & nm & sfx & -> & Ho & Ho' & Hn & Hn' & Hsfx).
    rewrite (guess_owner_name o nm sfx false) by assumption. cbn [snd].
    feed_back (guess_full_url "https://" "github.com" o nm ".git"
                 (or_intror eq_refl) eq_refl ltac:(discriminate) Ho Ho' Hn Hn'
                 (or_intror eq_refl)). }
  destruct (MatchString rx3 arg) eqn:M3.
  { destruct (rx3_inv arg M3) as (h & o & -> & Hh & Hh' & Ho & Ho').
    destruct (Str.any_in (Ascii.eqb ".") h) eqn:Hdot.
    - destruct (guess_host_owner h o false Hh Hdot Ho' Ho) as (_ & _ & _ & ->). cbn [snd].
      feed_back (guess_full_url "https://" h o "dotfiles" ".git"
                   (or_intror eq_refl) Hh Hh' Ho Ho' eq_refl ltac:(discriminate)
                   (or_intror eq_refl)).
    - exfalso. pose proof (dotted_without_dot h Hh Hdot) as Hw.
      destruct (anchored_hit rx2 _ (h ++ "/" ++ o ++ "") [None; Some h; Some o; None] eq_refl)
        as [M2' _].
      { apply rx2_hit; auto using is_empty_false. }
      rewrite append_nil_r in M2'. congruence. }
  destruct (MatchString rx4 arg) eqn:M4.
  { destruct (rx4_inv arg M4) as (h & o & r & -> & Hh & Hh' & Ho & Ho' & Hr & Hr').
    rewrite (guess_plain_host h o r false) by assumption. cbn [snd].
    destruct (Str.any_in (Ascii.eqb ".") r) eqn:Hdot.
    - now rewrite guess_rule4_out.
    - feed_back (guess_full_url "https://" h o r ".git"
                   (or_intror eq_refl) (all_in_word_dotted h Hh) Hh' Ho Ho'
                   (dotted_without_dot r Hr Hdot) Hr' (or_intror eq_refl)). }
  destruct (MatchString rx5 arg) eqn:M5.
  { destruct (rx5_inv arg M5) as (h & o & r & sfx & -> & Hh & Hh' & Ho & Ho' & Hr & Hr' & Hsfx).
    destruct (Str.any_in (Ascii.eqb ".") h) eqn:Hdot.
    - rewrite (guess_host_owner_repo h o r sfx false) by assumption. cbn [snd].
      feed_back (guess_full_url "https://" h o r ".git"
                   (or_intror eq_refl) Hh Hh' Ho Ho' Hr Hr' (or_intror eq_refl)).
    - exfalso. pose proof (dotted_without_dot h Hh Hdot) as Hw.
      destruct (anchored_hit rx4 _ (h ++ "/" ++ o ++ "/" ++ r ++ sfx)
                  [None; Some h; Some o; Some (r ++ sfx)] eq_refl) as [M4' _].
      { apply rx4_hit; auto using is_empty_false, is_empty_app.
        rewrite all_in_app, (all_in_word_dotted r Hr).
        destruct Hsfx as [-> | ->]; reflexivity. }
      congruence. }
  destruct (MatchString rx6 arg) eqn:M6.
  { destruct (rx6_inv arg M6)
      as (sch & h & o & r & sfx & -> & Hsch & Hh & Hh' & Ho & Ho' & Hr & Hr' & Hsfx).
    rewrite (guess_full_url sch h o r sfx) by assumption. cbn [snd].
    feed_back (guess_full_url sch h o r ".git" Hsch Hh Hh' Ho Ho' Hr Hr'
                 (or_intror eq_refl)). }
  assert (Hs : forall g rest,
             In g [nth 6 repoGuesses g; nth 7 repoGuesses g] ->
             MatchString (rx g) arg = true ->
             guessRepoURL_in (g :: rest) arg false =
             (ReplaceAllString (rx g) arg (usernameGuessRepl g),
              ReplaceAllString (rx g) arg (httpRepoGuessRepl g)) /\
             exists tl, ReplaceAllString (rx g) arg (httpRepoGuessRepl g) =
                        "https://git.sr.ht/~" ++ tl).
  { intros g rest Hin M. cbn [nth repoGuesses In] in Hin.
    destruct Hin as [<- | [<- | []]]; (split; [now apply guess_hit_http|]);
      (eapply srht_out; [reflexivity| |exact M]);
      intros caps; eexists; cbn; reflexivity. }
  unfold guessRepoURL at 2 3, repoGuesses.
  rewrite !guess_miss by assumption.
  destruct (MatchString rx7 arg) eqn:M7.
  { match goal with |- context [guessRepoURL_in (?g :: ?rest) arg false] =>
      destruct (Hs g rest (or_introl eq_refl) M7) as [-> [tl ->]] end.
    cbn [snd]. now rewrite guess_srht_out. }
  rewrite guess_miss by assumption.
  destruct (MatchString rx8 arg) eqn:M8.
  { match goal with |- context [guessRepoURL_in (?g :: ?rest) arg false] =>
      destruct (Hs g rest (or_intror (or_introl eq_refl)) M8) as [-> [tl ->]] end.
    cbn [snd]. now rewrite guess_srht_out. }
  rewrite guess_miss by assumption. cbn [guessRepoURL_in snd].
  now rewrite guess_unmatched.
Qed.

Lemma with_Auth_twice (o : CloneOptions) (a b : option BasicAuth) :
  with_Auth (with_Auth o a) b = with_Auth o b.
Proof. reflexivity. Qed.

(** [Validate] does not look at the credentials, and running it again
    changes nothing. *)
Lemma Validate_with_Auth (o : CloneOptions) (a : option BasicAuth) :
  snd (CloneOptions_Validate (with_Auth o a)) = with_Auth (snd (CloneOptions_Validate o)) a.
Proof.
  unfold CloneOptions_Validate. cbn [URL with_Auth].
  destruct (Str.is_empty (URL o)); reflexivity.
Qed.

Lemma Validate_twice (o : CloneOptions) :
  snd (CloneOptions_Validate (snd (CloneOptions_Validate o))) = snd (CloneOptions_Validate o).
Proof.
  destruct o as [url a rn ref sb nc d rs t ist ca].
  unfold CloneOptions_Validate. cbn.
  destruct (Str.is_empty url) eqn:Hu; cbn; rewrite Hu; [reflexivity|]. cbn.
  f_equal.
  - destruct (Str.is_empty rn) eqn:H; [reflexivity|now rewrite H].
  - destruct (Str.is_empty ref) eqn:H; [reflexivity|now rewrite H].
  - destruct (t =? InvalidTagMode)%Z eqn:H; [reflexivity|now rewrite H].
Qed.

Lemma same_request_refl (o : CloneOptions) : same_request o o.
Proof. now left. Qed.

Lemma same_request_trans (o o' o'' : CloneOptions) :
  same_request o o' -> same_request o' o'' -> same_request o o''.
Proof.
  unfold same_request. intros H1 [H2|H2].
  - rewrite H2. exact H1.
  - right. rewrite H2, <- !Validate_with_Auth.
    destruct H1 as [->| ->]; [reflexivity|].
    now rewrite !Validate_with_Auth, Validate_twice.
Qed.

(** The options a round hands to the next one. *)
Lemma same_request_next (v : bool) (o : CloneOptions) (a : option BasicAuth) :
  same_request o (with_Auth (written v o) a).
Proof. unfold same_request. destruct v; cbn [written]; [now right|now left]. Qed.

(** Such options ask for the same URL, depth and submodule depth. *)
Lemma same_request_keeps (o o' : CloneOptions) :
  same_request o o' ->
  URL o' = URL o /\ Depth o' = Depth o /\ RecurseSubmodules o' = RecurseSubmodules o.
Proof.
  destruct (written_keeps true o) as (K1 & _ & K3 & K4). cbn [written] in *.
  intros [H|H];
    pose proof (f_equal URL H) as H1; pose proof (f_equal Depth H) as H3;
    pose proof (f_equal RecurseSubmodules H) as H4; cbn in H1, H3, H4;
    repeat split; congruence.
Qed.

Lemma loop_events_ok_step (username : string) (o o' : CloneOptions)
    (evs rest : list event) :
  loop_events_ok username o evs ->
  attempts_of evs = [o] ->
  same_request o o' ->
  loop_events_ok username o' rest ->
  loop_events_ok username o (evs ++ rest).
Proof.
  intros (A1 & A2 & A3 & A4 & A5 & A6 & A7 & A8 & A9) Hatt Ho'
         (B1 & B2 & B3 & B4 & B5 & B6 & B7 & B8 & B9).
  unfold loop_events_ok. rewrite !count_app, attempts_of_app, Hatt.
  repeat split; try lia.
  - apply Forall_app. split; [now rewrite <- Hatt|].
    eapply Forall_impl; [|exact B7]. cbn beta. intros o'' H.
    exact (same_request_trans o o' o'' Ho' H).
  - right. reflexivity.
  - apply Forall_app. now split.
Qed.

Lemma loop_events (fuel : nat) :
  forall (env : Env) (username url path : string) (o : CloneOptions) (tr : list event),
  exists new,
    snd (for_loop fuel (cloneAttempt username url path) o env tr) = (tr ++ new)%list /\
    loop_events_ok username o new.
Proof.
  induction fuel as [|fuel IH]; intros env username url path o tr.
  - exists []. cbn. rewrite app_nil_r. split; [reflexivity|].
    repeat split; auto. 
  - cbn [for_loop]. unfold bind.
    assert (Hround :
      exists evs,
        snd (cloneAttempt username url path o env tr) = (tr ++ evs)%list /\
        loop_events_ok username o evs /\ attempts_of evs = [o] /\
        forall o', fst (cloneAttempt username url path o env tr) = Continue o' ->
                   same_request o o').
    { destruct (errors_Is (plainCloneResult env (count is_clone tr))
                  ErrAuthenticationRequired) eqn:Ha.
      - rewrite round_auth by assumption.
        destruct (stdoutResult env _); [|destruct (readStringResult env _);
          [destruct (readPasswordResult env _)|]];
          cbn [fst snd]; eexists; (split; [reflexivity|]);
          (split; [|split; [reflexivity|]]);
          try discriminate;
          try (intros o' [= <-]; apply same_request_next);
          unfold loop_events_ok; cbn;
          repeat split; auto using same_request_refl; repeat constructor;
          auto using same_request_refl.
      - rewrite round_other by assumption. cbn [fst snd].
        eexists; (split; [reflexivity|]); (split; [|split; [reflexivity|discriminate]]).
        unfold loop_events_ok; cbn.
        repeat split; auto using same_request_refl; repeat constructor;
          auto using same_request_refl. }
    destruct Hround as (evs & E & Hok & Hatt & Hcont).
    destruct (cloneAttempt username url path o env tr) as [[o'|e] tr'];
      cbn [fst snd] in *; subst tr'.
    + destruct (IH env username url path o' (tr ++ evs)%list) as (rest & E' & Hrest).
      exists (evs ++ rest)%list. rewrite E', app_assoc. split; [reflexivity|].
      exact (loop_events_ok_step username o o' evs rest Hok Hatt (Hcont o' eq_refl) Hrest).
    + exists evs. unfold ret. cbn. auto.
Qed.

Lemma loop_never_gives_up (fuel : nat) :
  forall (env : Env) (username url path : string) (o : CloneOptions) (tr : list event),
  (forall i, i < fuel -> retry_round env tr i) ->
  exists tr',
    for_loop fuel (cloneAttempt username url path) o env tr = (None, tr') /\
    counts tr' =
    [count is_clone tr + fuel; count is_log tr + fuel; count is_stdout tr + fuel;
     count is_readString tr + fuel; count is_readPassword tr + fuel].
Proof.
  induction fuel as [|fuel IH]; intros env username url path o tr Hretry.
  - exists tr. cbn [for_loop]. unfold ret, counts. rewrite !Nat.add_0_r. auto.
  - cbn [for_loop]. unfold bind.
    destruct (Hretry 0 ltac:(lia)) as (Ha & Hw & (name & Hn) & (secret & Hp)).
    rewrite !Nat.add_0_r in *.
    rewrite round_auth by assumption. rewrite Hw, Hn, Hp. cbn [app].
    match goal with |- context [for_loop fuel _ ?o' env ?tr'] =>
      specialize (IH env username url path o' tr') end.
    assert (Hc : counts (tr ++ [EvPlainClone path false o;
                   EvLog (round_log path (written (plainCloneValidated env (count is_clone tr)) o)
                            (plainCloneResult env (count is_clone tr)));
                   EvStdout (notice url (plainCloneResult env (count is_clone tr)));
                   EvReadString "Username? " (Some username);
                   EvReadPassword "Password? "]) =
                 [count is_clone tr + 1; count is_log tr + 1; count is_stdout tr + 1;
                  count is_readString tr + 1; count is_readPassword tr + 1]).
    { rewrite counts_app. reflexivity. }
    unfold counts in Hc at 1. injection Hc as Hc1 Hc2 Hc3 Hc4 Hc5.
    destruct IH as (tr' & IH1 & IH2).
    + intros i Hi. destruct (Hretry (S i) ltac:(lia)) as (A & B & C & D).
      unfold retry_round. rewrite Hc1, Hc3, Hc4, Hc5.
      replace (count is_clone tr + 1 + i) with (count is_clone tr + S i) by lia.
      replace (count is_stdout tr + 1 + i) with (count is_stdout tr + S i) by lia.
      replace (count is_readString tr + 1 + i) with (count is_readString tr + S i) by lia.
      replace (count is_readPassword tr + 1 + i) with (count is_readPassword tr + S i) by lia.
      auto.
    + exists tr'. split; [exact IH1|].
      rewrite IH2, Hc1, Hc2, Hc3, Hc4, Hc5. repeat (f_equal; try lia).
Qed.

(** ** Further properties of [guessRepoURL] *)

Lemma guess_ssh_idempotent (arg : string) :
  guessRepoURL (snd (guessRepoURL arg true)) true = guessRepoURL arg true.
Proof.
  destruct (guess_ssh_shape_in repoGuesses arg repoGuesses_ssh_templates) as [E|[rest E]];
    unfold guessRepoURL in *; rewrite E; cbn [snd].
  - exact E.
  - apply guess_git_at.
Qed.

(** X1: a non-empty argument over [[-0-9A-Za-z]] is taken for a GitHub
    user: the https URL of the user's dotfiles repo with the argument as
    username, or under ssh the scp-like URL with no username. *)
Theorem X1_identifier_is_github_user (u : string) (ssh : bool) :
  u <> "" -> Str.all_in (in_class word) u = true ->
  guessRepoURL u ssh =
  if ssh then ("", "git@github.com:" ++ u ++ "/dotfiles.git")
  else (u, "https://github.com/" ++ u ++ "/dotfiles.git").
Proof. apply guess_identifier. Qed.

Lemma X1_identifier_is_github_user_witness :
  guessRepoURL "octo-cat9" false =
  ("octo-cat9", "https://github.com/" ++ "octo-cat9" ++ "/dotfiles.git").
Proof.
  refine (X1_identifier_is_github_user "octo-cat9" false _ _);
    first [discriminate | reflexivity].
Defined.

(** X2: [host/owner] with a dot in the host resolves to the dotfiles repo
    of [owner] on that host, the owner being the username. *)
Theorem X2_host_owner_is_dotfiles_on_host (host owner : string) (ssh : bool) :
  Str.all_in (in_class dotted) host = true ->
  Str.any_in (Ascii.eqb ".") host = true ->
  owner <> "" ->
  Str.all_in (in_class word) owner = true ->
  guessRepoURL (host ++ "/" ++ owner) ssh =
  if ssh then ("", "git@" ++ host ++ ":" ++ owner ++ "/dotfiles.git")
  else (owner, "https://" ++ host ++ "/" ++ owner ++ "/dotfiles.git").
Proof. intros Hh Hdot Ho' Ho. now apply guess_host_owner. Qed.

Lemma X2_host_owner_is_dotfiles_on_host_witness :
  guessRepoURL ("example.com" ++ "/" ++ "bob") false =
  ("bob", "https://" ++ "example.com" ++ "/" ++ "bob" ++ "/dotfiles.git").
Proof.
  refine (X2_host_owner_is_dotfiles_on_host "example.com" "bob" false _ _ _ _);
    first [discriminate | reflexivity].
Defined.

(** X3: [host/owner/repo] with no dot in the host falls under rule 4: the
    repo segment may hold dots and is kept whole, [.git] being appended. *)
Theorem X3_plain_host_keeps_repo_segment (host owner repo : string) (ssh : bool) :
  host <> "" -> owner <> "" -> repo <> "" ->
  Str.all_in (in_class word) host = true ->
  Str.all_in (in_class word) owner = true ->
  Str.all_in (in_class dotted) repo = true ->
  guessRepoURL (host ++ "/" ++ owner ++ "/" ++ repo) ssh =
  if ssh then ("", "git@" ++ host ++ ":" ++ owner ++ "/" ++ repo ++ ".git")
  else (owner, "https://" ++ host ++ "/" ++ owner ++ "/" ++ repo ++ ".git").
Proof. apply guess_plain_host. Qed.

Lemma X3_plain_host_keeps_repo_segment_witness :
  guessRepoURL ("gitbox" ++ "/" ++ "bob" ++ "/" ++ "my.conf") false =
  ("bob", "https://" ++ "gitbox" ++ "/" ++ "bob" ++ "/" ++ "my.conf" ++ ".git").
Proof.
  refine (X3_plain_host_keeps_repo_segment "gitbox" "bob" "my.conf" false _ _ _ _ _ _);
    first [discriminate | reflexivity].
Defined.

(** X4: [host/owner/repo.git] with no dot in the host matches rule 4 and
    rule 5; rule 4 comes first and appends a second [.git], where rule 5
    would have rendered a single one. *)
Theorem X4_rule4_precedes_rule5 (host owner repo : string) :
  host <> "" -> owner <> "" -> repo <> "" ->
  Str.all_in (in_class word) host = true ->
  Str.all_in (in_class word) owner = true ->
  Str.all_in (in_class word) repo = true ->
  let arg := host ++ "/" ++ owner ++ "/" ++ repo ++ ".git" in
  MatchString rx4 arg = true /\
  MatchString rx5 arg = true /\
  guessRepoURL arg false =
  (owner, "https://" ++ host ++ "/" ++ owner ++ "/" ++ repo ++ ".git" ++ ".git") /\
  ReplaceAllString rx5 arg "https://$1/$2/$3.git" =
  "https://" ++ host ++ "/" ++ owner ++ "/" ++ repo ++ ".git".
Proof.
  intros Hh' Ho' Hr' Hh Ho Hr arg.
  assert (Hrd : Str.all_in (in_class dotted) (repo ++ ".git") = true).
  { now rewrite all_in_app, (all_in_word_dotted repo Hr). }
  assert (Hrd' : repo ++ ".git" <> "") by (destruct repo; discriminate).
  pose proof (is_empty_false _ Hh') as Eh.
  pose proof (is_empty_false _ Ho') as Eo.
  pose proof (is_empty_false _ Hr') as Er.
  destruct (anchored_hit rx4 _ arg [None; Some host; Some owner; Some (repo ++ ".git")]
              eq_refl) as [M4 _].
  { apply rx4_hit; auto using is_empty_false. }
  destruct (anchored_hit rx5 _ arg [None; Some host; Some owner; Some repo; Some ".git"]
              eq_refl) as [M5 R5].
  { apply rx5_hit; auto using all_in_word_dotted. }
  split; [exact M4|]. split; [exact M5|]. split.
  - unfold arg. rewrite (guess_plain_host host owner (repo ++ ".git") false) by assumption.
    now rewrite append_assoc.
  - rewrite R5. reflexivity.
Qed.

Lemma X4_rule4_precedes_rule5_witness :
  guessRepoURL ("gitbox" ++ "/" ++ "bob" ++ "/" ++ "conf" ++ ".git") false =
  ("bob", "https://" ++ "gitbox" ++ "/" ++ "bob" ++ "/" ++ "conf" ++ ".git" ++ ".git").
Proof.
  refine (proj1 (proj2 (proj2
            (X4_rule4_precedes_rule5 "gitbox" "bob" "conf" _ _ _ _ _ _))));
    first [discriminate | reflexivity].
Defined.

(** X5: [sr.ht/~user], for a user name of a byte of [[a-z_]] followed by
    at least one byte of [[a-z0-9_-]], resolves to that user's dotfiles
    repo on git.sr.ht, whose URL has no [.git] suffix. *)
Theorem X5_srht_user (c : ascii) (x : string) (ssh : bool) :
  in_class srht_first c = true ->
  Str.all_in (in_class srht_rest) x = true -> x <> "" ->
  guessRepoURL ("sr.ht/~" ++ String c x) ssh =
  if ssh then ("", "git@git.sr.ht:~" ++ String c x ++ "/dotfiles")
  else (String c x, "https://git.sr.ht/~" ++ String c x ++ "/dotfiles").
Proof. apply guess_srht_user. Qed.

Lemma X5_srht_user_witness :
  guessRepoURL ("sr.ht/~" ++ "sircmpwn") false =
  ("sircmpwn", "https://git.sr.ht/~" ++ "sircmpwn" ++ "/dotfiles").
Proof.
  refine (X5_srht_user "s" "ircmpwn" false _ _ _); first [discriminate | reflexivity].
Defined.

(** X6: [sr.ht/~user/repo] resolves to that repo on git.sr.ht, with the
    user as username. *)
Theorem X6_srht_user_repo (c : ascii) (x r : string) (ssh : bool) :
  in_class srht_first c = true ->
  Str.all_in (in_class srht_rest) x = true -> x <> "" ->
  Str.all_in (in_class word) r = true -> r <> "" ->
  guessRepoURL ("sr.ht/~" ++ String c x ++ "/" ++ r) ssh =
  if ssh then ("", "git@git.sr.ht:~" ++ String c x ++ "/" ++ r)
  else (String c x, "https://git.sr.ht/~" ++ String c x ++ "/" ++ r).
Proof. apply guess_srht_repo. Qed.

Lemma X6_srht_user_repo_witness :
  guessRepoURL ("sr.ht/~" ++ "sircmpwn" ++ "/" ++ "conf") true =
  ("", "git@git.sr.ht:~" ++ "sircmpwn" ++ "/" ++ "conf").
Proof.
  refine (X6_srht_user_repo "s" "ircmpwn" "conf" true _ _ _ _ _);
    first [discriminate | reflexivity].
Defined.

(** X7: an sr.ht user name of a single byte is not recognized, with or
    without a repo segment: the argument comes back as it is, with no
    username. *)
Theorem X7_srht_one_byte_user_unmatched (c : ascii) (r : string) (ssh : bool) :
  guessRepoURL ("sr.ht/~" ++ String c "") ssh = ("", "sr.ht/~" ++ String c "") /\
  guessRepoURL ("sr.ht/~" ++ String c ("/" ++ r)) ssh =
  ("", "sr.ht/~" ++ String c ("/" ++ r)).
Proof.
  split.
  - destruct (srht_miss_earlier (String c "")) as (M1 & M2 & M3 & M4 & M5 & M6).
    destruct (srht_short_miss c "" eq_refl) as (M7 & M8).
    now apply guess_unmatched.
  - destruct (srht_miss_earlier (String c ("/" ++ r))) as (M1 & M2 & M3 & M4 & M5 & M6).
    destruct (srht_short_miss c ("/" ++ r) eq_refl) as (M7 & M8).
    now apply guess_unmatched.
Qed.

(** X8: the URL that [guessRepoURL] returns is a fixed point: given back
    as the argument, it is returned unchanged, for every argument and both
    variants. *)
Theorem X8_guessed_url_is_fixed_point (arg : string) (ssh : bool) :
  snd (guessRepoURL (snd (guessRepoURL arg ssh)) ssh) = snd (guessRepoURL arg ssh).
Proof.
  destruct ssh.
  - now rewrite guess_ssh_idempotent.
  - apply guess_http_url_idempotent.
Qed.

(** X9: under ssh the result is the argument itself or a URL that starts
    with [git@]; whatever [init] is given, a rule that matches never
    yields anything else. *)
Theorem X9_ssh_result_is_raw_or_git_at (arg : string) :
  guessRepoURL arg true = ("", arg) \/
  exists rest, guessRepoURL arg true = ("", "git@" ++ rest).
Proof. apply guess_ssh_shape_in, repoGuesses_ssh_templates. Qed.

(** ** Further properties of the bootstrap *)


Lemma builtin_events (NewEndpoint : string -> result Endpoint) (fuel : nat) (c : Config)
    (username url path : string) (env : Env) (tr : list event) :
  exists new,
    snd (builtinGitClone NewEndpoint fuel c username url path env tr) = (tr ++ new)%list /\
    loop_events_ok username (initial_cloneOptions c url) new.
Proof.
  unfold builtinGitClone.
  assert (Hnil : loop_events_ok username (initial_cloneOptions c url) []).
  { repeat split; auto. }
  destruct (NewEndpoint url) as [endpoint|e].
  2:{ exists []. now rewrite app_nil_r. }
  destruct (ssh (init c) || (Protocol endpoint =? "ssh")).
  { exists []. now rewrite app_nil_r. }
  apply loop_events.
Qed.

(** X10: [runInitCmd] bootstraps a missing working tree only.  When the
    git directory is there, the command goes straight to the steps that
    follow the bootstrap, on the configuration as the one-shot overrides
    left it: the version check comes first, the result is theirs, and the
    command itself neither initializes nor clones, runs no git, asks and
    logs nothing.  When the path is not a directory, when [Stat] fails
    otherwise than with "does not exist", or when the raw path of the
    working tree cannot be had, that error is returned and nothing has
    happened: none of the later steps runs. *)
Theorem X10_init_only_bootstraps_a_missing_tree
    (NewEndpoint : string -> result Endpoint)
    (url_Parse : string -> result url_URL) (URL_String : url_URL -> string)
    (fuel : nat) (c : Config) (args : list string) (env : Env) (tr : list event) :
  let c' := oneShot_overrides c in
  let r := runInitCmd NewEndpoint url_Parse URL_String fuel c args env tr in
  (forall fileInfo,
     statResult env (gitDirAbsPath c') = Ok fileInfo ->
     IsDir fileInfo = true ->
     r = (Some (fst (finishInit c' env tr)), snd (finishInit c' env tr)) /\
     exists rest,
       snd r = (tr ++ EvCheckVersion c' :: rest)%list /\
       Forall (fun e => is_bootstrap e = false) rest) /\
  (forall fileInfo,
     statResult env (gitDirAbsPath c') = Ok fileInfo ->
     IsDir fileInfo = false ->
     r = (Some (Some (errorString (gitDirAbsPath c' ++ ": not a directory"))), tr)) /\
  (forall err,
     statResult env (gitDirAbsPath c') = Err err ->
     errors_Is (Some err) ErrNotExist = false ->
     r = (Some (Some err), tr)) /\
  (forall err err',
     statResult env (gitDirAbsPath c') = Err err ->
     errors_Is (Some err) ErrNotExist = true ->
     rawPathResult env (WorkingTreeAbsPath c') = Err err' ->
     r = (Some (Some err'), tr)).
Proof.
  intros c' r. subst r. rewrite runInitCmd_halves. fold c'.
  unfold ensureWorkingTree. split; [|split; [|split]].
  - intros fi -> ->. cbn [ret fst snd]. split; [reflexivity|].
    apply finishInit_events.
  - intros fi -> ->. reflexivity.
  - intros err -> H. now rewrite H.
  - intros err err' -> H ->. now rewrite H.
Qed.

Lemma X10_init_only_bootstraps_a_missing_tree_witness :
  runInitCmd sample_NewEndpoint sample_url_Parse sample_URL_String 5
    (sample_Config true true false false) ["alice"] env_existing_tree [] =
  (Some None,
   [EvCheckVersion (sample_Config true true false false);
    EvGetSourceDirAbsPath (sample_Config true true false false) {| refresh := true |};
    EvCreateAndReloadConfigFile (sample_Config true true false false)]).
Proof.
  destruct (X10_init_only_bootstraps_a_missing_tree sample_NewEndpoint sample_url_Parse
              sample_URL_String 5 (sample_Config true true false false) ["alice"]
              env_existing_tree []) as (H & _).
  destruct (H {| IsDir := true |} eq_refl eq_refl) as (E & _).
  rewrite E. vm_compute. reflexivity.
Defined.

(** X11: with no repo argument and a missing git directory, [runInitCmd]
    initializes the working tree: with the builtin git one [PlainInit]
    and one log entry, whose level and error field follow the outcome;
    with the external git one [git init --quiet] in the working tree.
    When that fails the error is returned and none of the later steps
    runs; when it succeeds the command goes on to the steps that follow
    the bootstrap and returns what they return. *)
Theorem X11_init_without_repo
    (NewEndpoint : string -> result Endpoint)
    (url_Parse : string -> result url_URL) (URL_String : url_URL -> string)
    (fuel : nat) (c : Config) (env : Env) (tr : list event) (err : error) (path : string) :
  let c' := oneShot_overrides c in
  statResult env (gitDirAbsPath c') = Err err ->
  errors_Is (Some err) ErrNotExist = true ->
  rawPathResult env (WorkingTreeAbsPath c') = Ok path ->
  let outcome :=
    if useBuiltinGit c then plainInitResult env (count is_init tr)
    else runResult env (count is_run tr) in
  let done :=
    (tr ++
     if useBuiltinGit c then
       [EvPlainInit path false;
        EvLog {| level := match outcome with Some _ => ErrorLevel | None => InfoLevel end;
                 fields :=
                   (match outcome with Some e => [("error", LError e)] | None => [] end ++
                    [("path", LStr path); ("isBare", LBool false)])%list;
                 message := "PlainInit" |}]
     else [EvRun (WorkingTreeAbsPath c) (Git_Command c) ["init"; "--quiet"]])%list in
  runInitCmd NewEndpoint url_Parse URL_String fuel c [] env tr =
  match outcome with
  | Some e => (Some (Some e), done)
  | None => (Some (fst (finishInit c' env done)), snd (finishInit c' env done))
  end.
Proof.
  intros c' H1 H2 H3 outcome done. subst outcome done.
  rewrite runInitCmd_halves. fold c'. unfold ensureWorkingTree.
  rewrite H1, H2, H3.
  assert (E : useBuiltinGit c' = useBuiltinGit c /\
              WorkingTreeAbsPath c' = WorkingTreeAbsPath c /\
              Git_Command c' = Git_Command c).
  { unfold c', oneShot_overrides. now destruct (oneShot (init c)). }
  destruct E as (-> & -> & ->).
  destruct (useBuiltinGit c).
  - unfold builtinGitInit, bind, PlainInit, Msg, call, ret, logger_Err.
    destruct (plainInitResult env (count is_init tr)); cbn [fst snd app];
      rewrite <- app_assoc; reflexivity.
  - unfold bind, run, call, ret.
    destruct (runResult env (count is_run tr)); reflexivity.
Qed.

Lemma X11_init_without_repo_witness :
  runInitCmd sample_NewEndpoint sample_url_Parse sample_URL_String 5
    (sample_Config false true false false) [] env_always_auth [] =
  (Some None,
   [EvRun "/home/user/.local/share/chezmoi" "git" ["init"; "--quiet"];
    EvCheckVersion (sample_Config false true false false);
    EvGetSourceDirAbsPath (sample_Config false true false false) {| refresh := true |};
    EvCreateAndReloadConfigFile (sample_Config false true false false)]).
Proof.
  rewrite (X11_init_without_repo sample_NewEndpoint sample_url_Parse sample_URL_String 5
             (sample_Config false true false false) env_always_auth [] ErrNotExist
             "/home/user/.local/share/chezmoi" eq_refl eq_refl eq_refl).
  vm_compute. reflexivity.
Defined.






(** X15: with the builtin git, the first clone attempt carries the URL,
    depth, branch and submodule depth of the configuration and no
    credentials.  A later attempt carries, its credentials apart, either
    the same options or the same options with the defaults filled in
    that the clone library wrote into them during an earlier attempt
    (remote name, reference name, tag mode); in both cases the URL, the
    depth and the submodule depth are those of the first attempt.  The
    username prompt offers the guessed username (none with guessing off)
    and the prompts read ["Username? "] and ["Password? "]. *)
Theorem X15_attempts_differ_in_credentials_and_defaults
    (NewEndpoint : string -> result Endpoint)
    (url_Parse : string -> result url_URL) (URL_String : url_URL -> string)
    (fuel : nat) (c : Config) (arg path : string) (env : Env) (tr : list event) :
  useBuiltinGit c = true ->
  let g := if guessRepoURL_enabled (init c) then guessRepoURL arg (ssh (init c))
           else ("", arg) in
  let first := initial_cloneOptions c (snd g) in
  exists new,
    snd (cloneRepo NewEndpoint url_Parse URL_String fuel c arg path env tr) =
    (tr ++ new)%list /\
    Forall (fun o => (with_Auth o None = first \/
                      with_Auth o None = snd (CloneOptions_Validate first)) /\
                     URL o = snd g /\ Depth o = depth (init c) /\
                     RecurseSubmodules o = DefaultSubmoduleRecursionDepth)
           (attempts_of new) /\
    (new = [] \/ hd_error (attempts_of new) = Some first) /\
    Forall (prompt_ok (fst g)) new.
Proof.
  intros Hb g first. subst first g. unfold cloneRepo. rewrite Hb.
  destruct (if guessRepoURL_enabled (init c) then guessRepoURL arg (ssh (init c))
            else ("", arg)) as [username url]. cbn [fst snd].
  destruct (builtin_events NewEndpoint fuel c username url path env tr)
    as (new & E & (_ & _ & _ & _ & _ & _ & A7 & A8 & A9)).
  exists new. split; [exact E|]. split; [|split; assumption].
  eapply Forall_impl; [|exact A7]. cbn beta. intros o Ho.
  split; [|exact (same_request_keeps _ _ Ho)].
  destruct Ho as [Ho|Ho]; [left; exact Ho|right].
  rewrite Ho, <- Validate_with_Auth. reflexivity.
Qed.

Lemma X15_attempts_differ_in_credentials_and_defaults_witness :
  exists new,
    snd (cloneRepo sample_NewEndpoint sample_url_Parse sample_URL_String 3
           (sample_Config true true false false) "alice" "/wt" env_always_auth []) =
    ([] ++ new)%list /\
    map RemoteName (attempts_of new) = [""; "origin"; "origin"] /\
    Forall (fun o => URL o = "https://github.com/alice/dotfiles.git" /\
                     RecurseSubmodules o = 10%N) (attempts_of new) /\
    Forall (prompt_ok "alice") new.
Proof.
  destruct (X15_attempts_differ_in_credentials_and_defaults sample_NewEndpoint
              sample_url_Parse sample_URL_String 3 (sample_Config true true false false)
              "alice" "/wt" env_always_auth [] eq_refl) as (new & E & Hreq & _ & H).
  exists new. split; [exact E|]. split; [|split; [|exact H]].
  - cbn [app] in E. rewrite <- E. vm_compute. reflexivity.
  - eapply Forall_impl; [|exact Hreq]. cbn beta. intros o (_ & Hu & _ & Hr).
    split; [exact Hu|exact Hr].
Defined.

(** X16: the retry loop has no cap: as long as each attempt fails for want
    of authentication and the notice and the prompts succeed,
    [builtinGitClone] has not returned after any number of rounds, each
    of which made one attempt and asked once for a username and once for
    a password. *)
Theorem X16_retry_loop_has_no_cap
    (NewEndpoint : string -> result Endpoint) (fuel : nat) (c : Config)
    (username url path : string) (env : Env) (tr : list event) (endpoint : Endpoint) :
  NewEndpoint url = Ok endpoint ->
  ssh (init c) = false ->
  (Protocol endpoint =? "ssh") = false ->
  (forall i, i < fuel -> retry_round env tr i) ->
  exists tr',
    builtinGitClone NewEndpoint fuel c username url path env tr = (None, tr') /\
    counts tr' =
    [count is_clone tr + fuel; count is_log tr + fuel; count is_stdout tr + fuel;
     count is_readString tr + fuel; count is_readPassword tr + fuel].
Proof.
  intros HE Hssh Hproto Hretry. unfold builtinGitClone.
  rewrite HE, Hssh, Hproto. cbn [orb]. now apply loop_never_gives_up.
Qed.

Lemma X16_retry_loop_has_no_cap_witness :
  exists tr',
    builtinGitClone sample_NewEndpoint 7 (sample_Config true true false false)
      "alice" "https://github.com/alice/dotfiles.git" "/wt" env_always_auth [] =
    (None, tr') /\
    counts tr' = [7; 7; 7; 7; 7].
Proof.
  refine (X16_retry_loop_has_no_cap sample_NewEndpoint 7
            (sample_Config true true false false) "alice"
            "https://github.com/alice/dotfiles.git" "/wt" env_always_auth [] _
            eq_refl eq_refl eq_refl _).
  intros i _. repeat split; eexists; reflexivity.
Defined.

(** X17: with the builtin git and the ssh option set nothing is ever
    cloned, whatever the argument and whether or not guessing is on:
    the result is an error (that of the endpoint parser, or the advice to
    install git) and nothing has happened. *)
Theorem X17_ssh_option_stops_builtin_clone
    (NewEndpoint : string -> result Endpoint)
    (url_Parse : string -> result url_URL) (URL_String : url_URL -> string)
    (fuel : nat) (c : Config) (arg path : string) (env : Env) (tr : list event) :
  useBuiltinGit c = true ->
  ssh (init c) = true ->
  exists err,
    cloneRepo NewEndpoint url_Parse URL_String fuel c arg path env tr =
    (Some (Some err), tr) /\
    ((exists url, NewEndpoint url = Err err) \/
     err = errorString
             "builtin git does not support cloning repos over ssh, please install git").
Proof.
  intros Hb Hs. unfold cloneRepo. rewrite Hb.
  destruct (if guessRepoURL_enabled (init c) then guessRepoURL arg (ssh (init c))
            else ("", arg)) as [username url].
  unfold builtinGitClone. rewrite Hs. cbn [orb].
  destruct (NewEndpoint url) as [endpoint|e] eqn:HE; eexists; (split; [reflexivity|]).
  - now right.
  - left. eauto.
Qed.

Lemma X17_ssh_option_stops_builtin_clone_witness :
  exists err,
    cloneRepo sample_NewEndpoint sample_url_Parse sample_URL_String 5
      (sample_Config true false true false) "https://example.com/a.git" "/wt"
      env_always_auth [] = (Some (Some err), []).
Proof.
  destruct (X17_ssh_option_stops_builtin_clone sample_NewEndpoint sample_url_Parse
              sample_URL_String 5 (sample_Config true false true false)
              "https://example.com/a.git" "/wt" env_always_auth [] eq_refl eq_refl)
    as (err & H & _).
  exists err. exact H.
Defined.

(** A group [([a][b]+)] matched one byte of [a] and a run of [b]. *)
Lemma class_plus_inv {R : Type} (a b : class) (s : string) (k : string -> option R) (res : R) :
  match s with
  | String c s' => if in_class a c then plus_class b s' k else None
  | EmptyString => None
  end = Some res ->
  exists c x s',
    s = String c (x ++ s') /\ in_class a c = true /\
    Str.all_in (in_class b) x = true /\ Str.is_empty x = false /\ k s' = Some res.
Proof.
  destruct s as [|c s]; [discriminate|].
  destruct (in_class a c) eqn:Hc; [|discriminate].
  intros E. apply plus_class_inv in E as (x & s' & -> & Hx & Hx' & E).
  exists c, x, s'. auto.
Qed.

Lemma rx7_inv (arg : string) :
  MatchString rx7 arg = true ->
  exists c x,
    arg = "sr.ht/~" ++ String c x /\ in_class srht_first c = true /\
    Str.all_in (in_class srht_rest) x = true /\ x <> "".
Proof.
  inv_start rx7 arg E. inv_step E.
  cbn beta in E. apply class_plus_inv in E as (c & x & s' & -> & Hc & Hx & Hx' & E).
  inv_step E. rewrite append_nil_r.
  exists c, x. auto using is_empty_true_neq.
Qed.

Lemma rx8_inv (arg : string) :
  MatchString rx8 arg = true ->
  exists c x r,
    arg = "sr.ht/~" ++ String c x ++ "/" ++ r /\ in_class srht_first c = true /\
    Str.all_in (in_class srht_rest) x = true /\ x <> "" /\
    Str.all_in (in_class word) r = true /\ r <> "".
Proof.
  inv_start rx8 arg E. inv_step E.
  cbn beta in E. apply class_plus_inv in E as (c & x & s' & -> & Hc & Hx & Hx' & E).
  repeat inv_step E. rewrite append_nil_r.
  exists c, x. eexists. repeat split; eauto using is_empty_true_neq.
Qed.

(** Without ssh, a rule that matches yields a username. *)
Lemma guess_http_username (arg : string) :
  (exists g, In g repoGuesses /\ MatchString (rx g) arg = true) ->
  fst (guessRepoURL arg false) <> "".
Proof.
  intros (g & Hin & Hg). cbn [In repoGuesses] in Hin.
  assert (H : MatchString rx1 arg = true \/ MatchString rx2 arg = true \/
              MatchString rx3 arg = true \/ MatchString rx4 arg = true \/
              MatchString rx5 arg = true \/ MatchString rx6 arg = true \/
              MatchString rx7 arg = true \/ MatchString rx8 arg = true).
  { repeat (destruct Hin as [<- | Hin]; [tauto|]). contradiction. }
  clear g Hin Hg.
  destruct (MatchString rx1 arg) eqn:M1.
  { destruct (rx1_inv arg M1) as [Hu Hu'].
    now rewrite (guess_identifier arg false Hu' Hu). }
  destruct (MatchString rx2 arg) eqn:M2.
  { destruct (rx2_inv arg M2) as (o & nm & sfx & -> & Ho & Ho' & Hn & Hn' & Hsfx).
    now rewrite (guess_owner_name o nm sfx false) by assumption. }
  destruct (MatchString rx3 arg) eqn:M3.
  { destruct (rx3_inv arg M3) as (h & o & -> & Hh & Hh' & Ho & Ho').
    destruct (Str.any_in (Ascii.eqb ".") h) eqn:Hdot.
    - now destruct (guess_host_owner h o false Hh Hdot Ho' Ho) as (_ & _ & _ & ->).
    - exfalso. pose proof (dotted_without_dot h Hh Hdot) as Hw.
      destruct (anchored_hit rx2 _ (h ++ "/" ++ o ++ "") [None; Some h; Some o; None] eq_refl)
        as [M2' _].
      { apply rx2_hit; auto using is_empty_false. }
      rewrite append_nil_r in M2'. congruence. }
  destruct (MatchString rx4 arg) eqn:M4.
  { destruct (rx4_inv arg M4) as (h & o & r & -> & Hh & Hh' & Ho & Ho' & Hr & Hr').
    now rewrite (guess_plain_host h o r false) by assumption. }
  destruct (MatchString rx5 arg) eqn:M5.
  { destruct (rx5_inv arg M5) as (h & o & r & sfx & -> & Hh & Hh' & Ho & Ho' & Hr & Hr' & Hsfx).
    destruct (Str.any_in (Ascii.eqb ".") h) eqn:Hdot.
    - now rewrite (guess_host_owner_repo h o r sfx false) by assumption.
    - exfalso. pose proof (dotted_without_dot h Hh Hdot) as Hw.
      destruct (anchored_hit rx4 _ (h ++ "/" ++ o ++ "/" ++ r ++ sfx)
                  [None; Some h; Some o; Some (r ++ sfx)] eq_refl) as [M4' _].
      { apply rx4_hit; auto using is_empty_false, is_empty_app.
        rewrite all_in_app, (all_in_word_dotted r Hr).
        destruct Hsfx as [-> | ->]; reflexivity. }
      congruence. }
  destruct (MatchString rx6 arg) eqn:M6.
  { destruct (rx6_inv arg M6)
      as (sch & h & o & r & sfx & -> & Hsch & Hh & Hh' & Ho & Ho' & Hr & Hr' & Hsfx).
    now rewrite (guess_full_url sch h o r sfx) by assumption. }
  destruct (MatchString rx8 arg) eqn:M8.
  { destruct (rx8_inv arg M8) as (c & x & r & -> & Hc & Hx & Hx' & Hr & Hr').
    rewrite (guess_srht_repo c x r false) by assumption. discriminate. }
  destruct (MatchString rx7 arg) eqn:M7.
  { destruct (rx7_inv arg M7) as (c & x & -> & Hc & Hx & Hx').
    rewrite (guess_srht_user c x false) by assumption. discriminate. }
  exfalso. repeat (destruct H as [H|H]; [discriminate H|]). discriminate H.
Qed.

(** X18: without ssh, the username that [guessRepoURL] returns is empty
    exactly when no rule of the table matches the argument, and then the
    URL is the argument as it is. *)
Theorem X18_username_empty_iff_unmatched (arg : string) :
  (fst (guessRepoURL arg false) = "" <->
   forall g, In g repoGuesses -> MatchString (rx g) arg = false) /\
  (fst (guessRepoURL arg false) = "" -> snd (guessRepoURL arg false) = arg).
Proof.
  assert (Hmiss : (forall g, In g repoGuesses -> MatchString (rx g) arg = false) ->
                  guessRepoURL arg false = ("", arg)).
  { intros H.
    assert (Hk : forall k, (k < 8)%nat ->
                 MatchString (rx (nth k repoGuesses {| rx := rx1; httpRepoGuessRepl := EmptyString; sshRepoGuessRepl := EmptyString; usernameGuessRepl := EmptyString |})) arg = false).
    { intros k Hk. apply H. apply nth_In. exact Hk. }
    apply guess_unmatched;
      [ exact (Hk 0%nat ltac:(lia)) | exact (Hk 1%nat ltac:(lia))
      | exact (Hk 2%nat ltac:(lia)) | exact (Hk 3%nat ltac:(lia))
      | exact (Hk 4%nat ltac:(lia)) | exact (Hk 5%nat ltac:(lia))
      | exact (Hk 6%nat ltac:(lia)) | exact (Hk 7%nat ltac:(lia)) ]. }
  assert (Hhit : fst (guessRepoURL arg false) = "" ->
                 forall g, In g repoGuesses -> MatchString (rx g) arg = false).
  { intros E g Hin. destruct (MatchString (rx g) arg) eqn:M; [|reflexivity].
    exfalso. apply (guess_http_username arg); eauto. }
  split; [split|].
  - exact Hhit.
  - intros H. now rewrite (Hmiss H).
  - intros E. now rewrite (Hmiss (Hhit E)).
Qed.

(** ** The steps after the bootstrap *)

(** X19: the steps that follow the bootstrap run in the order of the
    source (version check, source directory, config file, apply, purge),
    each at most once and none but these; every step but the last one
    run answered without an error, and the command returns what the last
    one answered: the first error ends the command, and no step runs
    after it. *)
Theorem X19_later_steps_stop_at_first_error (c : Config) (env : Env) (tr : list event) :
  exists done last,
    snd (finishInit c env tr) = (tr ++ done ++ [last])%list /\
    Forall (fun e => step_error env e = None) done /\
    fst (finishInit c env tr) = step_error env last /\
    StronglySorted lt (map step_rank (done ++ [last])) /\
    Forall (fun e => 0 < step_rank e) (done ++ [last]).
Proof.
  unfold finishInit, bind, checkVersion, getSourceDirAbsPath, createAndReloadConfigFile,
    applyArgs, doPurge, runtime_GOOS, package_noArgs, method, ret.
  destruct (checkVersionResult env c) as [e1 c1] eqn:E1; cbn [fst snd].
  destruct e1 as [e1|].
  { exists [], (EvCheckVersion c). cbn [app step_error map step_rank]. rewrite E1.
    repeat split; repeat constructor. }
  destruct (getSourceDirAbsPathResult env c1 {| refresh := true |})
    as [[dir e2] c2] eqn:E2; cbn [fst snd].
  destruct e2 as [e2|].
  { exists [EvCheckVersion c], (EvGetSourceDirAbsPath c1 {| refresh := true |}).
    rewrite <- !app_assoc. cbn [app step_error map step_rank]. rewrite E2.
    repeat split; repeat constructor; cbn [step_error]; rewrite ?E1; try reflexivity; lia. }
  set (c2' := with_SourceDirAbsPath c2 dir).
  destruct (createAndReloadConfigFileResult env c2') as [e3 c3] eqn:E3; cbn [fst snd].
  destruct e3 as [e3|].
  { exists [EvCheckVersion c; EvGetSourceDirAbsPath c1 {| refresh := true |}],
           (EvCreateAndReloadConfigFile c2').
    rewrite <- !app_assoc. cbn [app step_error map step_rank]. rewrite E3.
    repeat split; repeat constructor; cbn [step_error]; rewrite ?E1, ?E2;
      try reflexivity; lia. }
  destruct (apply (init c3)).
  - match goal with
    | |- context [applyArgsResult env c3 ?a ?b ?d ?o] =>
        destruct (applyArgsResult env c3 a b d o) as [e4 c4] eqn:E4; cbn [fst snd]
    end.
    destruct e4 as [e4|].
    { eexists [EvCheckVersion c; EvGetSourceDirAbsPath c1 {| refresh := true |};
               EvCreateAndReloadConfigFile c2'], (EvApplyArgs c3 _ _ _ _).
      rewrite <- !app_assoc. cbn [app step_error map step_rank]. rewrite E4.
      repeat split; repeat constructor; cbn [step_error]; rewrite ?E1, ?E2, ?E3;
        try reflexivity; lia. }
    destruct (purge (init c4)).
    + match goal with
      | |- context [doPurgeResult env c4 ?o] =>
          destruct (doPurgeResult env c4 o) as [e5 c5] eqn:E5; cbn [fst snd]
      end.
      eexists [EvCheckVersion c; EvGetSourceDirAbsPath c1 {| refresh := true |};
               EvCreateAndReloadConfigFile c2'; EvApplyArgs c3 _ _ _ _],
              (EvDoPurge c4 _).
      rewrite <- !app_assoc. cbn [app step_error map step_rank]. rewrite E5.
      repeat split; repeat constructor; cbn [step_error]; rewrite ?E1, ?E2, ?E3, ?E4;
        try reflexivity; lia.
    + eexists [EvCheckVersion c; EvGetSourceDirAbsPath c1 {| refresh := true |};
               EvCreateAndReloadConfigFile c2'], (EvApplyArgs c3 _ _ _ _).
      rewrite <- !app_assoc. cbn [app step_error map step_rank]. rewrite E4.
      repeat split; repeat constructor; cbn [step_error]; rewrite ?E1, ?E2, ?E3;
        try reflexivity; lia.
  - cbn [fst snd]. destruct (purge (init c3)).
    + match goal with
      | |- context [doPurgeResult env c3 ?o] =>
          destruct (doPurgeResult env c3 o) as [e5 c5] eqn:E5; cbn [fst snd]
      end.
      eexists [EvCheckVersion c; EvGetSourceDirAbsPath c1 {| refresh := true |};
               EvCreateAndReloadConfigFile c2'], (EvDoPurge c3 _).
      rewrite <- !app_assoc. cbn [app step_error map step_rank]. rewrite E5.
      repeat split; repeat constructor; cbn [step_error]; rewrite ?E1, ?E2, ?E3;
        try reflexivity; lia.
    + exists [EvCheckVersion c; EvGetSourceDirAbsPath c1 {| refresh := true |}],
             (EvCreateAndReloadConfigFile c2').
      rewrite <- !app_assoc. cbn [app step_error map step_rank]. rewrite E3.
      repeat split; repeat constructor; cbn [step_error]; rewrite ?E1, ?E2;
        try reflexivity; lia.
Qed.

(** X20: a one-shot [init] in a working tree that is already there.
    When the later steps leave the options of [init] alone and none of
    them fails, the command checks the version, refreshes the source
    directory, creates and reloads the config file, applies (to the
    destination directory, on the destination system, with [noArgs]
    for arguments, not recursively, with the filter of the command line and
    the umask and destination of the reloaded configuration) and purges,
    the binary included unless the system is Windows; the first of these
    steps already sees [force] set. *)
Theorem X20_one_shot_applies_and_purges
    (NewEndpoint : string -> result Endpoint)
    (url_Parse : string -> result url_URL) (URL_String : url_URL -> string)
    (fuel : nat) (c : Config) (args : list string) (env : Env) (tr : list event) :
  let c' := oneShot_overrides c in
  let r := runInitCmd NewEndpoint url_Parse URL_String fuel c args env tr in
  oneShot (init c) = true ->
  statResult env (gitDirAbsPath c') = Ok {| IsDir := true |} ->
  keeps_options env ->
  fst r = Some None ->
  force c' = true /\
  exists c1 c2 c3 c4,
    snd r =
    (tr ++ [EvCheckVersion c';
            EvGetSourceDirAbsPath c1 {| refresh := true |};
            EvCreateAndReloadConfigFile c2;
            EvApplyArgs c3 destSystem (DestDirAbsPath c3) (noArgs env)
              {| applyArgs_filter := filter (init c);
                 applyArgs_recursive := false;
                 applyArgs_umask := Umask c3;
                 applyArgs_preApplyFunc := defaultPreApplyFunc |};
            EvDoPurge c4 {| binary := negb (GOOS env =? "windows")%string |}])%list.
Proof.
  intros c' r Hone Hstat Hkeep. subst r. rewrite runInitCmd_halves. fold c'.
  rewrite (ensureWorkingTree_existing_tree _ _ _ fuel c' args env tr Hstat).
  cbn [fst snd].
  assert (Hinit : apply (init c') = true /\ purge (init c') = true /\
                  purgeBinary (init c') = true /\ filter (init c') = filter (init c) /\
                  force c' = true).
  { unfold c', oneShot_overrides. rewrite Hone. cbn. auto. }
  destruct Hinit as (Ha & Hp & Hpb & Hf & Hforce).
  intros Hres. split; [exact Hforce|].
  revert Hres.
  unfold finishInit, bind, checkVersion, getSourceDirAbsPath, createAndReloadConfigFile,
    applyArgs, doPurge, runtime_GOOS, package_noArgs, method, ret.
  destruct (Hkeep c') as (K1 & _).
  destruct (checkVersionResult env c') as [e1 c1]; cbn [fst snd] in *.
  destruct e1 as [e1|]; [discriminate|].
  destruct (Hkeep c1) as (_ & K2 & _). specialize (K2 {| refresh := true |}).
  destruct (getSourceDirAbsPathResult env c1 {| refresh := true |}) as [[dir e2] c2];
    cbn [fst snd] in *.
  destruct e2 as [e2|]; [discriminate|].
  set (c2' := with_SourceDirAbsPath c2 dir).
  destruct (Hkeep c2') as (_ & _ & K3 & _).
  destruct (createAndReloadConfigFileResult env c2') as [e3 c3]; cbn [fst snd] in *.
  destruct e3 as [e3|]; [discriminate|].
  assert (I3 : init c3 = init c') by (rewrite K3; unfold c2'; cbn [init with_SourceDirAbsPath]; congruence).
  rewrite I3, Ha, Hf.
  destruct (Hkeep c3) as (_ & _ & _ & K4).
  specialize (K4 destSystem (DestDirAbsPath c3) (noArgs env)
                {| applyArgs_filter := filter (init c); applyArgs_recursive := false;
                   applyArgs_umask := Umask c3;
                   applyArgs_preApplyFunc := defaultPreApplyFunc |}).
  destruct (applyArgsResult env c3 destSystem (DestDirAbsPath c3) (noArgs env) _) as [e4 c4];
    cbn [fst snd] in *.
  destruct e4 as [e4|]; [discriminate|].
  assert (I4 : init c4 = init c') by congruence.
  rewrite I4, Hp, Hpb, andb_true_r.
  destruct (doPurgeResult env c4 _) as [e5 c5]; cbn [fst snd].
  intros _. exists c1, c2', c3, c4. rewrite <- !app_assoc. reflexivity.
Qed.

Lemma X20_one_shot_applies_and_purges_witness :
  exists c1 c2 c3 c4,
    snd (runInitCmd sample_NewEndpoint sample_url_Parse sample_URL_String 5
           (one_shot_Config true) [] env_existing_tree []) =
    [EvCheckVersion (oneShot_overrides (one_shot_Config true));
     EvGetSourceDirAbsPath c1 {| refresh := true |};
     EvCreateAndReloadConfigFile c2;
     EvApplyArgs c3 destSystem "/home/user" []
       {| applyArgs_filter := None; applyArgs_recursive := false;
          applyArgs_umask := 18; applyArgs_preApplyFunc := defaultPreApplyFunc |};
     EvDoPurge c4 {| binary := true |}].
Proof.
  assert (Hkeep : keeps_options env_existing_tree) by (intros c; repeat split).
  destruct (X20_one_shot_applies_and_purges sample_NewEndpoint sample_url_Parse
              sample_URL_String 5 (one_shot_Config true) [] env_existing_tree []
              eq_refl eq_refl Hkeep eq_refl) as (_ & c1 & c2 & c3 & c4 & E).
  exists c1, c2, c3, c4. rewrite E.
  assert (D : DestDirAbsPath c3 = "/home/user" /\ Umask c3 = 18%N).
  { cbn [app] in E. apply (f_equal (fun l => nth 3 l (EvCheckVersion c3))) in E.
    vm_compute in E. injection E as E. rewrite <- E. split; reflexivity. }
  destruct D as [-> ->]. reflexivity.
Defined.
